(** * The billboard pricing engine: price resolution, quotes, statistics, CSV exchange

    A shallow embedding of [src/services/enhancedPricingService.ts] (class
    [EnhancedPricingService]), of [exportToCSV] and the cell editing of the
    pricing data manager component, and of the handlers of the pricing
    calculator component, followed by the properties of the specification
    and by further properties of the code.

    Conventions of the embedding.
    - A JavaScript number that the service handles is an integer amount; it is
      a [Z], and arithmetic on it is exact (as double arithmetic is below
      2^53).  Quotients and the municipality multipliers are rationals ([Q]);
      [Math.round] and [Math.ceil] act on them.  NaN appears as the result
      [None] of [parseInt], and as the [NaN] of the type [number] where the
      code does arithmetic on a value that need not be a number: the
      installation fee and the totals it enters.
    - A JavaScript string is a [string] holding its UTF-8 bytes.  The
      separators the service splits on are ASCII, so splitting bytes and
      splitting characters agree.
    - A price row is a JavaScript object with Arabic keys: a finite map from
      property names to values, its own properties.  A key that the code
      fixes, or that it types [keyof PricingRow], is a column name.  Where
      the code reads or writes an object under any string (the size and the
      municipality in the tables of the installation fee, the keys of the
      breakdowns, the header names of an imported file), the properties
      that every object inherits from [Object.prototype] are modelled too:
      see [inherited] and [assign].
    - An [async] method is a computation over the [World] (clock, browser
      cache, backend) that returns a value or throws.
    - A date string may fail to be a date; [toISOString] then throws. *)

From Stdlib Require Import ZArith QArith Qround String Ascii List Lia.
From stdpp Require Import gmap strings list fin_maps.

Local Open Scope Z_scope.

(** ** The JavaScript runtime functions the service calls *)

Module JS.

(** Values found in a property of a row object. *)
Inductive value : Type :=
| VUndefined
| VNumber (n : Z)
| VString (s : string).

Global Instance value_eq_dec : EqDecision value.
Proof. solve_decision. Defined.

(** [ToBoolean]: what [x || y] and [x && y] test. *)
Definition truthy (v : value) : bool :=
  match v with
  | VUndefined => false
  | VNumber n => negb (n =? 0)
  | VString s => negb (String.eqb s EmptyString)
  end.

(** [x || y]. *)
Definition or_else (x y : value) : value := if truthy x then x else y.

(** [obj[key]] for a column name [key]: a missing property reads as
    [undefined]. *)
Definition get (obj : gmap string value) (key : string) : value :=
  default VUndefined (obj !! key).

(** [Math.round]: the nearest integer, a tie going up. *)
Definition Math_round (x : Q) : Z := Qfloor (x + (1 # 2))%Q.

(** [Math.ceil]. *)
Definition Math_ceil (x : Q) : Z := Qceiling x.

(** *** Strings *)

(** [s.split(sep)] for a separator of one character. *)
Fixpoint split (sep : ascii) (s : string) : list string :=
  match s with
  | EmptyString => [EmptyString]
  | String c rest =>
      if Ascii.eqb c sep then EmptyString :: split sep rest
      else match split sep rest with
           | [] => [String c EmptyString]
           | cur :: others => String c cur :: others
           end
  end.

(** [parts.join(sep)] on strings. *)
Fixpoint join (sep : string) (parts : list string) : string :=
  match parts with
  | [] => EmptyString
  | [p] => p
  | p :: rest => p +:+ sep +:+ join sep rest
  end.

(** White space of ECMAScript ([WhiteSpace] and [LineTerminator]), by its
    UTF-8 encoding: one byte for U+0009..U+000D and U+0020, two bytes for
    U+00A0, three bytes for U+1680, U+2000..U+200A, U+2028, U+2029, U+202F,
    U+205F, U+3000 and U+FEFF. *)
Definition ws1 (a : ascii) : bool :=
  let n := N_of_ascii a in ((9 <=? n) && (n <=? 13) || (n =? 32))%N.

Definition ws2 (a b : ascii) : bool :=
  ((N_of_ascii a =? 194) && (N_of_ascii b =? 160))%N.

Definition ws3 (a b c : ascii) : bool :=
  let x := N_of_ascii a in
  let y := N_of_ascii b in
  let z := N_of_ascii c in
  ((x =? 225) && (y =? 154) && (z =? 128)
   || (x =? 226) && (y =? 128)
      && ((128 <=? z) && (z <=? 138) || (z =? 168) || (z =? 169) || (z =? 175))
   || (x =? 226) && (y =? 129) && (z =? 159)
   || (x =? 227) && (y =? 128) && (z =? 128)
   || (x =? 239) && (y =? 187) && (z =? 191))%N.

(** Drops the white space a string starts with; [p2] and [p3] recognise the
    two- and three-byte characters in the order the bytes are met. *)
Fixpoint dropSpace (p2 : ascii → ascii → bool) (p3 : ascii → ascii → ascii → bool)
    (s : string) : string :=
  match s with
  | String a r1 =>
      if ws1 a then dropSpace p2 p3 r1
      else match r1 with
           | String b r2 =>
               if p2 a b then dropSpace p2 p3 r2
               else match r2 with
                    | String c r3 => if p3 a b c then dropSpace p2 p3 r3 else s
                    | EmptyString => s
                    end
           | EmptyString => s
           end
  | EmptyString => s
  end.

Definition trimStart (s : string) : string := dropSpace ws2 ws3 s.

(** From the end the bytes of a character are met last byte first. *)
Definition trimEnd (s : string) : string :=
  String.rev
    (dropSpace (λ a b, ws2 b a) (λ a b c, ws3 c b a) (String.rev s)).

(** [s.trim()]. *)
Definition trim (s : string) : string := trimEnd (trimStart s).

(** *** Integers and their text *)

(** The value of a character as a digit, letters counting from ten. *)
Definition digitValue (a : ascii) : option Z :=
  let n := Z.of_N (N_of_ascii a) in
  if (48 <=? n) && (n <=? 57) then Some (n - 48)
  else if (97 <=? n) && (n <=? 122) then Some (n - 87)
  else if (65 <=? n) && (n <=? 90) then Some (n - 55)
  else None.

(** Reads the longest run of digits of the radix at the start of [s];
    [acc] is [None] until a digit has been read. *)
Fixpoint readDigits (radix : Z) (s : string) (acc : option Z) : option Z :=
  match s with
  | String a rest =>
      match digitValue a with
      | Some d =>
          if d <? radix
          then readDigits radix rest (Some (default 0 acc * radix + d))
          else acc
      | None => acc
      end
  | EmptyString => acc
  end.

(** [parseInt(x)] with no radix argument; [x] is [None] for [undefined],
    the result is [None] for NaN.  Leading white space is skipped, a sign
    is read, a [0x] prefix selects base sixteen, and reading stops at the
    first character that is not a digit. *)
Definition parseInt (x : option string) : option Z :=
  let inputString := default "undefined" x in
  let s := trimStart inputString in
  let '(sign, s) :=
    match s with
    | String a r =>
        if Ascii.eqb a "-" then (-1, r)
        else if Ascii.eqb a "+" then (1, r)
        else (1, s)
    | EmptyString => (1, s)
    end in
  let '(radix, s) :=
    match s with
    | String a (String b r) =>
        if Ascii.eqb a "0" && (Ascii.eqb b "x" || Ascii.eqb b "X")
        then (16, r)
        else (10, s)
    | _ => (10, s)
    end in
  match readDigits radix s None with
  | Some n => Some (sign * n)
  | None => None
  end.

(** [parseInt(x) || fallback]: NaN and zero are falsy. *)
Definition parseInt_or (x : option string) (fallback : value) : value :=
  match parseInt x with
  | Some n => if n =? 0 then fallback else VNumber n
  | None => fallback
  end.

Definition digitChar (d : Z) : ascii := ascii_of_N (Z.to_N (48 + d)).

(** The decimal digits of a natural number, written in front of [acc]. *)
Fixpoint digitsOf (fuel : nat) (n : Z) (acc : string) : string :=
  let acc' := String (digitChar (n mod 10)) acc in
  match fuel with
  | O => acc'
  | S fuel' => if n <? 10 then acc' else digitsOf fuel' (n / 10) acc'
  end.

(** [String(n)] for an integer [n]: its decimal numeral. *)
Definition Number_toString (n : Z) : string :=
  if n <? 0
  then String "-" (digitsOf (Z.to_nat (Z.log2 (- n))) (- n) EmptyString)
  else digitsOf (Z.to_nat (Z.log2 n)) n EmptyString.

(** [String(v)] as [Array.prototype.join] applies it: [undefined] gives the
    empty string. *)
Definition toJoinString (v : value) : string :=
  match v with
  | VUndefined => EmptyString
  | VNumber n => Number_toString n
  | VString s => s
  end.

(** *** Numbers that arithmetic on any value gives *)

(** The result of arithmetic whose operands may be objects or functions: an
    integer, or NaN. *)
Inductive number : Type :=
| Num (n : Z)
| NaN.

Coercion Num : Z >-> number.

Global Instance number_eq_dec : EqDecision number.
Proof. solve_decision. Defined.

(** [x + y] on numbers: NaN absorbs. *)
Definition number_add (x y : number) : number :=
  match x, y with
  | Num a, Num b => Num (a + b)
  | _, _ => NaN
  end.

Declare Scope number_scope.
Delimit Scope number_scope with number.
Infix "+" := number_add : number_scope.

(** *** The properties every object inherits *)

(** The names of the properties of [Object.prototype].  Read from a plain
    object that has no own property of that name, each of them gives a
    function, and [__proto__] gives the prototype object: a value that is
    truthy and is neither a number nor a string. *)
Definition inheritedNames : list string :=
  [ "constructor"; "__proto__"; "hasOwnProperty"; "isPrototypeOf";
    "propertyIsEnumerable"; "toLocaleString"; "toString"; "valueOf";
    "__defineGetter__"; "__defineSetter__"; "__lookupGetter__";
    "__lookupSetter__" ].

Definition inherited (key : string) : bool := bool_decide (key ∈ inheritedNames).

(** The string that [+] and [String] turn the inherited value into:
    [[object Object]] for the prototype object, and for a function its
    source text, as V8 prints the text of a native function. *)
Definition inheritedText (key : string) : string :=
  if String.eqb key "__proto__" then "[object Object]"
  else "function "
       +:+ (if String.eqb key "constructor" then "Object" else key)
       +:+ "() { [native code] }".

(** [obj[key] = v] for a value [v] that is not an object.  The assignment
    sets an own property, but for [__proto__]: unless the object has an own
    property of that name already, the assignment reaches the accessor it
    inherits, whose setter ignores such a value. *)
Definition assign (obj : gmap string value) (key : string) (v : value)
    : gmap string value :=
  match obj !! key with
  | None => if String.eqb key "__proto__" then obj else <[key := v]> obj
  | Some _ => <[key := v]> obj
  end.

End JS.

Import JS.

(** ** Data model *)

(** [CustomerType = 'عادي' | 'مسوق' | 'شركات' | 'المدينة'] *)
Inductive CustomerType : Type :=
| Regular
| Marketer
| Companies
| City.

(** The string a customer type is at run time. *)
Definition customerTypeText (c : CustomerType) : string :=
  match c with
  | Regular => "عادي"
  | Marketer => "مسوق"
  | Companies => "شركات"
  | City => "المدينة"
  end.

(** [PricingMode = 'daily' | 'package'] *)
Inductive PricingMode : Type :=
| daily
| package.

(** [PriceListType] is declared outside the service; a level is a string. *)
Abbreviation PriceListType := string (only parsing).

(** [PricingRow]: an object whose properties are the columns below. *)
Abbreviation PricingRow := (gmap string value) (only parsing).

Definition col_id : string := "id".
Definition col_size : string := "المقاس".
Definition col_level : string := "المستوى".
Definition col_customer : string := "الزبون".
Definition col_oneMonth : string := "شهر واحد".
Definition col_twoMonths : string := "2 أشهر".
Definition col_threeMonths : string := "3 أشهر".
Definition col_sixMonths : string := "6 أشهر".
Definition col_oneYear : string := "سنة كاملة".
Definition col_oneDay : string := "يوم واحد".

Record BillboardPricingData : Type := {
  bb_id : string;
  bb_name : string;
  bb_size : string;
  bb_municipality : string;
  bb_level : PriceListType;
  bb_status : string;
  bb_location : string;
  bb_imageUrl : option string
}.

Record PricingCalculation : Type := {
  billboard : BillboardPricingData;
  basePrice : Z;
  dailyPrice : Z;
  totalDays : Z;
  subtotal : Z;
  installationPrice : number;
  total : number
}.

Record CustomerInfo : Type := {
  ci_name : string;
  ci_email : string;
  ci_phone : string;
  ci_company : option string;
  ci_customerType : CustomerType
}.

Record PricingQuote : Type := {
  q_id : string;
  q_customerInfo : CustomerInfo;
  q_pricingMode : PricingMode;
  q_startDate : string;
  q_endDate : option string;
  q_packageDuration : option string;
  q_billboards : list PricingCalculation;
  q_subtotal : Z;
  q_totalInstallation : number;
  q_grandTotal : number;
  q_currency : string;
  q_createdAt : string;
  q_validUntil : string
}.

Record PackageOption : Type := {
  po_key : string;
  po_label : string;
  po_duration : Z
}.

(** The result of [getCampaignStats]; a breakdown is an object used as a
    map from a string to a count.  What it stores is a number, or the
    string that [+ 1] makes of a value that is not a number. *)
Record CampaignStats : Type := {
  totalBillboards : Z;
  stats_totalDays : Z;
  averageDailyPrice : Z;
  sizeBreakdown : gmap string value;
  municipalityBreakdown : gmap string value;
  levelBreakdown : gmap string value
}.

(** The result of [updatePricingData]. *)
Record ImportResult : Type := {
  success : bool;
  imported : Z;
  errors : list string
}.

(** ** The world of the service: clock, browser cache, backend *)

(** What [localStorage] holds under [CACHE_KEY]. *)
Record CacheRecord : Type := {
  cache_data : list PricingRow;
  cache_timestamp : Z
}.

(** How a request to the backend ends: with data, with an [error] in the
    response, or with a rejected promise. *)
Inductive Fault : Type :=
| Works
| ReportsError (message : string)
| Rejects (message : string).

(** The [pricing_ar] table behind the client; [table] lists the rows by
    ascending id, the order in which the service reads them. *)
Record Backend : Type := {
  table : list PricingRow;
  onSelect : Fault;
  onDelete : Fault;
  onInsert : Fault
}.

(** [supabase] is [None] when the client is not configured. *)
Record World : Type := {
  now : Z;
  localStorage : option CacheRecord;
  supabase : option Backend
}.

Inductive Outcome (A : Type) : Type :=
| Returned (a : A)
| Thrown (message : string).
Arguments Returned {A} a.
Arguments Thrown {A} message.

(** A method of the service: it runs in a world, returns or throws, and
    leaves a world. *)
Definition M (A : Type) : Type := World → Outcome A * World.

Definition ret {A : Type} (a : A) : M A := λ w, (Returned a, w).

Definition throw {A : Type} (message : string) : M A := λ w, (Thrown message, w).

Definition bind {A B : Type} (m : M A) (k : A → M B) : M B :=
  λ w, match m w with
       | (Returned a, w') => k a w'
       | (Thrown e, w') => (Thrown e, w')
       end.

(** [try { m } catch (error) { handler(error) }] *)
Definition tryCatch {A : Type} (m : M A) (handler : string → M A) : M A :=
  λ w, match m w with
       | (Returned a, w') => (Returned a, w')
       | (Thrown e, w') => handler e w'
       end.

Notation "'let*' x ':=' m 'in' k" := (bind m (λ x, k))
  (at level 10, x name, m at level 100, k at level 200).

Definition getWorld : M World := λ w, (Returned w, w).
Definition setLocalStorage (c : option CacheRecord) : M unit :=
  λ w, (Returned tt, {| now := now w; localStorage := c; supabase := supabase w |}).
Definition setBackend (b : Backend) : M unit :=
  λ w, (Returned tt, {| now := now w; localStorage := localStorage w; supabase := Some b |}).

Inductive Response (A : Type) : Type :=
| Data (data : A)
| Error (message : string).
Arguments Data {A} data.
Arguments Error {A} message.

(** [await supabase.from('pricing_ar').select('*').order('id', ...)] *)
Definition selectAll (b : Backend) : M (Response (list PricingRow)) :=
  match onSelect b with
  | Works => ret (Data (table b))
  | ReportsError e => ret (Error e)
  | Rejects e => throw e
  end.

(** The rows that the filter [neq('id', -1)] of the delete request leaves
    in the table: those whose id is -1. *)
Definition spared (rows : list PricingRow) : list PricingRow :=
  filter (λ row : PricingRow, get row col_id = VNumber (-1)) rows.

(** [await supabase.from('pricing_ar').delete().neq('id', -1)] *)
Definition deleteAll : M (Response unit) :=
  let* w := getWorld in
  match supabase w with
  | None => throw "supabase is null"
  | Some b =>
      match onDelete b with
      | Works =>
          let* _ := setBackend {| table := spared (table b);
                                  onSelect := onSelect b;
                                  onDelete := onDelete b; onInsert := onInsert b |} in
          ret (Data tt)
      | ReportsError e => ret (Error e)
      | Rejects e => throw e
      end
  end.

(** [await supabase.from('pricing_ar').insert(rows)]; the identifiers the
    store gives to new rows are not modelled. *)
Definition insertRows (rows : list PricingRow) : M (Response unit) :=
  let* w := getWorld in
  match supabase w with
  | None => throw "supabase is null"
  | Some b =>
      match onInsert b with
      | Works =>
          let* _ := setBackend {| table := table b ++ rows; onSelect := onSelect b;
                                  onDelete := onDelete b; onInsert := onInsert b |} in
          ret (Data tt)
      | ReportsError e => ret (Error e)
      | Rejects e => throw e
      end
  end.

(** [Date]: parsing a date string to its time value, adding days to a time
    value ([setDate(getDate() + n)]) and [toISOString].  They belong to the
    host and its time zone; the service is embedded over any of them.  Time
    values are milliseconds.  [Date_valid] tells whether [new Date(s)] is a
    date; [Date_getTime] is its time value when it is one.  In the
    arithmetic on time values an invalid date, whose time value is NaN, is
    outside the model; in [generateQuote], where [toISOString] throws a
    [RangeError] on it, it is modelled, and [Date_invalidTime] is the
    message of that error. *)
Class JSDate : Type := {
  Date_getTime : string → Z;
  Date_valid : string → bool;
  Date_addDays : Z → Z → Z;
  Date_toISOString : Z → string;
  Date_invalidTime : string
}.

(** [TimeClip]: a date holds a time value of at most 8.64e15 ms from the
    epoch, and is invalid beyond. *)
Definition timeClip (t : Z) : option Z :=
  if Z.abs t <=? 8640000000000000 then Some t else None.

(** ** The service *)

Section Service.

Context `{JSDate}.

Definition CACHE_DURATION : Z := 5 * 60 * 1000.

(** *** Cache helpers *)

Definition clearCache : M unit := setLocalStorage None.

Definition getCachedData : M (option (list PricingRow)) :=
  let* w := getWorld in
  match localStorage w with
  | None => ret None
  | Some cached =>
      if now w - cache_timestamp cached >? CACHE_DURATION
      then let* _ := clearCache in ret None
      else ret (Some (cache_data cached))
  end.

(** [JSON.parse(JSON.stringify(data))]: a property whose value is
    [undefined] is not written. *)
Definition JSON_copy (data : list PricingRow) : list PricingRow :=
  (λ row : PricingRow, filter (λ kv, kv.2 ≠ VUndefined) row) <$> data.

Definition setCachedData (data : list PricingRow) : M unit :=
  let* w := getWorld in
  setLocalStorage
    (Some {| cache_data := JSON_copy data; cache_timestamp := now w |}).

(** *** Fallback data *)

Definition getFallbackData : list PricingRow :=
  [ {[ col_id := VNumber 1;
       col_size := VString "13x5";
       col_level := VString "A";
       col_customer := VString "عادي";
       col_oneMonth := VNumber 24000;
       col_twoMonths := VNumber 23000;
       col_threeMonths := VNumber 22000;
       col_sixMonths := VNumber 21000;
       col_oneYear := VNumber 20000;
       col_oneDay := VNumber 800 ]};
    {[ col_id := VNumber 2;
       col_size := VString "12x4";
       col_level := VString "A";
       col_customer := VString "عادي";
       col_oneMonth := VNumber 21000;
       col_twoMonths := VNumber 20000;
       col_threeMonths := VNumber 19000;
       col_sixMonths := VNumber 18000;
       col_oneYear := VNumber 17000;
       col_oneDay := VNumber 700 ]} ].

(** *** Loading the price table *)

Definition getAllPricingData : M (list PricingRow) :=
  tryCatch
    (let* cached := getCachedData in
     match cached with
     | Some rows => ret rows
     | None =>
         let* w := getWorld in
         match supabase w with
         | None => ret getFallbackData
         | Some client =>
             let* response := selectAll client in
             match response with
             | Error _ => ret getFallbackData
             | Data rows =>
                 let* _ := setCachedData rows in
                 ret rows
             end
         end
     end)
    (λ _, ret getFallbackData).

Definition getPackageOptions : list PackageOption :=
  [ {| po_key := col_oneMonth; po_label := col_oneMonth; po_duration := 30 |};
    {| po_key := col_twoMonths; po_label := col_twoMonths; po_duration := 60 |};
    {| po_key := col_threeMonths; po_label := col_threeMonths; po_duration := 90 |};
    {| po_key := col_sixMonths; po_label := col_sixMonths; po_duration := 180 |};
    {| po_key := col_oneYear; po_label := col_oneYear; po_duration := 365 |} ].

(** *** Price resolution *)

(** The predicate of [pricingData.find]: three strict equalities. *)
Definition rowMatches (size : string) (level : PriceListType)
    (customerType : CustomerType) (r : PricingRow) : bool :=
  bool_decide (get r col_size = VString size)
  && bool_decide (get r col_level = VString level)
  && bool_decide (get r col_customer = VString (customerTypeText customerType)).

Definition findPriceForBillboard (size : string) (level : PriceListType)
    (customerType : CustomerType) (pricingKey : string) : M Z :=
  tryCatch
    (let* pricingData := getAllPricingData in
     match List.find (rowMatches size level customerType) pricingData with
     | None => ret 0
     | Some row =>
         match get row pricingKey with
         | VNumber price => ret price
         | _ => ret 0
         end
     end)
    (λ _, ret 0).

(** *** Installation fee *)

Definition installationPrices : gmap string Z :=
  {[ "13x5" := 1500; "12x4" := 1200; "10x4" := 1000;
     "8x3" := 800; "6x3" := 600; "4x3" := 500 ]}.

(** The multipliers are the decimal literals of the code.  The code
    multiplies their nearest doubles, so that its product is a few units in
    the last place away from the product of the rationals (1500 * 1.1 is
    1650.0000000000002); [Math.round] of the two agrees for every entry of
    the two tables and for the defaults, and only the rounded fee is
    modelled. *)
Definition municipalityMultipliers : gmap string Q :=
  {[ "مصراتة" := 1%Q; "طرابلس" := (11 # 10)%Q; "بنغازي" := (12 # 10)%Q;
     "زليتن" := (9 # 10)%Q; "أبو سليم" := (11 # 10)%Q ]}.

(** [table[key] || fallback] on an object literal whose own properties are
    numbers: the own property unless it is zero, the fallback when [key]
    names no property at all, and [None], a value that is not a number,
    when [key] names a property that the object inherits. *)
Definition tableEntry {A : Type} (isZero : A → bool) (table : gmap string A)
    (key : string) (fallback : A) : option A :=
  match table !! key with
  | Some entry => Some (if isZero entry then fallback else entry)
  | None => if inherited key then None else Some fallback
  end.

Definition getInstallationPrice (size municipality : string) : M number :=
  let basePrice := tableEntry (λ p, p =? 0) installationPrices size 500 in
  let multiplier :=
    tableEntry (λ m, Qeq_bool m 0) municipalityMultipliers municipality 1%Q in
  ret match basePrice, multiplier with
      | Some basePrice', Some multiplier' =>
          Num (Math_round (inject_Z basePrice' * multiplier'))
      | _, _ => NaN
      end.

(** *** The two calculators *)

Definition calculateDailyPrice (billboard : BillboardPricingData)
    (customerType : CustomerType) (startDate endDate : string)
    (includeInstallation : bool) : M PricingCalculation :=
  let* dailyPrice :=
    findPriceForBillboard (bb_size billboard) (bb_level billboard)
      customerType col_oneDay in
  let start := Date_getTime startDate in
  let end_ := Date_getTime endDate in
  let totalDays :=
    Math_ceil (inject_Z (end_ - start) / inject_Z (1000 * 60 * 60 * 24)) + 1 in
  let subtotal := dailyPrice * totalDays in
  let* installationPrice :=
    if includeInstallation
    then getInstallationPrice (bb_size billboard) (bb_municipality billboard)
    else ret (Num 0) in
  let total := (subtotal + installationPrice)%number in
  ret {| billboard := billboard;
         basePrice := dailyPrice;
         dailyPrice := dailyPrice;
         totalDays := totalDays;
         subtotal := subtotal;
         installationPrice := installationPrice;
         total := total |}.

Definition calculatePackagePrice (billboard : BillboardPricingData)
    (customerType : CustomerType) (packageOption : PackageOption)
    (includeInstallation : bool) : M PricingCalculation :=
  let* packagePrice :=
    findPriceForBillboard (bb_size billboard) (bb_level billboard)
      customerType (po_key packageOption) in
  let* installationPrice :=
    if includeInstallation
    then getInstallationPrice (bb_size billboard) (bb_municipality billboard)
    else ret (Num 0) in
  let total := (packagePrice + installationPrice)%number in
  ret {| billboard := billboard;
         basePrice := packagePrice;
         dailyPrice :=
           Math_round (inject_Z packagePrice / inject_Z (po_duration packageOption));
         totalDays := po_duration packageOption;
         subtotal := packagePrice;
         installationPrice := installationPrice;
         total := total |}.

(** *** Several billboards *)

(** An optional string argument is present when it is neither [undefined]
    nor empty. *)
Definition given (s : option string) : option string :=
  match s with
  | Some text => if String.eqb text EmptyString then None else Some text
  | None => None
  end.

(** The body of the [for ... of] loop, on the billboards that remain. *)
Fixpoint forBillboards (billboards : list BillboardPricingData)
    (customerType : CustomerType) (pricingMode : PricingMode)
    (startDate : string) (endDate : option string)
    (packageOption : option PackageOption) (includeInstallation : bool)
    (calculations : list PricingCalculation) : M (list PricingCalculation) :=
  match billboards with
  | [] => ret calculations
  | billboard :: rest =>
      let* calculation :=
        match pricingMode, given endDate, packageOption with
        | daily, Some endDate', _ =>
            calculateDailyPrice billboard customerType startDate endDate'
              includeInstallation
        | package, _, Some packageOption' =>
            calculatePackagePrice billboard customerType packageOption'
              includeInstallation
        | _, _, _ => throw "معاملات الحساب غير صحيحة"
        end in
      forBillboards rest customerType pricingMode startDate endDate
        packageOption includeInstallation (calculations ++ [calculation])
  end.

Definition calculateMultipleBillboards (billboards : list BillboardPricingData)
    (customerType : CustomerType) (pricingMode : PricingMode)
    (startDate : string) (endDate : option string)
    (packageOption : option PackageOption) (includeInstallation : bool)
    : M (list PricingCalculation) :=
  forBillboards billboards customerType pricingMode startDate endDate
    packageOption includeInstallation [].

(** *** The quote *)

(** In the package mode the end date is printed by [end.toISOString()],
    which throws a [RangeError] when [end] is no date: when the start date
    was none, or when the day reached from it is out of the range of
    dates.  Nothing in [generateQuote] catches it. *)
Definition generateQuote (customerInfo : CustomerInfo)
    (billboards : list BillboardPricingData) (pricingMode : PricingMode)
    (startDate : string) (endDate : option string)
    (packageOption : option PackageOption) (includeInstallation : bool)
    : M PricingQuote :=
  let* calculations :=
    calculateMultipleBillboards billboards (ci_customerType customerInfo)
      pricingMode startDate endDate packageOption includeInstallation in
  let subtotal := fold_left (λ sum calc, sum + subtotal calc) calculations 0 in
  let totalInstallation :=
    fold_left (λ sum calc, (sum + installationPrice calc)%number) calculations
      (Num 0) in
  let grandTotal := (subtotal + totalInstallation)%number in
  let* finalEndDate :=
    match pricingMode, packageOption with
    | package, Some packageOption' =>
        let start := Date_getTime startDate in
        let end_ :=
          if Date_valid startDate
          then timeClip (Date_addDays start (po_duration packageOption'))
          else None in
        match end_ with
        | Some time => ret (head (split "T" (Date_toISOString time)))
        | None => throw Date_invalidTime
        end
    | _, _ => ret endDate
    end in
  let* w := getWorld in
  ret {| q_id := "Q-" +:+ Number_toString (now w);
         q_customerInfo := customerInfo;
         q_pricingMode := pricingMode;
         q_startDate := startDate;
         q_endDate := finalEndDate;
         q_packageDuration := po_label <$> packageOption;
         q_billboards := calculations;
         q_subtotal := subtotal;
         q_totalInstallation := totalInstallation;
         q_grandTotal := grandTotal;
         q_currency := "د.ل";
         q_createdAt := Date_toISOString (now w);
         q_validUntil := Date_toISOString (now w + 30 * 24 * 60 * 60 * 1000) |}.

(** *** Campaign statistics *)

Definition calculateAverageDailyPrice (calculations : list PricingCalculation) : Z :=
  match calculations with
  | [] => 0
  | _ =>
      let totalDailyPrice :=
        fold_left (λ sum calc, sum + dailyPrice calc) calculations 0 in
      Math_round (inject_Z totalDailyPrice
                  / inject_Z (Z.of_nat (length calculations)))
  end.

(** [breakdown[key] = (breakdown[key] || 0) + 1].  A number counts one
    more; a string, and the value inherited under [key], is not a number,
    and [+ 1] appends the character 1 to its text. *)
Definition countUp (breakdown : gmap string value) (key : string)
    : gmap string value :=
  let next :=
    match breakdown !! key with
    | Some (VNumber n) => VNumber ((if n =? 0 then 0 else n) + 1)
    | Some (VString s) =>
        if String.eqb s EmptyString then VNumber 1 else VString (s +:+ "1")
    | Some VUndefined => VNumber 1
    | None =>
        if inherited key then VString (inheritedText key +:+ "1") else VNumber 1
    end in
  assign breakdown key next.

(** The body of [calculations.forEach]: the three breakdowns count one more
    for the size, the municipality and the level of the billboard. *)
Definition countBillboard
    (breakdowns : gmap string value * gmap string value * gmap string value)
    (calc : PricingCalculation)
    : gmap string value * gmap string value * gmap string value :=
  let '(sizeBreakdown, municipalityBreakdown, levelBreakdown) := breakdowns in
  (countUp sizeBreakdown (bb_size (billboard calc)),
   countUp municipalityBreakdown (bb_municipality (billboard calc)),
   countUp levelBreakdown (bb_level (billboard calc))).

Definition getCampaignStats (calculations : list PricingCalculation) : CampaignStats :=
  let '(sizeBreakdown, municipalityBreakdown, levelBreakdown) :=
    fold_left countBillboard calculations (∅, ∅, ∅) in
  {| totalBillboards := Z.of_nat (length calculations);
     stats_totalDays :=
       match calculations with
       | first :: _ => totalDays first
       | [] => 0
       end;
     averageDailyPrice := calculateAverageDailyPrice calculations;
     sizeBreakdown := sizeBreakdown;
     municipalityBreakdown := municipalityBreakdown;
     levelBreakdown := levelBreakdown |}.

(** *** CSV import *)

Definition priceColumns : list string :=
  [col_oneMonth; col_twoMonths; col_threeMonths; col_sixMonths; col_oneYear;
   col_oneDay].

(** The callback of [headers.forEach]: one column of one line.  The first
    two assignments are to names that the code fixes; the third is to any
    header name. *)
Definition setColumn (values : list string) (row : PricingRow)
    (header : string) (index : nat) : PricingRow :=
  let value := trim <$> values !! index in
  if String.eqb header "id"
  then <[col_id := parseInt_or value VUndefined]> row
  else if existsb (String.eqb header) priceColumns
  then <[header := parseInt_or value (VNumber 0)]> row
  else assign row header (VString (default EmptyString value)).

Fixpoint forEachHeader (headers : list string) (index : nat)
    (values : list string) (row : PricingRow) : PricingRow :=
  match headers with
  | [] => row
  | header :: rest =>
      forEachHeader rest (S index) values (setColumn values row header index)
  end.

Definition parseLine (headers : list string) (line : string) : PricingRow :=
  forEachHeader headers 0 (split "," line) ∅.

(** [row.المقاس && row.المستوى && row.الزبون] *)
Definition acceptedRow (row : PricingRow) : bool :=
  truthy (get row col_size) && truthy (get row col_level)
  && truthy (get row col_customer).

(** The [for] loop over the lines after the header. *)
Fixpoint forLines (headers : list string) (lines : list string)
    (rows : list PricingRow) : list PricingRow :=
  match lines with
  | [] => rows
  | line :: rest =>
      let row := parseLine headers line in
      forLines headers rest (if acceptedRow row then rows ++ [row] else rows)
  end.

Definition newline : ascii := "010"%char.

(** The parsing step of [updatePricingData]. *)
Definition parseCSV (csvData : string) : list PricingRow :=
  let lines := split newline (trim csvData) in
  let headers := split "," (hd EmptyString lines) in
  forLines headers (tail lines) [].

Definition updatePricingData (csvData : string) : M ImportResult :=
  tryCatch
    (let* w := getWorld in
     match supabase w with
     | None =>
         ret {| success := false; imported := 0; errors := ["Supabase غير متاح"] |}
     | Some _ =>
         let rows := parseCSV csvData in
         let* _ := deleteAll in
         let* response := insertRows rows in
         match response with
         | Error message =>
             ret {| success := false; imported := 0; errors := [message] |}
         | Data _ =>
             let* _ := clearCache in
             ret {| success := true;
                    imported := Z.of_nat (length rows);
                    errors := [] |}
         end
     end)
    (λ message, ret {| success := false; imported := 0; errors := [message] |}).

(** *** CSV export (the pricing data manager) *)

Definition exportHeaders : list string :=
  [col_size; col_level; col_customer; col_oneMonth; col_twoMonths;
   col_threeMonths; col_sixMonths; col_oneYear; col_oneDay; col_id].

Definition exportCells (row : PricingRow) : list value :=
  [ get row col_size;
    get row col_level;
    get row col_customer;
    or_else (get row col_oneMonth) (VNumber 0);
    or_else (get row col_twoMonths) (VNumber 0);
    or_else (get row col_threeMonths) (VNumber 0);
    or_else (get row col_sixMonths) (VNumber 0);
    or_else (get row col_oneYear) (VNumber 0);
    or_else (get row col_oneDay) (VNumber 0);
    or_else (get row col_id) (VString EmptyString) ].

(** The text that [exportToCSV] puts in the downloaded file. *)
Definition exportToCSV (pricingData : list PricingRow) : string :=
  join (String newline EmptyString)
    (join "," exportHeaders
     :: ((λ row, join "," (toJoinString <$> exportCells row)) <$> pricingData)).

End Service.

(** ** A host for the examples: ISO dates in UTC

    [new Date("YYYY-MM-DD")] is midnight UTC of that day; in UTC a day has
    86400000 ms, and [toISOString] prints [YYYY-MM-DDTHH:mm:ss.sssZ]. *)

Module UTC.

(** Days from 1970-01-01 to the given day of the proleptic Gregorian
    calendar, and back. *)
Definition daysFromCivil (y m d : Z) : Z :=
  let y' := if m <=? 2 then y - 1 else y in
  let era := y' / 400 in
  let yoe := y' - era * 400 in
  let mp := (m + 9) mod 12 in
  let doy := (153 * mp + 2) / 5 + d - 1 in
  let doe := yoe * 365 + yoe / 4 - yoe / 100 + doy in
  era * 146097 + doe - 719468.

Definition civilFromDays (days : Z) : Z * Z * Z :=
  let z := days + 719468 in
  let era := z / 146097 in
  let doe := z - era * 146097 in
  let yoe := (doe - doe / 1460 + doe / 36524 - doe / 146096) / 365 in
  let doy := doe - (365 * yoe + yoe / 4 - yoe / 100) in
  let mp := (5 * doy + 2) / 153 in
  let d := doy - (153 * mp + 2) / 5 + 1 in
  let m := if mp <? 10 then mp + 3 else mp - 9 in
  (if m <=? 2 then yoe + era * 400 + 1 else yoe + era * 400, m, d).

Definition msPerDay : Z := 86400000.

Definition number (s : string) : Z := default 0 (readDigits 10 s None).

Definition getTime (date : string) : Z :=
  match split "-" date with
  | [y; m; d] => daysFromCivil (number y) (number m) (number d) * msPerDay
  | _ => 0
  end.

(** Whether every character is a decimal digit. *)
Fixpoint allDigits (s : string) : bool :=
  match s with
  | EmptyString => true
  | String a rest =>
      match digitValue a with
      | Some d => (d <? 10) && allDigits rest
      | None => false
      end
  end.

Definition daysInMonth (y m : Z) : Z :=
  if m =? 2
  then if (y mod 4 =? 0) && (negb (y mod 100 =? 0) || (y mod 400 =? 0))
       then 29 else 28
  else if (m =? 4) || (m =? 6) || (m =? 9) || (m =? 11) then 30 else 31.

(** The date strings of the examples: [YYYY-MM-DD] for a day of the
    calendar.  Other strings count as no date. *)
Definition valid (date : string) : bool :=
  match split "-" date with
  | [y; m; d] =>
      (String.length y =? 4)%nat && (String.length m =? 2)%nat
      && (String.length d =? 2)%nat
      && allDigits y && allDigits m && allDigits d
      && (1 <=? number m) && (number m <=? 12)
      && (1 <=? number d) && (number d <=? daysInMonth (number y) (number m))
  | _ => false
  end.

(** A numeral in at least [width] digits. *)
Definition pad (width : nat) (text : string) : string :=
  Nat.iter (width - String.length text) (String "0") text.

Definition toISOString (t : Z) : string :=
  let '(y, m, d) := civilFromDays (t / msPerDay) in
  let ms := t mod msPerDay in
  pad 4 (Number_toString y) +:+ "-" +:+ pad 2 (Number_toString m) +:+ "-"
  +:+ pad 2 (Number_toString d) +:+ "T"
  +:+ pad 2 (Number_toString (ms / 3600000)) +:+ ":"
  +:+ pad 2 (Number_toString (ms / 60000 mod 60)) +:+ ":"
  +:+ pad 2 (Number_toString (ms / 1000 mod 60)) +:+ "."
  +:+ pad 3 (Number_toString (ms mod 1000)) +:+ "Z".

#[global] Instance host : JSDate := {|
  Date_getTime := getTime;
  Date_valid := valid;
  Date_addDays := λ t n, t + n * msPerDay;
  Date_toISOString := toISOString;
  Date_invalidTime := "Invalid time value"
|}.

End UTC.

(** ** Notions the properties are stated with *)

(** [m] run in [w] returns [a] and leaves [w']. *)
Definition returns {A : Type} (m : M A) (w : World) (a : A) (w' : World) : Prop :=
  m w = (Returned a, w').

(** Runs the monad's operations in a goal. *)
Ltac run_M :=
  cbv beta iota zeta delta
    [returns bind ret throw tryCatch getWorld setLocalStorage setBackend].

(** The three keys of a row are exactly the ones asked for. *)
Definition exactMatch (size : string) (level : PriceListType)
    (customerType : CustomerType) (row : PricingRow) : Prop :=
  row !! col_size = Some (VString size)
  ∧ row !! col_level = Some (VString level)
  ∧ row !! col_customer = Some (VString (customerTypeText customerType)).

(** [x] is at position [i] the first element of [l] with property [P]. *)
Definition firstAt {A : Type} (P : A → Prop) (l : list A) (i : nat) (x : A) : Prop :=
  l !! i = Some x ∧ P x ∧ ∀ j y, (j < i)%nat → l !! j = Some y → ¬ P y.

(** The sum of [f] over a list: Σ. *)
Definition sumOf {A : Type} (f : A → Z) (l : list A) : Z :=
  foldr (λ x acc, f x + acc) 0 l.

(** The sum of [f] over a list in the arithmetic of [number]. *)
Definition sumNumber {A : Type} (f : A → number) (l : list A) : number :=
  foldr (λ x acc, (f x + acc)%number) (Num 0) l.

(** The mode has the argument it needs: an end date for the daily mode, a
    package for the package mode. *)
Definition validCombination (pricingMode : PricingMode) (endDate : option string)
    (packageOption : option PackageOption) : Prop :=
  match pricingMode with
  | daily => given endDate ≠ None
  | package => packageOption ≠ None
  end.

(** How often [key] occurs in [keys]. *)
Definition occurrences (key : string) (keys : list string) : Z :=
  Z.of_nat (length (filter (λ k, k = key) keys)).

(** [breakdown] counts the occurrences in [keys]: every key that occurs is
    mapped to its number of occurrences, and no other key is present. *)
Definition countsOf (keys : list string) (breakdown : gmap string value) : Prop :=
  ∀ key, breakdown !! key
         = if decide (key ∈ keys) then Some (VNumber (occurrences key keys))
           else None.

(** The count that a property of a breakdown holds, when it holds one. *)
Definition countOf (v : value) : option Z :=
  match v with
  | VNumber n => Some n
  | _ => None
  end.

(** The sum of the counts stored in a breakdown. *)
Definition sumCounts (breakdown : gmap string value) : Z :=
  map_fold (λ _ v acc, default 0 (countOf v) + acc) 0 breakdown.

(** No key of the list is the name of a property that objects inherit. *)
Definition ownNames (keys : list string) : Prop :=
  Forall (λ key, inherited key = false) keys.

(** What the import stores under a header, from the trimmed cell of the
    line in that column ([None] when the line has no such cell): an
    identifier, which zero and NaN leave undefined; a price, which NaN
    turns into 0; or the text as it is. *)
Definition columnValue (header : string) (cell : option string) : value :=
  if decide (header = col_id) then
    match parseInt cell with
    | Some n => if decide (n = 0) then VUndefined else VNumber n
    | None => VUndefined
    end
  else if decide (header ∈ priceColumns) then VNumber (default 0 (parseInt cell))
  else VString (default EmptyString cell).

(** A property that holds a string that is not empty. *)
Definition nonEmptyText (v : value) : Prop :=
  ∃ s, v = VString s ∧ s ≠ EmptyString.

(** [c] occurs in [s]. *)
Fixpoint contains (c : ascii) (s : string) : bool :=
  match s with
  | EmptyString => false
  | String a rest => Ascii.eqb a c || contains c rest
  end.

(** The last character of a string. *)
Fixpoint lastChar (s : string) : option ascii :=
  match s with
  | EmptyString => None
  | String a EmptyString => Some a
  | String _ rest => lastChar rest
  end.

(** The bytes that white space can start with, and end with. *)
Definition startsSpace (a : ascii) : bool :=
  let n := N_of_ascii a in
  (ws1 a || (n =? 194) || (n =? 225) || (n =? 226) || (n =? 227) || (n =? 239))%N.

Definition endsSpace (a : ascii) : bool :=
  let n := N_of_ascii a in
  (ws1 a || (n =? 160) || (128 <=? n) && (n <=? 138) || (n =? 168) || (n =? 169)
   || (n =? 175) || (n =? 159) || (n =? 191))%N.

(** Every character of [s] passes the test [f]. *)
Fixpoint allChars (f : ascii → bool) (s : string) : bool :=
  match s with
  | EmptyString => true
  | String a rest => f a && allChars f rest
  end.

Definition isDigit (a : ascii) : bool :=
  let n := N_of_ascii a in ((48 <=? n) && (n <=? 57))%N.

(** The characters of a decimal numeral. *)
Definition numeralChar (a : ascii) : bool := isDigit a || Ascii.eqb a "-".

(** A text that survives the CSV format: it is not empty, has no white
    space around it, and holds neither a comma nor a line break. *)
Definition plainText (s : string) : Prop :=
  s ≠ EmptyString ∧ trim s = s ∧ contains "," s = false
  ∧ contains newline s = false.

(** The price of a row under a key, an absent price counting as 0. *)
Definition priceOf (row : PricingRow) (key : string) : Z :=
  match get row key with
  | VNumber n => n
  | _ => 0
  end.

Definition numberOrAbsent (v : value) : Prop := v = VUndefined ∨ ∃ n, v = VNumber n.

(** A row as [PricingRow] types it, with keys that survive the CSV format. *)
Definition exportable (row : PricingRow) : Prop :=
  (∃ s, get row col_size = VString s ∧ plainText s)
  ∧ (∃ s, get row col_level = VString s ∧ plainText s)
  ∧ (∃ s, get row col_customer = VString s ∧ plainText s)
  ∧ (∀ key, key ∈ priceColumns → numberOrAbsent (get row key))
  ∧ numberOrAbsent (get row col_id).

(** ** Sample inputs *)

(** A browser with an empty cache and no backend client: prices come from
    the fallback data. *)
Definition sampleWorld : World :=
  {| now := 1700000000000; localStorage := None; supabase := None |}.

Definition sampleBillboard : BillboardPricingData :=
  {| bb_id := "B-1"; bb_name := "Airport road"; bb_size := "13x5";
     bb_municipality := "طرابلس"; bb_level := "A"; bb_status := "متاح";
     bb_location := "Tripoli"; bb_imageUrl := None |}.

Definition sampleCustomer : CustomerInfo :=
  {| ci_name := "Customer"; ci_email := "customer@example.com";
     ci_phone := "0910000000"; ci_company := None; ci_customerType := Regular |}.

(** The one-month package of [getPackageOptions]. *)
Definition oneMonthPackage : PackageOption :=
  {| po_key := col_oneMonth; po_label := col_oneMonth; po_duration := 30 |}.

(** A row of the table with the given size and level. *)
Definition sampleRow (size level : string) : PricingRow :=
  {[ col_id := VNumber 7; col_size := VString size; col_level := VString level;
     col_customer := VString "عادي"; col_oneMonth := VNumber 24000;
     col_oneDay := VNumber 800 ]}.

(** A calculation for the sample billboard, without installation. *)
Definition sampleCalculation (days price : Z) : PricingCalculation :=
  {| billboard := sampleBillboard; basePrice := price; dailyPrice := price;
     totalDays := days; subtotal := price * days; installationPrice := Num 0;
     total := Num (price * days) |}.

(** A calculation for a billboard whose size and municipality are names of
    properties that every object inherits. *)
Definition inheritedNamesCalculation : PricingCalculation :=
  {| billboard :=
       {| bb_id := "B-2"; bb_name := "Coast road"; bb_size := "constructor";
          bb_municipality := "__proto__"; bb_level := "A"; bb_status := "متاح";
          bb_location := "Misrata"; bb_imageUrl := None |};
     basePrice := 800; dailyPrice := 800; totalDays := 7; subtotal := 5600;
     installationPrice := Num 0; total := Num 5600 |}.

(** The value a method returned, if it returned. *)
Definition outcomeValue {A : Type} (o : Outcome A) : option A :=
  match o with
  | Returned a => Some a
  | Thrown _ => None
  end.


(** ** The environment between two calls *)

(** The same world when the clock reads [t]. *)
Definition atTime (t : Z) (w : World) : World :=
  {| now := t; localStorage := localStorage w; supabase := supabase w |}.

(** Two tables read the same: they hold, row by row, the same value under
    every key, a property left out reading as [undefined]. *)
Definition sameReadings (rows rows' : list PricingRow) : Prop :=
  Forall2 (λ row row' : PricingRow, ∀ key, get row key = get row' key) rows rows'.

(** ** The pricing data manager: cell editing *)

Module Manager.

(** The state of the component that the editing handlers use. *)
Record State : Type := {
  pricingData : list PricingRow;
  editingCell : option string;
  editingValue : string;
  error : string;
  success : string
}.

(** [showNotification('success', message)]; the timer that clears the
    message later is not modelled. *)
Definition showSuccess (message : string) (s : State) : State :=
  {| pricingData := pricingData s; editingCell := editingCell s;
     editingValue := editingValue s; error := EmptyString; success := message |}.

(** [r.id === rowId] for a number [rowId] that may be NaN ([None]). *)
Definition hasId (rowId : option Z) (r : PricingRow) : bool :=
  match rowId, get r col_id with
  | Some n, VNumber m => n =? m
  | _, _ => false
  end.

Definition startEdit (rowId : Z) (column : string) (s : State) : State :=
  match List.find (hasId (Some rowId)) (pricingData s) with
  | None => s
  | Some row =>
      let cellKey := Number_toString rowId +:+ "-" +:+ column in
      {| pricingData := pricingData s;
         editingCell := Some cellKey;
         editingValue :=
           toJoinString (or_else (get row column) (VString EmptyString));
         error := error s; success := success s |}
  end.

(** The [onChange] of the input of the cell. *)
Definition setEditingValue (text : string) (s : State) : State :=
  {| pricingData := pricingData s; editingCell := editingCell s;
     editingValue := text; error := error s; success := success s |}.

Definition saveEdit (s : State) : State :=
  match given (editingCell s) with
  | None => s
  | Some cell =>
      let parts := split "-" cell in
      let rowIdStr := hd EmptyString parts in
      let column := default "undefined" (parts !! 1%nat) in
      let rowId := parseInt (Some rowIdStr) in
      let newValue := parseInt_or (Some (editingValue s)) (VNumber 0) in
      let updatedData :=
        (λ row : PricingRow,
           if hasId rowId row then <[column := newValue]> row else row)
          <$> pricingData s in
      showSuccess "تم تحديث السعر بنجاح"
        {| pricingData := updatedData; editingCell := None;
           editingValue := EmptyString; error := error s; success := success s |}
  end.

Definition cancelEdit (s : State) : State :=
  {| pricingData := pricingData s; editingCell := None;
     editingValue := EmptyString; error := error s; success := success s |}.

End Manager.

(** ** The pricing calculator: the handlers around the service *)

Module Calculator.

Record State : Type := {
  pricingMode : PricingMode;
  customerType : CustomerType;
  startDate : string;
  endDate : string;
  selectedPackage : option PackageOption;
  includeInstallation : bool;
  customerName : string;
  customerEmail : string;
  customerPhone : string;
  customerCompany : string;
  billboards : list BillboardPricingData;
  calculations : list PricingCalculation;
  loading : bool;
  error : string;
  generatedQuote : option PricingQuote
}.

Definition setLoading (b : bool) (s : State) : State :=
  {| pricingMode := pricingMode s; customerType := customerType s;
     startDate := startDate s; endDate := endDate s;
     selectedPackage := selectedPackage s;
     includeInstallation := includeInstallation s;
     customerName := customerName s; customerEmail := customerEmail s;
     customerPhone := customerPhone s; customerCompany := customerCompany s;
     billboards := billboards s; calculations := calculations s;
     loading := b; error := error s; generatedQuote := generatedQuote s |}.

Definition setError (message : string) (s : State) : State :=
  {| pricingMode := pricingMode s; customerType := customerType s;
     startDate := startDate s; endDate := endDate s;
     selectedPackage := selectedPackage s;
     includeInstallation := includeInstallation s;
     customerName := customerName s; customerEmail := customerEmail s;
     customerPhone := customerPhone s; customerCompany := customerCompany s;
     billboards := billboards s; calculations := calculations s;
     loading := loading s; error := message; generatedQuote := generatedQuote s |}.

Definition setCalculations (calcs : list PricingCalculation) (s : State) : State :=
  {| pricingMode := pricingMode s; customerType := customerType s;
     startDate := startDate s; endDate := endDate s;
     selectedPackage := selectedPackage s;
     includeInstallation := includeInstallation s;
     customerName := customerName s; customerEmail := customerEmail s;
     customerPhone := customerPhone s; customerCompany := customerCompany s;
     billboards := billboards s; calculations := calcs;
     loading := loading s; error := error s; generatedQuote := generatedQuote s |}.

Definition setBillboards (bs : list BillboardPricingData) (s : State) : State :=
  {| pricingMode := pricingMode s; customerType := customerType s;
     startDate := startDate s; endDate := endDate s;
     selectedPackage := selectedPackage s;
     includeInstallation := includeInstallation s;
     customerName := customerName s; customerEmail := customerEmail s;
     customerPhone := customerPhone s; customerCompany := customerCompany s;
     billboards := bs; calculations := calculations s;
     loading := loading s; error := error s; generatedQuote := generatedQuote s |}.

Definition setGeneratedQuote (quote : option PricingQuote) (s : State) : State :=
  {| pricingMode := pricingMode s; customerType := customerType s;
     startDate := startDate s; endDate := endDate s;
     selectedPackage := selectedPackage s;
     includeInstallation := includeInstallation s;
     customerName := customerName s; customerEmail := customerEmail s;
     customerPhone := customerPhone s; customerCompany := customerCompany s;
     billboards := billboards s; calculations := calculations s;
     loading := loading s; error := error s; generatedQuote := quote |}.

Definition endDateMissing : string := "يرجى تحديد تاريخ النهاية للحساب اليومي".
Definition packageMissing : string := "يرجى اختيار باقة للحساب".
Definition calculationFailed : string := "خطأ في الحساب: ".
Definition customerMissing : string := "يرجى ملء جميع معلومات العميل".
Definition calculationsMissing : string := "لا توجد حسابات لإنشاء العرض".
Definition quoteFailed : string := "خطأ في إنشاء العرض: ".

(** An empty string is falsy. *)
Definition blank (text : string) : bool := String.eqb text EmptyString.

Section Handlers.

Context `{JSDate}.

(** [calculatePrices]: the [finally] clause runs on every path that entered
    the [try]. *)
Definition calculatePrices (s : State) : M State :=
  match billboards s with
  | [] => ret s
  | _ :: _ =>
      let s1 := setError EmptyString (setLoading true s) in
      let* s2 :=
        tryCatch
          (match pricingMode s1 with
           | daily =>
               if blank (endDate s1)
               then ret (setLoading false (setError endDateMissing s1))
               else
                 let* calcs :=
                   calculateMultipleBillboards (billboards s1) (customerType s1)
                     daily (startDate s1) (Some (endDate s1)) None
                     (includeInstallation s1) in
                 ret (setCalculations calcs s1)
           | package =>
               match selectedPackage s1 with
               | None => ret (setLoading false (setError packageMissing s1))
               | Some selected =>
                   let* calcs :=
                     calculateMultipleBillboards (billboards s1) (customerType s1)
                       package (startDate s1) None (Some selected)
                       (includeInstallation s1) in
                   ret (setCalculations calcs s1)
               end
           end)
          (λ message, ret (setError (calculationFailed +:+ message) s1)) in
      ret (setLoading false s2)
  end.

(** The [generateQuote] handler of the component. *)
Definition generateQuote (s : State) : M State :=
  if blank (customerName s) || blank (customerEmail s) || blank (customerPhone s)
  then ret (setError customerMissing s)
  else
    match calculations s with
    | [] => ret (setError calculationsMissing s)
    | _ :: _ =>
        let s1 := setLoading true s in
        let* s2 :=
          tryCatch
            (let* quote :=
               generateQuote
                 {| ci_name := customerName s1; ci_email := customerEmail s1;
                    ci_phone := customerPhone s1;
                    ci_company := Some (customerCompany s1);
                    ci_customerType := customerType s1 |}
                 (billboards s1) (pricingMode s1) (startDate s1)
                 (Some (endDate s1)) (selectedPackage s1)
                 (includeInstallation s1) in
             ret (setError EmptyString (setGeneratedQuote (Some quote) s1)))
            (λ message, ret (setError (quoteFailed +:+ message) s1)) in
        ret (setLoading false s2)
    end.

End Handlers.

Definition removeBillboard (id : string) (s : State) : State :=
  setBillboards
    (List.filter (λ b, negb (String.eqb (bb_id b) id)) (billboards s)) s.

Definition addManualBillboard (s : State) : M State :=
  let* w := getWorld in
  let newBillboard :=
    {| bb_id := "manual-" +:+ Number_toString (now w);
       bb_name := "لوحة يدوية"; bb_size := "5x13"; bb_municipality := "مصراتة";
       bb_level := "A"; bb_status := "متاح"; bb_location := "موقع يدوي";
       bb_imageUrl := None |} in
  ret (setBillboards (billboards s ++ [newBillboard]) s).

(** What [getTotalSummary] returns. *)
Record Summary : Type := {
  sum_subtotal : Z;
  sum_totalInstallation : number;
  sum_grandTotal : number;
  sum_averageDaily : Z;
  sum_stats : CampaignStats
}.

Definition getTotalSummary (s : State) : Summary :=
  let subtotal := fold_left (λ sum calc, sum + subtotal calc) (calculations s) 0 in
  let totalInstallation :=
    fold_left (λ sum calc, (sum + installationPrice calc)%number)
      (calculations s) (Num 0) in
  let grandTotal := (subtotal + totalInstallation)%number in
  let averageDaily := calculateAverageDailyPrice (calculations s) in
  let stats := getCampaignStats (calculations s) in
  {| sum_subtotal := subtotal; sum_totalInstallation := totalInstallation;
     sum_grandTotal := grandTotal; sum_averageDaily := averageDaily;
     sum_stats := stats |}.

End Calculator.

(** ** Notions for the properties of the cache and of repeated calls *)

(** The table the cache holds when its entry is younger than the cache
    duration. *)
Definition freshCache (w : World) : option (list PricingRow) :=
  match localStorage w with
  | Some cached =>
      if decide (now w - cache_timestamp cached ≤ CACHE_DURATION)
      then Some (cache_data cached)
      else None
  | None => None
  end.

(** A world that loading the table leaves as it is. *)
Definition settled (w : World) : Prop :=
  ∃ rows, returns getAllPricingData w rows w.

(** The price a table gives: the number under [pricingKey] in the first
    row with the three keys, 0 without such a row or such a number. *)
Definition resolve (size : string) (level : PriceListType)
    (customerType : CustomerType) (pricingKey : string)
    (pricingData : list PricingRow) : Z :=
  match List.find (rowMatches size level customerType) pricingData with
  | Some row => priceOf row pricingKey
  | None => 0
  end.

(** A backend that answers every request, holding [rows]. *)
Definition workingBackend (rows : list PricingRow) : Backend :=
  {| table := rows; onSelect := Works; onDelete := Works; onInsert := Works |}.

(** A browser with an empty cache in front of a working backend. *)
Definition onlineWorld (rows : list PricingRow) : World :=
  {| now := 1700000000000; localStorage := None;
     supabase := Some (workingBackend rows) |}.

(** ** Notions for the properties of a batch *)

(** The installation fee of a size in a municipality: the rounded product
    of base and multiplier, and NaN when one of the two names a property
    that the tables inherit. *)
Definition installationFee (size municipality : string) : number :=
  match tableEntry (λ p, p =? 0) installationPrices size 500,
        tableEntry (λ m, Qeq_bool m 0) municipalityMultipliers municipality 1%Q
  with
  | Some base, Some multiplier => Num (Math_round (inject_Z base * multiplier))
  | _, _ => NaN
  end.

(** The column a mode reads its price from. *)
Definition priceKey (pricingMode : PricingMode)
    (packageOption : option PackageOption) : string :=
  match pricingMode, packageOption with
  | package, Some packageOption' => po_key packageOption'
  | _, _ => col_oneDay
  end.

(** The line of a billboard once its price is known. *)
Definition lineFor `{JSDate} (pricingMode : PricingMode) (startDate : string)
    (endDate : option string) (packageOption : option PackageOption)
    (includeInstallation : bool) (b : BillboardPricingData) (price : Z)
    : PricingCalculation :=
  let fee :=
    if includeInstallation
    then installationFee (bb_size b) (bb_municipality b)
    else Num 0 in
  match pricingMode, packageOption with
  | package, Some packageOption' =>
      {| billboard := b; basePrice := price;
         dailyPrice :=
           Math_round (inject_Z price / inject_Z (po_duration packageOption'));
         totalDays := po_duration packageOption'; subtotal := price;
         installationPrice := fee; total := (price + fee)%number |}
  | _, _ =>
      let days :=
        Math_ceil
          (inject_Z (Date_getTime (default EmptyString (given endDate))
                     - Date_getTime startDate)
           / inject_Z 86400000) + 1 in
      {| billboard := b; basePrice := price; dailyPrice := price;
         totalDays := days; subtotal := price * days;
         installationPrice := fee; total := (price * days + fee)%number |}
  end.

(** The lines of a batch priced from one table. *)
Definition linesFor `{JSDate} (customerType : CustomerType)
    (pricingMode : PricingMode) (startDate : string) (endDate : option string)
    (packageOption : option PackageOption) (includeInstallation : bool)
    (rows : list PricingRow) (billboards : list BillboardPricingData)
    : list PricingCalculation :=
  (λ b, lineFor pricingMode startDate endDate packageOption includeInstallation b
          (resolve (bb_size b) (bb_level b) customerType
             (priceKey pricingMode packageOption) rows)) <$> billboards.

(** ** Notions for the dates of a quote *)

(** The end date of a quote can be printed: outside the package mode no
    date is computed; in the package mode the start is a date, and so is
    the day that lies the duration of the package after it. *)
Definition quoteDatesValid `{JSDate} (pricingMode : PricingMode)
    (startDate : string) (packageOption : option PackageOption) : bool :=
  match pricingMode, packageOption with
  | package, Some packageOption' =>
      Date_valid startDate
      && match timeClip (Date_addDays (Date_getTime startDate)
                           (po_duration packageOption')) with
         | Some _ => true
         | None => false
         end
  | _, _ => true
  end.
(** ** The monad of methods *)

Lemma returns_ret {A : Type} (a : A) (w : World) : returns (ret a) w a w.
Proof. reflexivity. Qed.

Lemma returns_bind {A B : Type} (m : M A) (k : A → M B) w a w1 b w2 :
  returns m w a w1 → returns (k a) w1 b w2 → returns (bind m k) w b w2.
Proof. unfold returns, bind. intros -> Hk. exact Hk. Qed.

Lemma returns_inj {A : Type} (m : M A) w a w1 b w2 :
  returns m w a w1 → returns m w b w2 → a = b ∧ w1 = w2.
Proof. unfold returns. intros -> [= -> ->]. done. Qed.

Lemma returns_bind_inv {A B : Type} (m : M A) (k : A → M B) w b w2 :
  returns (bind m k) w b w2 → ∃ a w1, returns m w a w1 ∧ returns (k a) w1 b w2.
Proof.
  unfold returns, bind. destruct (m w) as [[a|e] w1]; [eauto|discriminate].
Qed.

(** ** Loading the table never fails *)

Lemma getCachedData_returns (w : World) :
  ∃ cached w', returns getCachedData w cached w' ∧ supabase w' = supabase w.
Proof.
  unfold getCachedData, clearCache. run_M.
  destruct (localStorage w) as [cached|]; [|eauto].
  destruct (now w - cache_timestamp cached >? CACHE_DURATION); eauto.
Qed.

Lemma getAllPricingData_returns (w : World) :
  ∃ rows w', returns getAllPricingData w rows w'.
Proof.
  destruct (getCachedData_returns w) as (cached & w1 & Hcached & Hclient).
  unfold getAllPricingData, setCachedData, selectAll. revert Hcached. run_M.
  intros ->. destruct cached as [rows|]; [eauto|].
  destruct (supabase w1) as [client|]; [|eauto].
  destruct (onSelect client); eauto.
Qed.

Lemma rowMatches_exact size level customerType (row : PricingRow) :
  rowMatches size level customerType row = true
  ↔ exactMatch size level customerType row.
Proof.
  unfold rowMatches, exactMatch, get.
  rewrite !andb_true_iff, !bool_decide_eq_true.
  split.
  - intros [[H1 H2] H3].
    destruct (row !! col_size), (row !! col_level), (row !! col_customer);
      simpl in *; try discriminate; by subst.
  - intros (-> & -> & ->). done.
Qed.

Lemma find_firstAt {A : Type} (p : A → bool) (l : list A) :
  match List.find p l with
  | Some x => ∃ i, firstAt (λ y, p y = true) l i x
  | None => ∀ y, y ∈ l → p y = false
  end.
Proof.
  induction l as [|a l IH]; simpl.
  - intros y Hy. by apply elem_of_nil in Hy.
  - destruct (p a) eqn:Hpa.
    + exists 0%nat. split; [done|]. split; [done|]. intros j y Hj. lia.
    + destruct (List.find p l) as [x|].
      * destruct IH as (i & Hi & Hp & Hfirst).
        exists (S i). split; [done|]. split; [done|].
        intros [|j] y Hj Hy; simpl in Hy.
        -- inversion Hy; subst. congruence.
        -- apply (Hfirst j y); [lia|done].
      * intros y Hy. apply elem_of_cons in Hy as [->|Hy]; auto.
Qed.

(** ** Rounding *)

Lemma Qfloor_div (a d : Z) : 0 < d → Qfloor (inject_Z a / inject_Z d) = a / d.
Proof.
  intros Hd. destruct d as [|p|p]; try lia.
  unfold Qdiv, Qinv, Qmult, inject_Z; simpl.
  rewrite Z.mul_1_r. reflexivity.
Qed.

Lemma Qceiling_div (a d : Z) : 0 < d → Qceiling (inject_Z a / inject_Z d) = - ((- a) / d).
Proof.
  intros Hd. unfold Qceiling. f_equal.
  rewrite <- (Qfloor_div (- a) d Hd).
  apply Qfloor_comp. unfold Qdiv. rewrite inject_Z_opp. ring.
Qed.

Lemma Math_ceil_bounds (a d : Z) :
  0 < d →
  (Math_ceil (inject_Z a / inject_Z d) - 1) * d < a ≤ Math_ceil (inject_Z a / inject_Z d) * d.
Proof.
  intros Hd. unfold Math_ceil. rewrite Qceiling_div by done.
  pose proof (Z.div_mod (- a) d ltac:(lia)).
  pose proof (Z.mod_pos_bound (- a) d Hd). nia.
Qed.

Lemma Math_round_div (a d : Z) :
  0 < d → Math_round (inject_Z a / inject_Z d) = (2 * a + d) / (2 * d).
Proof.
  intros Hd. unfold Math_round.
  rewrite <- (Qfloor_div (2 * a + d) (2 * d)) by lia.
  apply Qfloor_comp.
  rewrite !inject_Z_plus, !inject_Z_mult.
  assert (~ inject_Z d == 0)%Q.
  { intros E. apply (Qeq_bool_iff) in E. destruct d; try lia; discriminate. }
  field. done.
Qed.

Lemma Math_round_bounds (a d : Z) :
  0 < d →
  let r := Math_round (inject_Z a / inject_Z d) in
  2 * r * d - d ≤ 2 * a < 2 * r * d + d.
Proof.
  intros Hd r. subst r. rewrite Math_round_div by done.
  pose proof (Z.div_mod (2 * a + d) (2 * d) ltac:(lia)).
  pose proof (Z.mod_pos_bound (2 * a + d) (2 * d) ltac:(lia)). nia.
Qed.

(** ** Price resolution *)

(** What [findPriceForBillboard] computes from the table it loads. *)
Lemma findPriceForBillboard_run size level customerType pricingKey w :
  ∃ (pricingData : list PricingRow) (w' : World),
    returns getAllPricingData w pricingData w'
    ∧ returns (findPriceForBillboard size level customerType pricingKey) w
        match List.find (rowMatches size level customerType) pricingData with
        | Some row => match get row pricingKey with VNumber price => price | _ => 0 end
        | None => 0
        end w'.
Proof.
  destruct (getAllPricingData_returns w) as (pricingData & w' & Hload).
  exists pricingData, w'. split; [done|].
  unfold findPriceForBillboard. revert Hload. run_M. intros ->.
  destruct (List.find _ pricingData) as [row|]; [|done].
  by destruct (get row pricingKey).
Qed.

Lemma findPriceForBillboard_returns size level customerType pricingKey w :
  ∃ price w', returns (findPriceForBillboard size level customerType pricingKey) w price w'.
Proof.
  destruct (findPriceForBillboard_run size level customerType pricingKey w)
    as (? & w' & _ & Hp). eauto.
Qed.

(** C3. Price resolution never throws.  It returns the number stored at
    [pricingKey] in the first row of the loaded table whose size, level and
    customer type are exactly the ones asked for; it returns 0 when that
    property is missing or is not a number, and 0 when no row matches. *)
Theorem findPriceForBillboard_resolves (size : string) (level : PriceListType)
    (customerType : CustomerType) (pricingKey : string) (w : World) :
  ∃ (pricingData : list PricingRow) (w' : World) (price : Z),
    returns getAllPricingData w pricingData w'
    ∧ returns (findPriceForBillboard size level customerType pricingKey) w price w'
    ∧ ((∃ i row,
          firstAt (exactMatch size level customerType) pricingData i row
          ∧ ((∃ n, row !! pricingKey = Some (VNumber n) ∧ price = n)
             ∨ ((∀ n, row !! pricingKey ≠ Some (VNumber n)) ∧ price = 0)))
       ∨ ((∀ row, row ∈ pricingData → ¬ exactMatch size level customerType row)
          ∧ price = 0)).
Proof.
  destruct (findPriceForBillboard_run size level customerType pricingKey w)
    as (pricingData & w' & Hload & Hprice).
  pose proof (find_firstAt (rowMatches size level customerType) pricingData) as Hfind.
  exists pricingData, w'. eexists. split; [done|]. split; [exact Hprice|].
  destruct (List.find _ pricingData) as [row|].
  - destruct Hfind as (i & Hi & Hrow & Hfirst).
    left. exists i, row. split.
    + split; [done|]. split; [by apply rowMatches_exact|].
      intros j y Hj Hy Hm. apply rowMatches_exact in Hm.
      specialize (Hfirst j y Hj Hy). simpl in Hfirst. congruence.
    + unfold get. destruct (row !! pricingKey) as [[|n|s]|]; simpl;
        first [ left; by eauto | right; split; [congruence|done] ].
  - right. split; [|done]. intros row Hin Hm. apply rowMatches_exact in Hm.
    specialize (Hfind row Hin). congruence.
Qed.

(** ** Installation fee *)

Lemma installationPrices_entries :
  map_Forall (λ size p, p ≠ 0 ∧ inherited size = false) installationPrices.
Proof. apply (bool_decide_unpack _). by vm_compute. Qed.

Lemma municipalityMultipliers_entries :
  map_Forall (λ municipality m, Qeq_bool m 0 = false ∧ inherited municipality = false)
    municipalityMultipliers.
Proof. apply (bool_decide_unpack _). by vm_compute. Qed.

Lemma getInstallationPrice_run size municipality w :
  returns (getInstallationPrice size municipality) w
    match tableEntry (λ p, p =? 0) installationPrices size 500,
          tableEntry (λ m, Qeq_bool m 0) municipalityMultipliers municipality 1%Q
    with
    | Some base, Some multiplier => Num (Math_round (inject_Z base * multiplier))
    | _, _ => NaN
    end w.
Proof. reflexivity. Qed.

(** The base of a size: its entry, the default for a name the table neither
    has nor inherits, and no number for a name it inherits. *)
Lemma tableEntry_installationPrices (size : string) :
  tableEntry (λ p, p =? 0) installationPrices size 500
  = if inherited size then None
    else Some (default 500 (installationPrices !! size)).
Proof.
  unfold tableEntry.
  destruct (installationPrices !! size) as [p|] eqn:Hp; [|done].
  apply installationPrices_entries in Hp as [Hp ->]. simpl.
  by destruct (Z.eqb_spec p 0).
Qed.

Lemma tableEntry_municipalityMultipliers (municipality : string) :
  tableEntry (λ m, Qeq_bool m 0) municipalityMultipliers municipality 1%Q
  = if inherited municipality then None
    else Some (default 1%Q (municipalityMultipliers !! municipality)).
Proof.
  unfold tableEntry.
  destruct (municipalityMultipliers !! municipality) as [m|] eqn:Hm; [|done].
  apply municipalityMultipliers_entries in Hm as [Hm ->]. simpl. by rewrite Hm.
Qed.

(** C8. The installation fee at the two examples of the specification and
    at inputs at which the code departs from it.  For ['13x5'] in
    ['طرابلس'] the fee is 1650 and for a size and a city that are no names
    of anything it is 500, as specified.  But a size or a municipality that
    is not in its table and is the name of a property that every object
    inherits ([constructor], [toString], ...) is not given the default: the
    lookup finds the inherited function, the product is NaN, and the fee is
    NaN, where the specification has [round (500 × 1.1) = 550] and
    [round (1500 × 1) = 1500]. *)
Theorem getInstallationPrice_inherited_name (w : World) :
  returns (getInstallationPrice "constructor" "طرابلس") w NaN w
  ∧ returns (getInstallationPrice "13x5" "toString") w NaN w
  ∧ installationPrices !! "constructor" = None
  ∧ municipalityMultipliers !! "toString" = None
  ∧ returns (getInstallationPrice "13x5" "طرابلس") w 1650 w
  ∧ returns (getInstallationPrice "unknown-size" "unknown-city") w 500 w.
Proof. repeat split; by vm_compute. Qed.

(** ** The two calculators *)

Lemma installation_run (includeInstallation : bool) size municipality w :
  ∃ fee : number,
    returns (if includeInstallation then getInstallationPrice size municipality
             else ret (Num 0)) w fee w
    ∧ if includeInstallation
      then returns (getInstallationPrice size municipality) w fee w
      else fee = 0.
Proof.
  destruct includeInstallation.
  - eexists. split; apply getInstallationPrice_run.
  - exists (Num 0). by split.
Qed.

Lemma calculateDailyPrice_run `{JSDate} billboard customerType startDate endDate
    (includeInstallation : bool) w :
  ∃ price fee w',
    returns (findPriceForBillboard (bb_size billboard) (bb_level billboard)
               customerType col_oneDay) w price w'
    ∧ (if includeInstallation
       then returns (getInstallationPrice (bb_size billboard)
                       (bb_municipality billboard)) w' fee w'
       else fee = 0)
    ∧ returns (calculateDailyPrice billboard customerType startDate endDate
                 includeInstallation) w
        (let days :=
           Math_ceil (inject_Z (Date_getTime endDate - Date_getTime startDate)
                      / inject_Z 86400000) + 1 in
         {| billboard := billboard; basePrice := price; dailyPrice := price;
            totalDays := days; subtotal := price * days;
            installationPrice := fee; total := (price * days + fee)%number |}) w'.
Proof.
  destruct (findPriceForBillboard_returns (bb_size billboard) (bb_level billboard)
              customerType col_oneDay w) as (price & w' & Hprice).
  destruct (installation_run includeInstallation (bb_size billboard)
              (bb_municipality billboard) w') as (fee & Hfee & Hfee').
  exists price, fee, w'. split; [done|]. split; [done|].
  unfold calculateDailyPrice. eapply returns_bind; [exact Hprice|].
  eapply returns_bind; [exact Hfee|]. apply returns_ret.
Qed.

Lemma calculatePackagePrice_run billboard customerType packageOption
    (includeInstallation : bool) w :
  ∃ price fee w',
    returns (findPriceForBillboard (bb_size billboard) (bb_level billboard)
               customerType (po_key packageOption)) w price w'
    ∧ (if includeInstallation
       then returns (getInstallationPrice (bb_size billboard)
                       (bb_municipality billboard)) w' fee w'
       else fee = 0)
    ∧ returns (calculatePackagePrice billboard customerType packageOption
                 includeInstallation) w
        {| billboard := billboard; basePrice := price;
           dailyPrice :=
             Math_round (inject_Z price / inject_Z (po_duration packageOption));
           totalDays := po_duration packageOption; subtotal := price;
           installationPrice := fee; total := (price + fee)%number |} w'.
Proof.
  destruct (findPriceForBillboard_returns (bb_size billboard) (bb_level billboard)
              customerType (po_key packageOption) w) as (price & w' & Hprice).
  destruct (installation_run includeInstallation (bb_size billboard)
              (bb_municipality billboard) w') as (fee & Hfee & Hfee').
  exists price, fee, w'. split; [done|]. split; [done|].
  unfold calculatePackagePrice. eapply returns_bind; [exact Hprice|].
  eapply returns_bind; [exact Hfee|]. apply returns_ret.
Qed.

(** C1. The daily calculation always returns.  Its [totalDays] is the
    ceiling of the span from start to end in days, plus one: the least
    number of whole days that covers the span, plus one.  Its [subtotal] is
    [dailyPrice * totalDays], where [dailyPrice] is the price resolved for
    one day; its [total] is [subtotal + installationPrice], where
    [installationPrice] is the installation fee when installation is
    included and 0 otherwise.  An end equal to the start gives one day, an
    end six days after the start gives seven. *)
Theorem calculateDailyPrice_totals `{JSDate} (billboard : BillboardPricingData)
    (customerType : CustomerType) (startDate endDate : string)
    (includeInstallation : bool) (w : World) :
  ∃ (calc : PricingCalculation) (w' : World),
    returns (calculateDailyPrice billboard customerType startDate endDate
               includeInstallation) w calc w'
    ∧ returns (findPriceForBillboard (bb_size billboard) (bb_level billboard)
                 customerType col_oneDay) w (dailyPrice calc) w'
    ∧ totalDays calc
      = Math_ceil (inject_Z (Date_getTime endDate - Date_getTime startDate)
                   / inject_Z 86400000) + 1
    ∧ (totalDays calc - 2) * 86400000
      < Date_getTime endDate - Date_getTime startDate
      ≤ (totalDays calc - 1) * 86400000
    ∧ subtotal calc = dailyPrice calc * totalDays calc
    ∧ total calc = (subtotal calc + installationPrice calc)%number
    ∧ (if includeInstallation
       then returns (getInstallationPrice (bb_size billboard)
                       (bb_municipality billboard)) w' (installationPrice calc) w'
       else installationPrice calc = 0)
    ∧ (Date_getTime endDate = Date_getTime startDate → totalDays calc = 1)
    ∧ (Date_getTime endDate = Date_getTime startDate + 6 * 86400000 →
       totalDays calc = 7).
Proof.
  destruct (calculateDailyPrice_run billboard customerType startDate endDate
              includeInstallation w) as (price & fee & w' & Hprice & Hfee & Hrun).
  pose proof (Math_ceil_bounds (Date_getTime endDate - Date_getTime startDate)
                86400000 ltac:(lia)) as Hceil.
  eexists _, w'. split; [exact Hrun|]. simpl.
  split; [done|]. split; [done|]. split; [lia|]. split; [done|].
  split; [done|]. split; [done|]. split; intros Heq; lia.
Qed.

(** C2. The package calculation always returns.  Its [subtotal] is the
    price resolved for the key of the package, its [totalDays] is the
    duration of the package, its [dailyPrice] is
    [round (subtotal / duration)] (for a positive duration the integer
    nearest to the quotient, a tie going up; 800 for 24000 over 30 days)
    and its [total] is [subtotal + installationPrice]. *)
Theorem calculatePackagePrice_totals (billboard : BillboardPricingData)
    (customerType : CustomerType) (packageOption : PackageOption)
    (includeInstallation : bool) (w : World) :
  ∃ (calc : PricingCalculation) (w' : World),
    returns (calculatePackagePrice billboard customerType packageOption
               includeInstallation) w calc w'
    ∧ returns (findPriceForBillboard (bb_size billboard) (bb_level billboard)
                 customerType (po_key packageOption)) w (subtotal calc) w'
    ∧ totalDays calc = po_duration packageOption
    ∧ dailyPrice calc
      = Math_round (inject_Z (subtotal calc) / inject_Z (po_duration packageOption))
    ∧ total calc = (subtotal calc + installationPrice calc)%number
    ∧ (if includeInstallation
       then returns (getInstallationPrice (bb_size billboard)
                       (bb_municipality billboard)) w' (installationPrice calc) w'
       else installationPrice calc = 0)
    ∧ (0 < po_duration packageOption →
       2 * dailyPrice calc * po_duration packageOption - po_duration packageOption
       ≤ 2 * subtotal calc
       < 2 * dailyPrice calc * po_duration packageOption + po_duration packageOption)
    ∧ (subtotal calc = 24000 → po_duration packageOption = 30 →
       dailyPrice calc = 800).
Proof.
  destruct (calculatePackagePrice_run billboard customerType packageOption
              includeInstallation w) as (price & fee & w' & Hprice & Hfee & Hrun).
  eexists _, w'. split; [exact Hrun|]. simpl.
  split; [done|]. split; [done|]. split; [done|]. split; [done|].
  split; [done|]. split.
  - intros Hd. apply (Math_round_bounds price (po_duration packageOption) Hd).
  - intros -> ->. by vm_compute.
Qed.

(** ** Several billboards *)

Lemma forBillboards_valid `{JSDate} billboards customerType pricingMode startDate
    endDate packageOption includeInstallation :
  validCombination pricingMode endDate packageOption →
  ∀ calculations w,
    ∃ added w',
      returns (forBillboards billboards customerType pricingMode startDate endDate
                 packageOption includeInstallation calculations) w
        (calculations ++ added) w'
      ∧ billboard <$> added = billboards.
Proof.
  intros Hvalid. induction billboards as [|b rest IH]; intros calculations w.
  - exists [], w. split; [|done]. rewrite app_nil_r. apply returns_ret.
  - assert (∃ calc w1,
              returns
                (match pricingMode, given endDate, packageOption with
                 | daily, Some endDate', _ =>
                     calculateDailyPrice b customerType startDate endDate'
                       includeInstallation
                 | package, _, Some packageOption' =>
                     calculatePackagePrice b customerType packageOption'
                       includeInstallation
                 | _, _, _ => throw "معاملات الحساب غير صحيحة"
                 end) w calc w1
              ∧ billboard calc = b) as (calc & w1 & Hcalc & Hb).
    { destruct pricingMode; simpl in Hvalid.
      - destruct (given endDate) as [endDate'|]; [|done].
        destruct (calculateDailyPrice_run b customerType startDate endDate'
                    includeInstallation w) as (? & ? & w1 & _ & _ & Hrun).
        eexists _, w1. split; [|shelve]. destruct packageOption; exact Hrun.
        Unshelve. done.
      - destruct packageOption as [packageOption'|]; [|done].
        destruct (calculatePackagePrice_run b customerType packageOption'
                    includeInstallation w) as (? & ? & w1 & _ & _ & Hrun).
        eexists _, w1. split; [|shelve]. destruct (given endDate); exact Hrun.
        Unshelve. done. }
    destruct (IH (calculations ++ [calc]) w1) as (added & w' & Hrest & Hadded).
    exists (calc :: added), w'. split.
    + simpl. eapply returns_bind; [exact Hcalc|].
      rewrite <- app_assoc in Hrest. exact Hrest.
    + by rewrite fmap_cons, Hb, Hadded.
Qed.

Lemma calculateMultipleBillboards_valid `{JSDate} billboards customerType
    pricingMode startDate endDate packageOption includeInstallation w :
  validCombination pricingMode endDate packageOption →
  ∃ calculations w',
    returns (calculateMultipleBillboards billboards customerType pricingMode
               startDate endDate packageOption includeInstallation) w
      calculations w'
    ∧ billboard <$> calculations = billboards.
Proof.
  intros Hvalid.
  destruct (forBillboards_valid billboards customerType pricingMode startDate
              endDate packageOption includeInstallation Hvalid [] w)
    as (added & w' & Hrun & Hadded).
  exists added, w'. by split.
Qed.

Lemma calculateMultipleBillboards_invalid `{JSDate} billboards customerType
    pricingMode startDate endDate packageOption includeInstallation w :
  billboards ≠ [] →
  ¬ validCombination pricingMode endDate packageOption →
  calculateMultipleBillboards billboards customerType pricingMode startDate
    endDate packageOption includeInstallation w
  = (Thrown "معاملات الحساب غير صحيحة", w).
Proof.
  intros Hne Hinvalid. destruct billboards as [|b rest]; [done|].
  unfold calculateMultipleBillboards; simpl.
  destruct pricingMode; simpl in Hinvalid.
  - destruct (given endDate); [by destruct Hinvalid|].
    by destruct packageOption.
  - destruct packageOption; [by destruct Hinvalid|].
    by destruct (given endDate).
Qed.

(** C4 (amended). For a list of at least one billboard, the batch
    calculation in daily mode without an end date, or in package mode
    without a package, throws: it returns no list, partial or not, and
    leaves the world untouched.  For the empty list it returns the empty
    list, whatever the mode and its arguments.  With the argument its mode
    needs it returns, whatever the list, one calculation per billboard, in
    the order of the billboards. *)
Theorem calculateMultipleBillboards_contract `{JSDate}
    (billboards : list BillboardPricingData) (customerType : CustomerType)
    (pricingMode : PricingMode) (startDate : string) (endDate : option string)
    (packageOption : option PackageOption) (includeInstallation : bool)
    (w : World) :
  (billboards ≠ [] →
   (pricingMode = daily ∧ given endDate = None)
   ∨ (pricingMode = package ∧ packageOption = None) →
   ∃ message,
     calculateMultipleBillboards billboards customerType pricingMode startDate
       endDate packageOption includeInstallation w = (Thrown message, w))
  ∧ (billboards = [] →
     returns (calculateMultipleBillboards billboards customerType pricingMode
                startDate endDate packageOption includeInstallation) w [] w)
  ∧ ((pricingMode = daily ∧ given endDate ≠ None)
     ∨ (pricingMode = package ∧ packageOption ≠ None) →
     ∃ calculations w',
       returns (calculateMultipleBillboards billboards customerType pricingMode
                  startDate endDate packageOption includeInstallation) w
         calculations w'
       ∧ billboard <$> calculations = billboards
       ∧ length calculations = length billboards).
Proof.
  split; [|split].
  - intros Hne Hmissing. eexists.
    apply calculateMultipleBillboards_invalid; [done|].
    unfold validCombination.
    destruct Hmissing as [[-> Hm]|[-> Hm]]; intros Hn; by apply Hn.
  - intros ->. reflexivity.
  - intros Hvalid.
    destruct (calculateMultipleBillboards_valid billboards customerType pricingMode
                startDate endDate packageOption includeInstallation w)
      as (calculations & w' & Hrun & Hb).
    { unfold validCombination. by destruct Hvalid as [[-> Hm]|[-> Hm]]. }
    exists calculations, w'. split; [done|]. split; [done|].
    by rewrite <- Hb, length_fmap.
Qed.

(** ** The quote *)

Lemma fold_left_sumOf {A : Type} (f : A → Z) (l : list A) (a : Z) :
  fold_left (λ sum x, sum + f x) l a = a + sumOf f l.
Proof.
  revert a. induction l as [|x l IH]; intros a; simpl.
  - lia.
  - rewrite IH. unfold sumOf. simpl. lia.
Qed.

Lemma number_add_assoc (x y z : number) :
  (x + (y + z))%number = ((x + y) + z)%number.
Proof. destruct x, y, z; simpl; try done. by rewrite Z.add_assoc. Qed.

Lemma fold_left_sumNumber {A : Type} (f : A → number) (l : list A) (a : number) :
  fold_left (λ sum x, (sum + f x)%number) l a = (a + sumNumber f l)%number.
Proof.
  revert a. induction l as [|x l IH]; intros a; simpl.
  - destruct a; simpl; [|done]. by rewrite Z.add_0_r.
  - rewrite IH. by rewrite number_add_assoc.
Qed.

Lemma number_add_0_l (x : number) : (0 + x)%number = x.
Proof. by destruct x. Qed.

(** [generateQuote] after the batch: a quote over the calculations of the
    batch when the end date can be printed, the [RangeError] of
    [toISOString] otherwise. *)
Lemma generateQuote_run `{JSDate} customerInfo billboards pricingMode startDate
    endDate packageOption includeInstallation w calculations w' :
  returns (calculateMultipleBillboards billboards (ci_customerType customerInfo)
             pricingMode startDate endDate packageOption includeInstallation) w
    calculations w' →
  if quoteDatesValid pricingMode startDate packageOption
  then ∃ quote,
         returns (generateQuote customerInfo billboards pricingMode startDate
                    endDate packageOption includeInstallation) w quote w'
         ∧ q_billboards quote = calculations
         ∧ q_subtotal quote = sumOf subtotal calculations
         ∧ q_totalInstallation quote = sumNumber installationPrice calculations
         ∧ q_grandTotal quote
           = (sumOf subtotal calculations
              + sumNumber installationPrice calculations)%number
  else generateQuote customerInfo billboards pricingMode startDate endDate
         packageOption includeInstallation w
       = (Thrown Date_invalidTime, w').
Proof.
  intros Hbatch. unfold generateQuote, quoteDatesValid. run_M. rewrite Hbatch.
  rewrite fold_left_sumOf, fold_left_sumNumber, Z.add_0_l, number_add_0_l.
  destruct pricingMode.
  { eexists. split; [reflexivity|]. done. }
  destruct packageOption as [packageOption'|].
  2:{ eexists. split; [reflexivity|]. done. }
  destruct (Date_valid startDate); simpl.
  2:{ reflexivity. }
  destruct (timeClip _); [|reflexivity].
  eexists. split; [reflexivity|]. done.
Qed.


(** ** Campaign statistics *)

Lemma fold_left_countBillboard (calculations : list PricingCalculation)
    (sizes municipalities levels : gmap string value) :
  fold_left countBillboard calculations (sizes, municipalities, levels)
  = (fold_left countUp (bb_size ∘ billboard <$> calculations) sizes,
     fold_left countUp (bb_municipality ∘ billboard <$> calculations) municipalities,
     fold_left countUp (bb_level ∘ billboard <$> calculations) levels).
Proof.
  revert sizes municipalities levels.
  induction calculations as [|calc rest IH]; intros sizes municipalities levels.
  - done.
  - rewrite !fmap_cons. simpl. apply IH.
Qed.

Lemma occurrences_snoc (key k : string) (keys : list string) :
  occurrences key (keys ++ [k])
  = occurrences key keys + (if decide (k = key) then 1 else 0).
Proof.
  unfold occurrences. rewrite filter_app, length_app.
  rewrite (filter_cons _ k []). destruct (decide (k = key)); simpl; lia.
Qed.

Lemma occurrences_absent (key : string) (keys : list string) :
  key ∉ keys → occurrences key keys = 0.
Proof.
  intros Hnot. unfold occurrences.
  induction keys as [|k keys IH]; [done|].
  apply not_elem_of_cons in Hnot as [Hne Hnot].
  rewrite filter_cons. destruct (decide (k = key)); [congruence|]. by apply IH.
Qed.

Lemma occurrences_present (key : string) (keys : list string) :
  key ∈ keys → 1 ≤ occurrences key keys.
Proof.
  intros Hin. unfold occurrences.
  induction keys as [|k keys IH]; [by apply elem_of_nil in Hin|].
  rewrite filter_cons. destruct (decide (k = key)) as [->|Hne]; simpl; [lia|].
  apply elem_of_cons in Hin as [->|Hin]; [done|]. by apply IH.
Qed.

(** An assignment under a name that objects do not inherit sets an own
    property. *)
Lemma assign_own (obj : gmap string value) (key : string) (v : value) :
  inherited key = false → assign obj key v = <[key := v]> obj.
Proof.
  intros Hown. unfold assign. destruct (obj !! key); [done|].
  destruct (String.eqb_spec key "__proto__") as [->|]; [|done].
  by vm_compute in Hown.
Qed.

(** Counting one more under such a name, in a breakdown that holds
    numbers. *)
Lemma countUp_own (breakdown : gmap string value) (k : string) :
  inherited k = false →
  (∀ v, breakdown !! k = Some v → ∃ n, v = VNumber n ∧ 1 ≤ n) →
  countUp breakdown k
  = <[k := VNumber (default 0 (breakdown !! k ≫= countOf) + 1)]> breakdown.
Proof.
  intros Hown Hnumber. unfold countUp. rewrite assign_own by done. f_equal.
  destruct (breakdown !! k) as [v|] eqn:Hk; simpl.
  - destruct (Hnumber v eq_refl) as (n & -> & Hn). simpl.
    destruct (Z.eqb_spec n 0); [lia|done].
  - by rewrite Hown.
Qed.

Lemma countsOf_countUp (keys : list string) (breakdown : gmap string value)
    (k : string) :
  inherited k = false →
  countsOf keys breakdown → countsOf (keys ++ [k]) (countUp breakdown k).
Proof.
  intros Hown Hcounts key. rewrite countUp_own; [|done|].
  2:{ intros v. rewrite (Hcounts k).
      destruct (decide (k ∈ keys)) as [Hin|]; [|done]. intros [= <-].
      eexists. split; [done|]. by apply occurrences_present. }
  rewrite occurrences_snoc, (Hcounts k).
  destruct (decide (k = key)) as [->|Hne].
  - rewrite lookup_insert_eq.
    destruct (decide (key ∈ keys ++ [key])) as [_|Hnot].
    + do 2 f_equal. destruct (decide (key ∈ keys)) as [Hin|Hnot]; simpl.
      * done.
      * rewrite occurrences_absent by done. lia.
    + destruct Hnot. apply elem_of_app. right. by apply list_elem_of_singleton.
  - rewrite lookup_insert_ne by done. rewrite (Hcounts key).
    destruct (decide (key ∈ keys)) as [Hin|Hnot];
      destruct (decide (key ∈ keys ++ [k])) as [Hin'|Hnot'].
    + do 2 f_equal. lia.
    + destruct Hnot'. apply elem_of_app. by left.
    + apply elem_of_app in Hin' as [Hin'|Hin']; [done|].
      apply list_elem_of_singleton in Hin'. congruence.
    + done.
Qed.

Lemma fold_left_countUp_counts (keys : list string) :
  ownNames keys → countsOf keys (fold_left countUp keys ∅).
Proof.
  induction keys as [|k keys IH] using rev_ind; intros Hown.
  - intros key. simpl. rewrite lookup_empty.
    destruct (decide (key ∈ [])) as [Hin|_]; [by apply elem_of_nil in Hin|done].
  - apply Forall_app in Hown as [Hkeys Hk]. apply Forall_cons in Hk as [Hk _].
    rewrite fold_left_app. simpl. apply countsOf_countUp; [done|]. by apply IH.
Qed.

Lemma sumCounts_insert_fresh (breakdown : gmap string value) (k : string)
    (v : value) :
  breakdown !! k = None →
  sumCounts (<[k := v]> breakdown) = default 0 (countOf v) + sumCounts breakdown.
Proof.
  intros Hk. unfold sumCounts. rewrite map_fold_insert_L; [done| |done].
  intros. lia.
Qed.

Lemma sumCounts_insert_present (breakdown : gmap string value) (k : string)
    (old v : value) :
  breakdown !! k = Some old →
  sumCounts (<[k := v]> breakdown)
  = default 0 (countOf v) - default 0 (countOf old) + sumCounts breakdown.
Proof.
  intros Hk. rewrite <- (insert_delete_eq breakdown).
  rewrite sumCounts_insert_fresh by apply lookup_delete_eq.
  unfold sumCounts at 2.
  rewrite (map_fold_delete_L _ _ k old breakdown); [| |done].
  - fold (sumCounts (delete k breakdown)). lia.
  - intros. lia.
Qed.

Lemma countUp_invariant (breakdown : gmap string value) (k : string) :
  inherited k = false →
  map_Forall (λ _ v, ∃ n, v = VNumber n ∧ 1 ≤ n) breakdown →
  map_Forall (λ _ v, ∃ n, v = VNumber n ∧ 1 ≤ n) (countUp breakdown k)
  ∧ sumCounts (countUp breakdown k) = sumCounts breakdown + 1.
Proof.
  intros Hown Hpos. rewrite countUp_own; [|done|by apply Hpos].
  destruct (breakdown !! k) as [old|] eqn:Hk; simpl.
  - destruct (Hpos k old Hk) as (n & -> & Hn). simpl. split.
    + apply map_Forall_insert_2; [|done]. eexists. split; [done|]. lia.
    + rewrite (sumCounts_insert_present _ _ (VNumber n)) by done. simpl. lia.
  - split.
    + apply map_Forall_insert_2; [|done]. eexists. split; [done|]. lia.
    + rewrite sumCounts_insert_fresh by done. simpl. lia.
Qed.

Lemma fold_left_countUp_invariant (keys : list string) (breakdown : gmap string value) :
  ownNames keys →
  map_Forall (λ _ v, ∃ n, v = VNumber n ∧ 1 ≤ n) breakdown →
  map_Forall (λ _ v, ∃ n, v = VNumber n ∧ 1 ≤ n) (fold_left countUp keys breakdown)
  ∧ sumCounts (fold_left countUp keys breakdown)
    = sumCounts breakdown + Z.of_nat (length keys).
Proof.
  revert breakdown.
  induction keys as [|k keys IH]; intros breakdown Hown Hpos; simpl.
  - split; [done|lia].
  - apply Forall_cons in Hown as [Hk Hkeys].
    destruct (countUp_invariant breakdown k Hk Hpos) as [Hpos' Hsum'].
    destruct (IH _ Hkeys Hpos') as [Hall Hsum]. split; [done|]. lia.
Qed.

Lemma calculateAverageDailyPrice_nonempty (calculations : list PricingCalculation) :
  calculations ≠ [] →
  calculateAverageDailyPrice calculations
  = Math_round (inject_Z (sumOf dailyPrice calculations)
                / inject_Z (Z.of_nat (length calculations))).
Proof.
  intros Hne. unfold calculateAverageDailyPrice.
  destruct calculations as [|c rest]; [done|].
  by rewrite fold_left_sumOf, Z.add_0_l.
Qed.

(** C9. The campaign statistics at an input at which the code departs from
    the specification: one calculation, for a billboard of size
    [constructor] in the municipality [__proto__].  [totalBillboards] is 1,
    and the breakdown by level counts the level once, as specified.  But the
    breakdown by size does not count the size: under [constructor] it holds
    a string, the text of the function that every object inherits under
    that name with the character 1 appended; and the breakdown by
    municipality is empty, the assignment under [__proto__] storing
    nothing. *)
Theorem getCampaignStats_inherited_name :
  let stats := getCampaignStats [inheritedNamesCalculation] in
  totalBillboards stats = 1
  ∧ levelBreakdown stats !! "A" = Some (VNumber 1)
  ∧ sizeBreakdown stats !! "constructor"
    = Some (VString "function Object() { [native code] }1")
  ∧ sizeBreakdown stats !! "constructor" ≠ Some (VNumber 1)
  ∧ municipalityBreakdown stats !! "__proto__" = None
  ∧ municipalityBreakdown stats = ∅.
Proof. repeat split; by vm_compute. Qed.

(** C10. The breakdowns at the same input: the counts stored in the
    breakdown by municipality add up to 0 and those in the breakdown by
    size, which stores a text and no count, add up to 0 as well, while
    [totalBillboards] is 1.  It is the defect of C9: [(breakdown[key] || 0)
    + 1] under a key that is the name of an inherited property. *)
Theorem getCampaignStats_breakdowns_inherited_name :
  let stats := getCampaignStats [inheritedNamesCalculation] in
  totalBillboards stats = 1
  ∧ sumCounts (municipalityBreakdown stats) = 0
  ∧ sumCounts (sizeBreakdown stats) = 0
  ∧ (sizeBreakdown stats !! "constructor" ≫= countOf) = None
  ∧ sumCounts (levelBreakdown stats) = 1.
Proof. repeat split; by vm_compute. Qed.

(** X25. The campaign statistics of calculations whose sizes,
    municipalities and levels are not names of properties that every object
    inherits: [totalBillboards] is the length of the list; the three
    breakdowns count the occurrences of each size, municipality and level;
    for the empty list [totalDays] and [averageDailyPrice] are 0 and the
    three breakdowns are empty; otherwise [totalDays] is the day count of
    the first item and [averageDailyPrice] is [round (Σ dailyPrice /
    length)], the integer nearest to the mean, a tie going up. *)
Theorem getCampaignStats_counts (calculations : list PricingCalculation) :
  ownNames (bb_size ∘ billboard <$> calculations) →
  ownNames (bb_municipality ∘ billboard <$> calculations) →
  ownNames (bb_level ∘ billboard <$> calculations) →
  let stats := getCampaignStats calculations in
  let n := Z.of_nat (length calculations) in
  totalBillboards stats = n
  ∧ countsOf (bb_size ∘ billboard <$> calculations) (sizeBreakdown stats)
  ∧ countsOf (bb_municipality ∘ billboard <$> calculations)
      (municipalityBreakdown stats)
  ∧ countsOf (bb_level ∘ billboard <$> calculations) (levelBreakdown stats)
  ∧ match calculations with
    | [] =>
        stats_totalDays stats = 0
        ∧ averageDailyPrice stats = 0
        ∧ sizeBreakdown stats = ∅
        ∧ municipalityBreakdown stats = ∅
        ∧ levelBreakdown stats = ∅
    | first :: _ =>
        stats_totalDays stats = totalDays first
        ∧ averageDailyPrice stats
          = Math_round (inject_Z (sumOf dailyPrice calculations) / inject_Z n)
        ∧ 2 * averageDailyPrice stats * n - n
          ≤ 2 * sumOf dailyPrice calculations
          < 2 * averageDailyPrice stats * n + n
    end.
Proof.
  intros Hsizes Hmunicipalities Hlevels stats n. subst stats.
  unfold getCampaignStats.
  rewrite fold_left_countBillboard. simpl.
  split; [done|]. split; [by apply fold_left_countUp_counts|].
  split; [by apply fold_left_countUp_counts|].
  split; [by apply fold_left_countUp_counts|].
  destruct calculations as [|first rest]; [done|].
  set (calculations := first :: rest) in *. split; [done|].
  assert (0 < n) as Hn by (subst n calculations; simpl length; lia).
  rewrite calculateAverageDailyPrice_nonempty by done.
  split; [done|]. apply (Math_round_bounds _ n Hn).
Qed.

(** X26. For calculations whose sizes, municipalities and levels are not
    names of properties that every object inherits, every property of a
    breakdown holds a count of at least 1, and the counts of a breakdown
    add up to [totalBillboards], the length of the list. *)
Theorem getCampaignStats_positive (calculations : list PricingCalculation) :
  ownNames (bb_size ∘ billboard <$> calculations) →
  ownNames (bb_municipality ∘ billboard <$> calculations) →
  ownNames (bb_level ∘ billboard <$> calculations) →
  let stats := getCampaignStats calculations in
  totalBillboards stats = Z.of_nat (length calculations)
  ∧ (map_Forall (λ _ v, ∃ count, v = VNumber count ∧ 1 ≤ count) (sizeBreakdown stats)
     ∧ sumCounts (sizeBreakdown stats) = totalBillboards stats)
  ∧ (map_Forall (λ _ v, ∃ count, v = VNumber count ∧ 1 ≤ count)
       (municipalityBreakdown stats)
     ∧ sumCounts (municipalityBreakdown stats) = totalBillboards stats)
  ∧ (map_Forall (λ _ v, ∃ count, v = VNumber count ∧ 1 ≤ count)
       (levelBreakdown stats)
     ∧ sumCounts (levelBreakdown stats) = totalBillboards stats).
Proof.
  intros Hsizes Hmunicipalities Hlevels stats. subst stats.
  unfold getCampaignStats.
  rewrite fold_left_countBillboard. simpl.
  split; [done|].
  assert (∀ keys : list string,
            ownNames keys →
            length keys = length calculations →
            map_Forall (λ _ v, ∃ count, v = VNumber count ∧ 1 ≤ count)
              (fold_left countUp keys ∅)
            ∧ sumCounts (fold_left countUp keys ∅)
              = Z.of_nat (length calculations)) as Hkeys.
  { intros keys Hown Hlen.
    destruct (fold_left_countUp_invariant keys ∅ Hown) as [Hall Hsum].
    { apply map_Forall_empty. }
    split; [done|]. rewrite Hsum, Hlen. unfold sumCounts.
    by rewrite map_fold_empty. }
  repeat split; apply Hkeys; first [done | by rewrite length_fmap].
Qed.

(** ** CSV import *)

Lemma existsb_eqb_elem (header : string) (names : list string) :
  existsb (String.eqb header) names = true ↔ header ∈ names.
Proof.
  rewrite existsb_exists. split.
  - intros (name & Hin & Heq). apply String.eqb_eq in Heq as <-.
    by apply list_elem_of_In.
  - intros Hin. exists header. split; [by apply list_elem_of_In|].
    apply String.eqb_refl.
Qed.

(** The name under which no column is stored. *)
Lemma setColumn_insert (values : list string) (row : PricingRow)
    (header : string) (index : nat) :
  header ≠ "__proto__" →
  setColumn values row header index
  = <[header := columnValue header (trim <$> values !! index)]> row.
Proof.
  intros Hproto. unfold setColumn, columnValue, parseInt_or, col_id.
  destruct (String.eqb_spec header "id") as [->|Hid].
  - rewrite decide_True by done.
    destruct (parseInt _) as [n|]; [|done].
    destruct (Z.eqb_spec n 0); [by rewrite decide_True|by rewrite decide_False].
  - rewrite decide_False by done.
    destruct (existsb (String.eqb header) priceColumns) eqn:Hprice.
    + apply existsb_eqb_elem in Hprice. rewrite decide_True by done.
      destruct (parseInt _) as [n|]; [|done].
      by destruct (Z.eqb_spec n 0) as [->|].
    + rewrite decide_False.
      * unfold assign. destruct (row !! header); [done|].
        by destruct (String.eqb_spec header "__proto__").
      * intros Hin. apply existsb_eqb_elem in Hin. congruence.
Qed.

Lemma setColumn_proto (values : list string) (row : PricingRow) (index : nat) :
  row !! "__proto__" = None → setColumn values row "__proto__" index = row.
Proof. intros Hrow. unfold setColumn, assign. simpl. by rewrite Hrow. Qed.

Lemma setColumn_lookup (values : list string) (row : PricingRow)
    (header : string) (index : nat) (name : string) :
  header ≠ "__proto__" →
  setColumn values row header index !! name
  = if decide (name = header)
    then Some (columnValue header (trim <$> values !! index))
    else row !! name.
Proof.
  intros Hproto. rewrite setColumn_insert by done.
  destruct (decide (name = header)) as [->|Hne].
  - apply lookup_insert_eq.
  - by apply lookup_insert_ne.
Qed.

Lemma setColumn_other (values : list string) (row : PricingRow)
    (header : string) (index : nat) (name : string) :
  name ≠ header → setColumn values row header index !! name = row !! name.
Proof.
  intros Hne. destruct (decide (header = "__proto__")) as [->|Hproto].
  - unfold setColumn, assign. simpl.
    destruct (row !! "__proto__"); [|done]. by rewrite lookup_insert_ne.
  - rewrite setColumn_lookup by done. by rewrite decide_False.
Qed.

(** What a column leaves under a name: what was there, or its own value. *)
Lemma setColumn_cases (values : list string) (row : PricingRow)
    (header : string) (index : nat) (name : string) (v : value) :
  setColumn values row header index !! name = Some v →
  row !! name = Some v
  ∨ (name = header ∧ v = columnValue header (trim <$> values !! index)).
Proof.
  destruct (decide (name = header)) as [->|Hne].
  - destruct (decide (header = "__proto__")) as [->|Hproto].
    + unfold setColumn, assign. simpl.
      destruct (row !! "__proto__") eqn:Hrow.
      * rewrite lookup_insert_eq. intros [= <-]. right. done.
      * rewrite Hrow. done.
    + rewrite setColumn_lookup, decide_True by done. intros [= <-]. by right.
  - rewrite setColumn_other by done. by left.
Qed.

Lemma forEachHeader_absent (headers : list string) (index : nat)
    (values : list string) (row : PricingRow) (name : string) :
  name ∉ headers → forEachHeader headers index values row !! name = row !! name.
Proof.
  revert index row. induction headers as [|header rest IH]; intros index row Hnot.
  - done.
  - apply not_elem_of_cons in Hnot as [Hne Hnot]. simpl.
    rewrite IH by done. by apply setColumn_other.
Qed.

(** Nothing is stored under [__proto__], whatever the header. *)
Lemma forEachHeader_proto (headers : list string) (index : nat)
    (values : list string) (row : PricingRow) :
  row !! "__proto__" = None →
  forEachHeader headers index values row !! "__proto__" = None.
Proof.
  revert index row. induction headers as [|header rest IH]; intros index row Hrow.
  - done.
  - simpl. apply IH. destruct (decide (header = "__proto__")) as [->|Hne].
    + by rewrite setColumn_proto.
    + by rewrite setColumn_other.
Qed.

Lemma forEachHeader_last (headers : list string) (index : nat)
    (values : list string) (row : PricingRow) (i : nat) (header : string) :
  header ≠ "__proto__" →
  headers !! i = Some header →
  (∀ j, (i < j)%nat → headers !! j ≠ Some header) →
  forEachHeader headers index values row !! header
  = Some (columnValue header (trim <$> values !! (index + i)%nat)).
Proof.
  intros Hproto. revert index row i.
  induction headers as [|h rest IH]; intros index row i Hi Hlast; [done|].
  destruct i as [|i]; simpl in *.
  - inversion Hi; subst h. rewrite forEachHeader_absent.
    + rewrite setColumn_lookup, decide_True by done. by rewrite Nat.add_0_r.
    + intros Hin. apply list_elem_of_lookup in Hin as [j Hj].
      apply (Hlast (S j)); [lia|done].
  - rewrite (IH (S index) _ i Hi).
    + by rewrite Nat.add_succ_r.
    + intros j Hj. apply (Hlast (S j)). lia.
Qed.

Lemma forLines_filter (headers lines : list string) (rows : list PricingRow) :
  forLines headers lines rows
  = rows ++ filter (λ row, acceptedRow row = true) (parseLine headers <$> lines).
Proof.
  revert rows. induction lines as [|line rest IH]; intros rows.
  - by rewrite app_nil_r.
  - rewrite fmap_cons, filter_cons. simpl forLines. rewrite IH.
    destruct (acceptedRow (parseLine headers line)) eqn:Hacc.
    + rewrite decide_True by done. by rewrite <- app_assoc.
    + rewrite decide_False by done. done.
Qed.

(** A column that is neither the identifier nor a price holds text. *)
Lemma forEachHeader_text (headers : list string) (index : nat)
    (values : list string) (row : PricingRow) (name : string) :
  name ≠ col_id → name ∉ priceColumns →
  (∀ v, row !! name = Some v → ∃ s, v = VString s) →
  ∀ v, forEachHeader headers index values row !! name = Some v → ∃ s, v = VString s.
Proof.
  intros Hid Hprice. revert index row.
  induction headers as [|h rest IH]; intros index row Hrow v; simpl; [by auto|].
  apply IH. intros v' Hv'.
  apply setColumn_cases in Hv' as [Hv'|[<- ->]]; [by eauto|].
  unfold columnValue.
  rewrite decide_False by done. rewrite decide_False by done. eauto.
Qed.

Lemma truthy_text (row : PricingRow) (name : string) :
  (∀ v, row !! name = Some v → ∃ s, v = VString s) →
  truthy (get row name) = true ↔ nonEmptyText (get row name).
Proof.
  intros Htext. unfold get, nonEmptyText.
  destruct (row !! name) as [v|] eqn:Hv; simpl.
  - destruct (Htext v eq_refl) as [s ->]. simpl.
    destruct (String.eqb_spec s EmptyString) as [->|Hne]; simpl.
    + split; [done|]. intros (s & [= <-] & Hs). done.
    + split; [|done]. intros _. by exists s.
  - split; [done|]. intros (s & Hs & _). done.
Qed.

Lemma acceptedRow_parseLine (headers : list string) (line : string) :
  let row := parseLine headers line in
  acceptedRow row = true
  ↔ nonEmptyText (get row col_size) ∧ nonEmptyText (get row col_level)
    ∧ nonEmptyText (get row col_customer).
Proof.
  intros row. unfold acceptedRow. rewrite !andb_true_iff.
  assert (∀ name, name ≠ col_id → name ∉ priceColumns →
                  truthy (get row name) = true ↔ nonEmptyText (get row name)) as Htext.
  { intros name Hid Hprice. apply truthy_text.
    apply forEachHeader_text; [done|done|]. intros v. by rewrite lookup_empty. }
  rewrite !Htext; [tauto|..];
    first [ done | apply (bool_decide_unpack _); by vm_compute ].
Qed.

(** C6 (amended). The rows the import accepts are, in order, the parsed data
    lines whose [المقاس], [المستوى] and [الزبون] properties hold a text that
    is not empty; a line that fails the test is left out and the lines after
    it are still parsed.  In the row parsed from a line, a column named in
    the header, a column named [__proto__] apart, holds, from the trimmed
    cell of the line in the last column of that name: for [id], the integer
    [parseInt] reads, and [undefined] when the cell is absent, not a number
    or zero; for a duration-price column, the integer [parseInt] reads, and
    0 when the cell is absent or not a number; for any other column, the
    trimmed cell as a string, the empty string when absent.  A name the
    header lacks is not a property of the row. *)
Theorem parseCSV_accepts_and_coerces (csvData : string) :
  let lines := split newline (trim csvData) in
  let headers := split "," (hd EmptyString lines) in
  parseCSV csvData
  = filter (λ row, acceptedRow row = true) (parseLine headers <$> tail lines)
  ∧ ∀ line : string,
      let row := parseLine headers line in
      let cells := split "," line in
      (acceptedRow row = true
       ↔ nonEmptyText (get row col_size) ∧ nonEmptyText (get row col_level)
         ∧ nonEmptyText (get row col_customer))
      ∧ (∀ i header,
           headers !! i = Some header →
           (∀ j, (i < j)%nat → headers !! j ≠ Some header) →
           header ≠ "__proto__" →
           row !! header = Some (columnValue header (trim <$> cells !! i)))
      ∧ (∀ name, name ∉ headers → row !! name = None).
Proof.
  intros lines headers. split.
  - unfold parseCSV. fold lines. fold headers. by rewrite forLines_filter.
  - intros line row cells. split; [apply acceptedRow_parseLine|]. split.
    + intros i header Hi Hlast Hproto. subst row. unfold parseLine.
      by rewrite (forEachHeader_last headers 0 _ _ i header Hproto Hi Hlast).
    + intros name Hnot. subst row. unfold parseLine.
      by rewrite forEachHeader_absent.
Qed.

(** C6, as stated, fails: a line whose [id] cell is the integer 0 is
    accepted with no [id], and under a header that names no price column
    the accepted row has no price property at all. *)
Lemma parseCSV_zero_id_and_missing_price :
  (λ row : PricingRow, (row !! col_id, row !! col_oneDay))
    <$> parseCSV ("المقاس,المستوى,الزبون,id" +:+ String newline "13x5,A,عادي,0")
  = [(Some VUndefined, None)]
  ∧ parseInt (Some "0") = Some 0.
Proof. split; by vm_compute. Qed.

(** ** Strings: splitting, trimming, numerals *)

Lemma append_String (a : ascii) (r x : string) :
  String a r +:+ x = String a (r +:+ x).
Proof. reflexivity. Qed.

Lemma append_empty_r (s : string) : s +:+ EmptyString = s.
Proof. induction s as [|a s IH]; [done|]. by rewrite append_String, IH. Qed.

Lemma append_assoc (s t u : string) : (s +:+ t) +:+ u = s +:+ (t +:+ u).
Proof. induction s as [|a s IH]; [done|]. by rewrite !append_String, IH. Qed.

Lemma contains_append (c : ascii) (s t : string) :
  contains c (s +:+ t) = contains c s || contains c t.
Proof.
  induction s as [|a s IH]; [done|].
  rewrite append_String. simpl. by rewrite IH, orb_assoc.
Qed.

Lemma split_without (c : ascii) (s : string) :
  contains c s = false → split c s = [s].
Proof.
  induction s as [|a s IH]; [done|]. simpl.
  intros [Ha Hs]%orb_false_elim. rewrite Ha, (IH Hs). done.
Qed.

Lemma split_append (c : ascii) (s t : string) :
  contains c s = false → split c (s +:+ String c t) = s :: split c t.
Proof.
  induction s as [|a s IH]; intros Hs.
  - change (EmptyString +:+ String c t) with (String c t). simpl.
    by rewrite Ascii.eqb_refl.
  - simpl in Hs. apply orb_false_elim in Hs as [Ha Hs].
    rewrite append_String. simpl. by rewrite Ha, (IH Hs).
Qed.

Lemma join_cons (sep p : string) (rest : list string) :
  join sep (p :: rest)
  = match rest with [] => p | _ :: _ => p +:+ sep +:+ join sep rest end.
Proof. by destruct rest. Qed.

Lemma split_join (c : ascii) (parts : list string) :
  parts ≠ [] →
  Forall (λ p, contains c p = false) parts →
  split c (join (String c EmptyString) parts) = parts.
Proof.
  induction parts as [|p rest IH]; [done|]. intros _ Hparts.
  apply Forall_cons in Hparts as [Hp Hrest]. rewrite join_cons.
  destruct rest as [|q rest]; [by apply split_without|].
  change (String c EmptyString +:+ ?x) with (String c x).
  rewrite split_append by done. by rewrite IH.
Qed.

Lemma contains_join (c : ascii) (sep : string) (parts : list string) :
  contains c sep = false →
  Forall (λ p, contains c p = false) parts →
  contains c (join sep parts) = false.
Proof.
  intros Hsep. induction parts as [|p rest IH]; [done|]. intros Hparts.
  apply Forall_cons in Hparts as [Hp Hrest]. rewrite join_cons.
  destruct rest as [|q rest]; [done|].
  by rewrite !contains_append, Hp, Hsep, IH.
Qed.

(** *** Reversal *)

Lemma rev_app_involutive (s acc acc' : string) :
  String.rev_app (String.rev_app s acc) acc' = String.rev_app acc (s +:+ acc').
Proof.
  revert acc acc'. induction s as [|a s IH]; intros acc acc'; [done|].
  simpl. by rewrite IH.
Qed.

Lemma rev_involutive (s : string) : String.rev (String.rev s) = s.
Proof. unfold String.rev. rewrite rev_app_involutive. simpl. apply append_empty_r. Qed.

Lemma rev_app_append (s t acc : string) :
  String.rev_app (s +:+ t) acc = String.rev_app t (String.rev_app s acc).
Proof.
  revert acc. induction s as [|a s IH]; intros acc; [done|].
  rewrite append_String. simpl. apply IH.
Qed.

Lemma rev_snoc (s : string) (a : ascii) :
  String.rev (s +:+ String a EmptyString) = String a (String.rev s).
Proof. unfold String.rev. by rewrite rev_app_append. Qed.

(** *** Trimming *)

Lemma dropSpace_keep (p2 : ascii → ascii → bool) (p3 : ascii → ascii → ascii → bool)
    (a : ascii) (r : string) :
  ws1 a = false → (∀ b, p2 a b = false) → (∀ b c, p3 a b c = false) →
  dropSpace p2 p3 (String a r) = String a r.
Proof.
  intros H1 H2 H3. simpl. rewrite H1.
  destruct r as [|b [|c r]]; [done|by rewrite H2|by rewrite H2, H3].
Qed.

Lemma startsSpace_false (a : ascii) :
  startsSpace a = false →
  ws1 a = false ∧ (∀ b, ws2 a b = false) ∧ (∀ b c, ws3 a b c = false).
Proof.
  unfold startsSpace, ws2, ws3. cbv zeta. intros H.
  do 5 (apply orb_false_elim in H as [H ?]).
  split; [done|]. split; intros; repeat match goal with
    | E : (_ =? _)%N = false |- _ => rewrite E; clear E
    end; done.
Qed.

Lemma endsSpace_false (a : ascii) :
  endsSpace a = false →
  ws1 a = false ∧ (∀ b, ws2 b a = false) ∧ (∀ b c, ws3 c b a = false).
Proof.
  unfold endsSpace, ws2, ws3. cbv zeta. intros H.
  do 7 (apply orb_false_elim in H as [H ?]).
  repeat match goal with
         | E : (_ =? _)%N = false |- _ => apply N.eqb_neq in E
         end.
  match goal with
  | E : (_ <=? _)%N && _ = false |- _ =>
      apply andb_false_iff in E; rewrite !N.leb_gt in E
  end.
  split; [done|]. split; intros;
    repeat match goal with
           | |- context [(N_of_ascii a =? ?k)%N] =>
               destruct (N.eqb_spec (N_of_ascii a) k); [lia|]
           | |- context [(?k <=? N_of_ascii a)%N] =>
               destruct (N.leb_spec k (N_of_ascii a))
           | |- context [(N_of_ascii a <=? ?k)%N] =>
               destruct (N.leb_spec (N_of_ascii a) k)
           end;
    rewrite ?andb_false_r, ?orb_false_r; try done; lia.
Qed.

Lemma trimStart_keep (a : ascii) (r : string) :
  startsSpace a = false → trimStart (String a r) = String a r.
Proof.
  intros (H1 & H2 & H3)%startsSpace_false. by apply dropSpace_keep.
Qed.

Lemma lastChar_snoc (s : string) (a : ascii) :
  lastChar s = Some a → ∃ p, s = p +:+ String a EmptyString.
Proof.
  induction s as [|b s IH]; [done|]. simpl.
  destruct s as [|c s].
  - intros [= ->]. by exists EmptyString.
  - intros Hlast. destruct (IH Hlast) as [p Hp]. exists (String b p).
    by rewrite append_String, <- Hp.
Qed.

Lemma lastChar_append (s t : string) :
  t ≠ EmptyString → lastChar (s +:+ t) = lastChar t.
Proof.
  intros Ht. induction s as [|a s IH]; [done|].
  rewrite append_String. simpl. rewrite IH.
  destruct (s +:+ t) eqn:Hst; [|done].
  destruct s; [by destruct t|done].
Qed.

Lemma trimEnd_keep (s : string) (a : ascii) :
  lastChar s = Some a → endsSpace a = false → trimEnd s = s.
Proof.
  intros [p ->]%lastChar_snoc (H1 & H2 & H3)%endsSpace_false.
  unfold trimEnd. rewrite rev_snoc, dropSpace_keep by done.
  by rewrite <- rev_snoc, rev_involutive.
Qed.

Lemma trim_keep (a : ascii) (r : string) (z : ascii) :
  startsSpace a = false → lastChar (String a r) = Some z → endsSpace z = false →
  trim (String a r) = String a r.
Proof.
  intros Ha Hlast Hz. unfold trim. rewrite trimStart_keep by done.
  by apply (trimEnd_keep _ z).
Qed.

(** *** Numerals *)

Lemma digitChar_cases (f : ascii → bool) :
  forallb f ["0"; "1"; "2"; "3"; "4"; "5"; "6"; "7"; "8"; "9"]%char = true →
  ∀ d, 0 ≤ d < 10 → f (digitChar d) = true.
Proof.
  intros Hall d Hd. simpl in Hall. rewrite !andb_true_iff in Hall.
  assert (d = 0 ∨ d = 1 ∨ d = 2 ∨ d = 3 ∨ d = 4 ∨ d = 5 ∨ d = 6 ∨ d = 7
          ∨ d = 8 ∨ d = 9) as Hcases by lia.
  repeat destruct Hcases as [->|Hcases]; try subst d; tauto.
Qed.

Lemma digitValue_digitChar (d : Z) : 0 ≤ d < 10 → digitValue (digitChar d) = Some d.
Proof.
  intros Hd.
  assert (d = 0 ∨ d = 1 ∨ d = 2 ∨ d = 3 ∨ d = 4 ∨ d = 5 ∨ d = 6 ∨ d = 7
          ∨ d = 8 ∨ d = 9) as Hcases by lia.
  repeat destruct Hcases as [->|Hcases]; try subst d; reflexivity.
Qed.

Lemma allChars_impl (f g : ascii → bool) (s : string) :
  (∀ a, f a = true → g a = true) → allChars f s = true → allChars g s = true.
Proof.
  intros Himpl. induction s as [|a s IH]; [done|]. simpl.
  rewrite !andb_true_iff. intros [Ha Hs]. auto.
Qed.

Lemma allChars_contains (f : ascii → bool) (c : ascii) (s : string) :
  f c = false → allChars f s = true → contains c s = false.
Proof.
  intros Hc. induction s as [|a s IH]; [done|]. simpl.
  rewrite andb_true_iff. intros [Ha Hs]. rewrite (IH Hs), orb_false_r.
  destruct (Ascii.eqb_spec a c) as [->|]; [congruence|done].
Qed.

Lemma digitsOf_chars (fuel : nat) (n : Z) (acc : string) :
  allChars isDigit acc = true → allChars isDigit (digitsOf fuel n acc) = true.
Proof.
  revert n acc. induction fuel as [|fuel IH]; intros n acc Hacc.
  - simpl. rewrite Hacc, andb_true_r.
    apply digitChar_cases; [done|]. apply Z.mod_pos_bound. lia.
  - assert (allChars isDigit (String (digitChar (n mod 10)) acc) = true) as Hacc'.
    { simpl. rewrite Hacc, andb_true_r.
      apply digitChar_cases; [done|]. apply Z.mod_pos_bound. lia. }
    simpl. destruct (n <? 10); [exact Hacc'|]. by apply IH.
Qed.

Lemma digitsOf_last (fuel : nat) (n : Z) (acc : string) :
  ∃ p, digitsOf fuel n acc = p +:+ String (digitChar (n mod 10)) acc.
Proof.
  revert n acc. induction fuel as [|fuel IH]; intros n acc.
  - by exists EmptyString.
  - simpl. destruct (n <? 10); [by exists EmptyString|].
    destruct (IH (n / 10) (String (digitChar (n mod 10)) acc)) as [p Hp].
    exists (p +:+ String (digitChar (n / 10 mod 10)) EmptyString).
    by rewrite Hp, append_assoc.
Qed.

Lemma readDigits_digitsOf (fuel : nat) (n : Z) (rest : string) :
  0 ≤ n < 10 ^ Z.of_nat (S fuel) →
  ∃ k : nat, ∀ acc,
    readDigits 10 (digitsOf fuel n rest) acc
    = readDigits 10 rest (Some (default 0 acc * 10 ^ Z.of_nat k + n)).
Proof.
  revert n rest. induction fuel as [|fuel IH]; intros n rest Hn.
  - exists 1%nat. intros acc. change (10 ^ Z.of_nat 1) with 10 in *.
    simpl. rewrite Z.mod_small by lia.
    rewrite digitValue_digitChar by lia.
    destruct (Z.ltb_spec n 10); [done|lia].
  - simpl digitsOf. destruct (Z.ltb_spec n 10) as [Hsmall|Hbig].
    + exists 1%nat. intros acc. change (10 ^ Z.of_nat 1) with 10.
      simpl. rewrite Z.mod_small by lia.
      rewrite digitValue_digitChar by lia.
      destruct (Z.ltb_spec n 10); [done|lia].
    + destruct (IH (n / 10) (String (digitChar (n mod 10)) rest)) as [k Hk].
      { split; [apply Z.div_pos; lia|].
        apply Z.div_lt_upper_bound; [lia|].
        rewrite (Nat2Z.inj_succ (S fuel)), Z.pow_succ_r in Hn by lia. lia. }
      exists (S k). intros acc. rewrite Hk. simpl readDigits.
      pose proof (Z.mod_pos_bound n 10 ltac:(lia)) as Hmod.
      rewrite digitValue_digitChar by done.
      destruct (Z.ltb_spec (n mod 10) 10); [|lia].
      do 2 f_equal. simpl default.
      rewrite Nat2Z.inj_succ, Z.pow_succ_r by lia.
      pose proof (Z.div_mod n 10 ltac:(lia)). lia.
Qed.

Lemma fuel_enough (n : Z) :
  0 ≤ n → n < 10 ^ Z.of_nat (S (Z.to_nat (Z.log2 n))).
Proof.
  intros Hn. pose proof (Z.log2_nonneg n) as Hlog.
  rewrite Nat2Z.inj_succ, Z2Nat.id by done.
  destruct (Z.eq_dec n 0) as [->|Hpos]; [done|].
  pose proof (Z.log2_spec n ltac:(lia)) as [_ Hupper].
  eapply Z.lt_le_trans; [exact Hupper|].
  apply Z.pow_le_mono_l. lia.
Qed.

Lemma readDigits_numeral (n : Z) :
  0 ≤ n →
  readDigits 10 (digitsOf (Z.to_nat (Z.log2 n)) n EmptyString) None = Some n.
Proof.
  intros Hn.
  destruct (readDigits_digitsOf (Z.to_nat (Z.log2 n)) n EmptyString) as [k Hk].
  { split; [done|]. by apply fuel_enough. }
  rewrite Hk. simpl. done.
Qed.

Lemma digitsOf_first (fuel : nat) (n : Z) (acc : string) :
  ∃ a r, digitsOf fuel n acc = String a r ∧ isDigit a = true.
Proof.
  revert n acc. induction fuel as [|fuel IH]; intros n acc.
  - eexists _, _. split; [done|].
    apply digitChar_cases; [done|]. apply Z.mod_pos_bound. lia.
  - simpl. destruct (n <? 10); [|by apply IH].
    eexists _, _. split; [done|].
    apply digitChar_cases; [done|]. apply Z.mod_pos_bound. lia.
Qed.

Lemma isDigit_properties (a : ascii) :
  isDigit a = true →
  startsSpace a = false ∧ endsSpace a = false ∧ numeralChar a = true
  ∧ Ascii.eqb a "-" = false ∧ Ascii.eqb a "+" = false
  ∧ Ascii.eqb a "x" = false ∧ Ascii.eqb a "X" = false.
Proof.
  destruct a as [[] [] [] [] [] [] [] []]; vm_compute; intros; try discriminate;
    repeat split.
Qed.

Lemma numeralChar_properties (a : ascii) :
  numeralChar a = true →
  startsSpace a = false ∧ Ascii.eqb a "," = false ∧ Ascii.eqb a newline = false.
Proof.
  destruct a as [[] [] [] [] [] [] [] []]; vm_compute; intros; try discriminate;
    repeat split.
Qed.

Lemma Number_toString_chars (n : Z) :
  allChars numeralChar (Number_toString n) = true.
Proof.
  unfold Number_toString.
  assert (∀ m, allChars numeralChar
                 (digitsOf (Z.to_nat (Z.log2 m)) m EmptyString) = true) as Hdigits.
  { intros m. apply (allChars_impl isDigit); [|by apply digitsOf_chars].
    intros a Ha. by apply isDigit_properties in Ha as (_ & _ & ? & _). }
  destruct (n <? 0); [|done]. simpl. apply Hdigits.
Qed.

Lemma Number_toString_without (c : ascii) (n : Z) :
  numeralChar c = false → contains c (Number_toString n) = false.
Proof.
  intros Hc. apply (allChars_contains numeralChar); [done|].
  apply Number_toString_chars.
Qed.

Lemma trim_digits (fuel : nat) (n : Z) :
  trim (digitsOf fuel n EmptyString) = digitsOf fuel n EmptyString.
Proof.
  destruct (digitsOf_first fuel n EmptyString) as (a & r & Heq & Ha).
  destruct (digitsOf_last fuel n EmptyString) as [p Hlast].
  apply isDigit_properties in Ha as (Hstart & _).
  rewrite Heq. apply (trim_keep a r (digitChar (n mod 10))); [done| |].
  - rewrite <- Heq, Hlast. by rewrite lastChar_append.
  - assert (isDigit (digitChar (n mod 10)) = true) as Hd.
    { apply digitChar_cases; [done|]. apply Z.mod_pos_bound. lia. }
    by apply isDigit_properties in Hd as (_ & ? & _).
Qed.

Lemma trim_Number_toString (n : Z) : trim (Number_toString n) = Number_toString n.
Proof.
  unfold Number_toString. destruct (n <? 0); [|apply trim_digits].
  set (digits := digitsOf _ _ _).
  destruct (digitsOf_last (Z.to_nat (Z.log2 (- n))) (- n) EmptyString) as [p Hlast].
  fold digits in Hlast.
  apply (trim_keep "-" digits (digitChar (- n mod 10))); [done| |].
  - rewrite Hlast. change (String "-" (p +:+ ?x)) with (String "-" p +:+ x).
    by rewrite lastChar_append.
  - assert (isDigit (digitChar (- n mod 10)) = true) as Hd.
    { apply digitChar_cases; [done|]. apply Z.mod_pos_bound. lia. }
    by apply isDigit_properties in Hd as (_ & ? & _).
Qed.

Lemma radix_of_digits (s : string) :
  allChars isDigit s = true →
  match s with
  | String a (String b r) =>
      if Ascii.eqb a "0" && (Ascii.eqb b "x" || Ascii.eqb b "X")
      then (16, r)
      else (10, s)
  | _ => (10, s)
  end = (10, s).
Proof.
  destruct s as [|a [|b r]]; [done|done|]. simpl.
  rewrite !andb_true_iff. intros (_ & Hb & _).
  apply isDigit_properties in Hb as (_ & _ & _ & _ & _ & -> & ->).
  by rewrite andb_false_r.
Qed.

Lemma parseInt_digits (n : Z) :
  0 ≤ n →
  ∀ sign,
    (let '(radix, s) :=
       match digitsOf (Z.to_nat (Z.log2 n)) n EmptyString with
       | String a (String b r) =>
           if Ascii.eqb a "0" && (Ascii.eqb b "x" || Ascii.eqb b "X")
           then (16, r)
           else (10, digitsOf (Z.to_nat (Z.log2 n)) n EmptyString)
       | _ => (10, digitsOf (Z.to_nat (Z.log2 n)) n EmptyString)
       end in
     match readDigits radix s None with
     | Some m => Some (sign * m)
     | None => None
     end) = Some (sign * n).
Proof.
  intros Hn sign.
  rewrite (radix_of_digits (digitsOf (Z.to_nat (Z.log2 n)) n EmptyString))
    by (by apply digitsOf_chars).
  by rewrite readDigits_numeral.
Qed.

Lemma parseInt_Number_toString (n : Z) : parseInt (Some (Number_toString n)) = Some n.
Proof.
  unfold parseInt. simpl default.
  assert (trimStart (Number_toString n) = Number_toString n) as ->.
  { pose proof (Number_toString_chars n) as Hchars.
    destruct (Number_toString n) as [|a r]; [done|].
    simpl in Hchars. apply andb_true_iff in Hchars as [Ha _].
    apply numeralChar_properties in Ha as (Ha & _). by apply trimStart_keep. }
  unfold Number_toString. destruct (Z.ltb_spec n 0) as [Hneg|Hpos].
  - rewrite Ascii.eqb_refl.
    rewrite (parseInt_digits (- n)) by lia. f_equal. lia.
  - destruct (digitsOf_first (Z.to_nat (Z.log2 n)) n EmptyString)
      as (a & r & Heq & Ha).
    apply isDigit_properties in Ha as (_ & _ & _ & Hminus & Hplus & _).
    pose proof (parseInt_digits n Hpos 1) as Hparse.
    rewrite Heq in *. rewrite Hminus, Hplus, Hparse. f_equal. lia.
Qed.

(** ** Export, then import *)

Lemma price_cell (v : value) :
  numberOrAbsent v →
  toJoinString (or_else v (VNumber 0))
  = Number_toString match v with VNumber n => n | _ => 0 end.
Proof.
  intros [->|[n ->]]; [done|]. unfold or_else. simpl.
  by destruct (Z.eqb_spec n 0) as [->|].
Qed.

Lemma id_cell (v : value) :
  numberOrAbsent v →
  toJoinString (or_else v (VString EmptyString)) = EmptyString
  ∨ ∃ n, toJoinString (or_else v (VString EmptyString)) = Number_toString n.
Proof.
  intros [->|[n ->]]; [by left|]. unfold or_else. simpl.
  destruct (Z.eqb_spec n 0); [by left|right; by exists n].
Qed.

(** The cells of an exportable row, as text. *)
Lemma exportCells_text (row : PricingRow) :
  exportable row →
  ∃ size level customer idText,
    get row col_size = VString size ∧ plainText size
    ∧ get row col_level = VString level ∧ plainText level
    ∧ get row col_customer = VString customer ∧ plainText customer
    ∧ (idText = EmptyString ∨ ∃ n, idText = Number_toString n)
    ∧ toJoinString <$> exportCells row
      = [ size; level; customer;
          Number_toString (priceOf row col_oneMonth);
          Number_toString (priceOf row col_twoMonths);
          Number_toString (priceOf row col_threeMonths);
          Number_toString (priceOf row col_sixMonths);
          Number_toString (priceOf row col_oneYear);
          Number_toString (priceOf row col_oneDay);
          idText ].
Proof.
  intros ((size & Hsize & Hs) & (level & Hlevel & Hl) & (customer & Hcustomer & Hc)
          & Hprices & Hid).
  exists size, level, customer, (toJoinString (or_else (get row col_id) (VString EmptyString))).
  split; [done|]. split; [done|]. split; [done|]. split; [done|].
  split; [done|]. split; [done|]. split; [by apply id_cell|].
  unfold exportCells. rewrite Hsize, Hlevel, Hcustomer.
  assert (∀ key, key ∈ priceColumns →
            toJoinString (or_else (get row key) (VNumber 0))
            = Number_toString (priceOf row key)) as Hcell.
  { intros key Hkey. by rewrite price_cell by auto. }
  cbn [fmap list_fmap toJoinString].
  rewrite !Hcell by (apply (bool_decide_unpack _); by vm_compute). done.
Qed.

Lemma cell_without (c : ascii) (cells : list string) :
  numeralChar c = false →
  Forall (λ cell, contains c cell = false ∨ cell = EmptyString
                  ∨ ∃ n, cell = Number_toString n) cells →
  Forall (λ cell, contains c cell = false) cells.
Proof.
  intros Hc Hcells. eapply Forall_impl; [exact Hcells|].
  intros cell [H|[->|[n ->]]]; [done|done|].
  by apply Number_toString_without.
Qed.

Lemma exportLine_without (c : ascii) (row : PricingRow) :
  exportable row → (c = "," ∨ c = newline)%char →
  Forall (λ cell, contains c cell = false) (toJoinString <$> exportCells row).
Proof.
  intros Hrow Hc.
  destruct (exportCells_text row Hrow)
    as (size & level & customer & idText & _ & Hs & _ & Hl & _ & Hcu & Hid & ->).
  destruct Hs as (_ & _ & Hs1 & Hs2), Hl as (_ & _ & Hl1 & Hl2),
    Hcu as (_ & _ & Hc1 & Hc2).
  apply cell_without; [by destruct Hc as [->| ->]|].
  repeat apply Forall_cons_2; try apply Forall_nil_2;
    first [ left; by destruct Hc as [->| ->] | right; right; by eexists | idtac ].
  destruct Hid as [->|[n ->]]; [right; by left|right; right; by eexists].
Qed.

Lemma exportHeaders_last (i : nat) (key : string) :
  exportHeaders !! i = Some key →
  ∀ j, (i < j)%nat → exportHeaders !! j ≠ Some key.
Proof.
  intros Hi j Hij Hj.
  assert (NoDup exportHeaders) as Hnodup by (apply (bool_decide_unpack _); by vm_compute).
  pose proof (NoDup_lookup _ _ _ _ Hnodup Hi Hj). lia.
Qed.

Lemma exportHeaders_stored (i : nat) (key : string) :
  exportHeaders !! i = Some key → key ≠ "__proto__".
Proof.
  intros Hi ->. apply list_elem_of_lookup_2 in Hi. revert Hi.
  apply (bool_decide_unpack _). by vm_compute.
Qed.

Lemma columnValue_price (key : string) (n : Z) :
  key ∈ priceColumns →
  columnValue key (Some (trim (Number_toString n))) = VNumber n.
Proof.
  intros Hkey. unfold columnValue.
  rewrite decide_False, decide_True by
    first [ done | intros ->; revert Hkey; apply (bool_decide_unpack _); by vm_compute ].
  by rewrite trim_Number_toString, parseInt_Number_toString.
Qed.

Lemma columnValue_text (key text : string) :
  key ≠ col_id → key ∉ priceColumns → trim text = text →
  columnValue key (Some (trim text)) = VString text.
Proof.
  intros Hid Hprice Htrim. unfold columnValue.
  rewrite !decide_False by done. simpl. by rewrite Htrim.
Qed.

(** One line of the export, parsed back under the header of the export. *)
Lemma parseLine_exportLine (row : PricingRow) :
  exportable row →
  let row' := parseLine exportHeaders (join "," (toJoinString <$> exportCells row)) in
  get row' col_size = get row col_size
  ∧ get row' col_level = get row col_level
  ∧ get row' col_customer = get row col_customer
  ∧ (∀ key, key ∈ priceColumns → get row' key = VNumber (priceOf row key))
  ∧ acceptedRow row' = true.
Proof.
  intros Hrow row'.
  assert (split "," (join "," (toJoinString <$> exportCells row))
          = toJoinString <$> exportCells row) as Hsplit.
  { apply (split_join ","); [done|]. apply exportLine_without; auto. }
  destruct (exportCells_text row Hrow)
    as (size & level & customer & idText & Hsize & Hs & Hlevel & Hl & Hcustomer
        & Hcu & Hid & Hcells).
  assert (∀ i key, exportHeaders !! i = Some key →
            row' !! key
            = Some (columnValue key (trim <$> (toJoinString <$> exportCells row) !! i)))
    as Hlookup.
  { intros i key Hi. subst row'. unfold parseLine. rewrite Hsplit.
    by rewrite (forEachHeader_last exportHeaders 0 _ _ i key
                  (exportHeaders_stored i key Hi) Hi
                  (exportHeaders_last i key Hi)). }
  rewrite Hcells in Hlookup.
  assert (get row' col_size = VString size) as Hsize'.
  { unfold get. rewrite (Hlookup 0%nat col_size eq_refl). simpl.
    destruct Hs as (_ & Htrim & _).
    apply columnValue_text; [done| |done]. apply (bool_decide_unpack _); by vm_compute. }
  assert (get row' col_level = VString level) as Hlevel'.
  { unfold get. rewrite (Hlookup 1%nat col_level eq_refl). simpl.
    destruct Hl as (_ & Htrim & _).
    apply columnValue_text; [done| |done]. apply (bool_decide_unpack _); by vm_compute. }
  assert (get row' col_customer = VString customer) as Hcustomer'.
  { unfold get. rewrite (Hlookup 2%nat col_customer eq_refl). simpl.
    destruct Hcu as (_ & Htrim & _).
    apply columnValue_text; [done| |done]. apply (bool_decide_unpack _); by vm_compute. }
  split; [congruence|]. split; [congruence|]. split; [congruence|]. split.
  - intros key Hkey. unfold get.
    assert (∃ i, exportHeaders !! i = Some key
                 ∧ ([size; level; customer;
                     Number_toString (priceOf row col_oneMonth);
                     Number_toString (priceOf row col_twoMonths);
                     Number_toString (priceOf row col_threeMonths);
                     Number_toString (priceOf row col_sixMonths);
                     Number_toString (priceOf row col_oneYear);
                     Number_toString (priceOf row col_oneDay);
                     idText] : list string) !! i
                   = Some (Number_toString (priceOf row key))) as (i & Hi & Hcell).
    { unfold priceColumns in Hkey.
      repeat (apply elem_of_cons in Hkey as [->|Hkey]);
        [by exists 3%nat|by exists 4%nat|by exists 5%nat|by exists 6%nat
        |by exists 7%nat|by exists 8%nat|by apply elem_of_nil in Hkey]. }
    rewrite (Hlookup i key Hi), Hcell. simpl. by rewrite columnValue_price.
  - unfold acceptedRow. rewrite Hsize', Hlevel', Hcustomer'. simpl.
    destruct Hs as (Hs & _), Hl as (Hl & _), Hcu as (Hcu & _).
    by destruct (String.eqb_spec size EmptyString),
      (String.eqb_spec level EmptyString), (String.eqb_spec customer EmptyString).
Qed.

Lemma append_not_empty (s t : string) : t ≠ EmptyString → s +:+ t ≠ EmptyString.
Proof. intros Ht. by destruct s. Qed.

Lemma lastChar_not_empty (s : string) (z : ascii) :
  lastChar s = Some z → s ≠ EmptyString.
Proof. by destruct s. Qed.

Lemma lastChar_join_last (sep : string) (parts : list string) (t : string) (z : ascii) :
  lastChar t = Some z → lastChar (join sep (parts ++ [t])) = Some z.
Proof.
  intros Ht. induction parts as [|p parts IH]; [done|].
  rewrite <- app_comm_cons, join_cons.
  destruct (parts ++ [t]) as [|q rest]; [done|].
  pose proof (lastChar_not_empty _ _ IH) as Hne.
  rewrite !lastChar_append; [done|done|by apply append_not_empty].
Qed.

Lemma lastChar_join_empty (c : ascii) (parts : list string) :
  parts ≠ [] →
  lastChar (join (String c EmptyString) (parts ++ [EmptyString])) = Some c.
Proof.
  induction parts as [|p parts IH]; [done|]. intros _.
  rewrite <- app_comm_cons, join_cons.
  destruct parts as [|q rest].
  - simpl app. cbn [join]. by rewrite lastChar_append.
  - specialize (IH ltac:(done)).
    destruct ((q :: rest) ++ [EmptyString]) as [|q' rest']; [done|].
    pose proof (lastChar_not_empty _ _ IH) as Hne.
    rewrite !lastChar_append; [done|done|by apply append_not_empty].
Qed.

(** A line of the export ends with the last digit of the identifier, or
    with the comma before an absent identifier. *)
Lemma exportLine_lastChar (row : PricingRow) :
  exportable row →
  ∃ z, lastChar (join "," (toJoinString <$> exportCells row)) = Some z
       ∧ endsSpace z = false.
Proof.
  intros Hrow.
  destruct (exportCells_text row Hrow)
    as (size & level & customer & idText & _ & _ & _ & _ & _ & _ & Hid & ->).
  set (front := [size; level; customer;
                 Number_toString (priceOf row col_oneMonth);
                 Number_toString (priceOf row col_twoMonths);
                 Number_toString (priceOf row col_threeMonths);
                 Number_toString (priceOf row col_sixMonths);
                 Number_toString (priceOf row col_oneYear);
                 Number_toString (priceOf row col_oneDay)]).
  change (lastChar (join "," (front ++ [idText]))) with
    (lastChar (join "," (front ++ [idText]))).
  assert (∃ z, (idText = EmptyString ∧ z = ","%char
                ∨ lastChar idText = Some z) ∧ endsSpace z = false)
    as (z & Hz & Hclean).
  { destruct Hid as [->|[n ->]]; [exists ","%char; split; [by left|done]|].
    unfold Number_toString.
    assert (∀ m prefix,
              ∃ z, lastChar (prefix +:+ digitsOf (Z.to_nat (Z.log2 m)) m EmptyString)
                   = Some z ∧ endsSpace z = false) as Hdigits.
    { intros m prefix.
      destruct (digitsOf_last (Z.to_nat (Z.log2 m)) m EmptyString) as [p ->].
      exists (digitChar (m mod 10)).
      rewrite !lastChar_append by (try apply append_not_empty; done).
      split; [done|].
      assert (isDigit (digitChar (m mod 10)) = true) as Hd.
      { apply digitChar_cases; [done|]. apply Z.mod_pos_bound. lia. }
      by apply isDigit_properties in Hd as (_ & ? & _). }
    destruct (n <? 0).
    - destruct (Hdigits (- n) "-") as (z & Hz & Hclean). exists z. by split; [right|].
    - destruct (Hdigits n EmptyString) as (z & Hz & Hclean). exists z. by split; [right|]. }
  exists z. split; [|done].
  change (toJoinString <$> _) with (front ++ [idText]) || idtac.
  destruct Hz as [[-> ->]|Hz].
  - by apply (lastChar_join_empty "," front).
  - by apply (lastChar_join_last "," front).
Qed.

Lemma trim_exportToCSV (pricingData : list PricingRow) :
  Forall exportable pricingData →
  trim (exportToCSV pricingData) = exportToCSV pricingData.
Proof.
  intros Hrows. unfold exportToCSV.
  set (line := λ row : PricingRow, join "," (toJoinString <$> exportCells row)).
  set (header := join "," exportHeaders).
  assert (∃ a r, header = String a r ∧ startsSpace a = false) as (a & r & Hheader & Ha).
  { by eexists _, _. }
  assert (∃ r', join (String newline EmptyString) (header :: (line <$> pricingData))
                = String a r') as [r' Hcsv].
  { rewrite join_cons. destruct (line <$> pricingData); rewrite Hheader; by eexists. }
  assert (∃ z, lastChar (join (String newline EmptyString)
                           (header :: (line <$> pricingData))) = Some z
               ∧ endsSpace z = false) as (z & Hz & Hclean).
  { destruct pricingData as [|lastRow front _] using rev_ind.
    - by eexists.
    - apply Forall_app in Hrows as [_ Hlast]. apply Forall_cons in Hlast as [Hlast _].
      destruct (exportLine_lastChar lastRow Hlast) as (z & Hz & Hclean).
      exists z. split; [|done]. rewrite fmap_app, app_comm_cons.
      by apply lastChar_join_last. }
  rewrite Hcsv in *. by apply (trim_keep a r' z).
Qed.

Lemma filter_all {A : Type} (P : A → Prop) `{∀ x, Decision (P x)} (l : list A) :
  Forall P l → filter P l = l.
Proof.
  induction l as [|x l IH]; [done|]. intros [Hx Hl]%Forall_cons.
  by rewrite filter_cons, decide_True, IH.
Qed.

(** The import of an export: each row parsed back from its own line. *)
Lemma parseCSV_exportToCSV (pricingData : list PricingRow) :
  Forall exportable pricingData →
  parseCSV (exportToCSV pricingData)
  = (λ row, parseLine exportHeaders (join "," (toJoinString <$> exportCells row)))
      <$> pricingData.
Proof.
  intros Hrows. unfold parseCSV. rewrite trim_exportToCSV by done.
  unfold exportToCSV.
  set (line := λ row : PricingRow, join "," (toJoinString <$> exportCells row)).
  set (header := join "," exportHeaders).
  rewrite (split_join newline); [|done|].
  - cbn [hd tail].
    assert (split "," header = exportHeaders) as -> by by vm_compute.
    rewrite forLines_filter. cbn [app]. rewrite <- list_fmap_compose.
    apply filter_all. apply Forall_fmap. eapply Forall_impl; [exact Hrows|].
    intros row Hrow. by apply parseLine_exportLine.
  - apply Forall_cons_2; [by vm_compute|]. apply Forall_fmap.
    eapply Forall_impl; [exact Hrows|]. intros row Hrow. simpl.
    apply contains_join; [done|]. apply exportLine_without; auto.
Qed.

(** C7 (amended). For a price table whose rows hold, as size, level and
    customer type, texts that are not empty, have no white space around
    them and hold neither a comma nor a line break, and whose prices and
    identifiers are integers or absent: importing the exported text gives
    as many rows, in the same order, each with the size, level and customer
    type of its original and with its six prices, an absent price coming
    back as 0; nothing is promised about identifiers. *)
Theorem export_import_roundtrip (pricingData : list PricingRow) :
  Forall exportable pricingData →
  let rows := parseCSV (exportToCSV pricingData) in
  length rows = length pricingData
  ∧ ∀ i row,
      pricingData !! i = Some row →
      ∃ row',
        rows !! i = Some row'
        ∧ get row' col_size = get row col_size
        ∧ get row' col_level = get row col_level
        ∧ get row' col_customer = get row col_customer
        ∧ ∀ key, key ∈ priceColumns → get row' key = VNumber (priceOf row key).
Proof.
  intros Hrows rows. subst rows. rewrite parseCSV_exportToCSV by done. split.
  - by rewrite length_fmap.
  - intros i row Hi. eexists. split.
    + rewrite list_lookup_fmap, Hi. reflexivity.
    + assert (exportable row) as Hrow.
      { rewrite Forall_lookup in Hrows. by apply (Hrows i). }
      destruct (parseLine_exportLine row Hrow) as (? & ? & ? & ? & _). auto.
Qed.

(** ** The import as a whole *)

(** With a backend that works, [updatePricingData] replaces the rows of the
    table, those that the delete request spares apart, by the accepted rows,
    clears the cache and reports how many rows it read. *)
Lemma updatePricingData_replaces (csvData : string) (w : World) (client : Backend) :
  supabase w = Some client → onDelete client = Works → onInsert client = Works →
  ∃ w',
    returns (updatePricingData csvData) w
      {| success := true;
         imported := Z.of_nat (length (parseCSV csvData));
         errors := [] |} w'
    ∧ localStorage w' = None
    ∧ table <$> supabase w' = Some (spared (table client) ++ parseCSV csvData).
Proof.
  intros Hclient Hdelete Hinsert. eexists. split.
  - unfold updatePricingData, deleteAll, insertRows, clearCache. run_M.
    rewrite Hclient. cbv beta iota. rewrite Hclient. cbv beta iota.
    rewrite Hdelete. cbn [supabase onInsert now localStorage]. rewrite Hinsert.
    reflexivity.
  - by split.
Qed.

(** Without a client nothing is parsed or written. *)
Lemma updatePricingData_without_client (csvData : string) (w : World) :
  supabase w = None →
  returns (updatePricingData csvData) w
    {| success := false; imported := 0; errors := ["Supabase غير متاح"] |} w.
Proof.
  intros Hclient. unfold updatePricingData. run_M. by rewrite Hclient.
Qed.

(** ** The model at work *)

Example parseInt_examples :
  parseInt (Some "24000") = Some 24000
  ∧ parseInt (Some "12abc") = Some 12
  ∧ parseInt (Some "-7") = Some (-7)
  ∧ parseInt (Some "0x1F") = Some 31
  ∧ parseInt (Some "abc") = None
  ∧ parseInt (Some EmptyString) = None
  ∧ parseInt None = None.
Proof. repeat split; reflexivity. Qed.

Example split_trim_examples :
  split "," "13x5, A ,,عادي" = ["13x5"; " A "; EmptyString; "عادي"]
  ∧ trim " A " = "A"
  ∧ trim (String "009" "800" +:+ String "013" EmptyString) = "800"
  ∧ split newline EmptyString = [EmptyString].
Proof. repeat split; by vm_compute. Qed.

Example exportToCSV_fallback :
  exportToCSV getFallbackData
  = "المقاس,المستوى,الزبون,شهر واحد,2 أشهر,3 أشهر,6 أشهر,سنة كاملة,يوم واحد,id"
    +:+ String newline "13x5,A,عادي,24000,23000,22000,21000,20000,800,1"
    +:+ String newline "12x4,A,عادي,21000,20000,19000,18000,17000,700,2".
Proof. by vm_compute. Qed.

Example parseCSV_fallback : parseCSV (exportToCSV getFallbackData) = getFallbackData.
Proof. apply (bool_decide_unpack _). by vm_compute. Qed.

Example findPrice_fallback :
  fst (findPriceForBillboard "13x5" "A" Regular col_oneDay sampleWorld) = Returned 800
  ∧ fst (findPriceForBillboard "13x5" "A" Regular col_size sampleWorld) = Returned 0
  ∧ fst (findPriceForBillboard "13x5" "B" Regular col_oneDay sampleWorld) = Returned 0
  ∧ fst (findPriceForBillboard "12x4" "A" Regular col_oneYear sampleWorld)
    = Returned 17000.
Proof. repeat split; by vm_compute. Qed.

Example quote_end_date :
  q_endDate <$> outcomeValue
    (fst (generateQuote sampleCustomer [sampleBillboard] package "2024-03-01" None
            (Some oneMonthPackage) false sampleWorld))
  = Some (Some "2024-03-31").
Proof. by vm_compute. Qed.

Example quote_without_start_date :
  fst (generateQuote sampleCustomer [sampleBillboard] package EmptyString None
         (Some oneMonthPackage) false sampleWorld)
  = Thrown "Invalid time value"
  ∧ outcomeValue
      (fst (calculateMultipleBillboards [sampleBillboard] Regular package
              EmptyString None (Some oneMonthPackage) false sampleWorld))
    ≠ None.
Proof. split; by vm_compute. Qed.

Example stats_of_two :
  let calc days price := {| billboard := sampleBillboard; basePrice := price;
                            dailyPrice := price; totalDays := days;
                            subtotal := price * days; installationPrice := 0;
                            total := price * days |} in
  let stats := getCampaignStats [calc 7 800; calc 7 701] in
  totalBillboards stats = 2
  ∧ stats_totalDays stats = 7
  ∧ averageDailyPrice stats = 751
  ∧ sizeBreakdown stats !! "13x5" = Some (VNumber 2)
  ∧ municipalityBreakdown stats !! "طرابلس" = Some (VNumber 2)
  ∧ levelBreakdown stats !! "B" = None.
Proof. repeat split; by vm_compute. Qed.

(** ** Counterexamples and instances *)

(** C4, as stated, fails: for an empty list of billboards the batch
    calculation returns the empty list, in daily mode without an end date
    and in package mode without a package. *)
Lemma calculateMultipleBillboards_empty_batch :
  calculateMultipleBillboards [] Regular daily "2024-03-01" None None false
    sampleWorld = (Returned [], sampleWorld)
  ∧ calculateMultipleBillboards [] Regular package "2024-03-01" None None false
      sampleWorld = (Returned [], sampleWorld).
Proof. split; reflexivity. Qed.

(** C7, as stated, fails: a size with a space after it comes back without
    the space, a size with a comma comes back cut at the comma, and a row
    with an empty level does not come back at all. *)
Lemma export_import_changes_rows :
  (λ row, get row col_size) <$> parseCSV (exportToCSV [sampleRow "13x5 " "A"])
  = [VString "13x5"]
  ∧ get (sampleRow "13x5 " "A") col_size = VString "13x5 "
  ∧ (λ row, get row col_size) <$> parseCSV (exportToCSV [sampleRow "13,5" "A"])
    = [VString "13"]
  ∧ get (sampleRow "13,5" "A") col_size = VString "13,5"
  ∧ parseCSV (exportToCSV [sampleRow "13x5" EmptyString]) = [].
Proof. repeat split; by vm_compute. Qed.

(** C1 on the fallback data: a week in March. *)
Lemma calculateDailyPrice_totals_witness :
  ∃ calc w',
    returns (calculateDailyPrice sampleBillboard Regular "2024-03-01" "2024-03-07"
               true) sampleWorld calc w'
    ∧ totalDays calc = 7
    ∧ subtotal calc = dailyPrice calc * 7
    ∧ total calc = (subtotal calc + installationPrice calc)%number.
Proof.
  destruct (calculateDailyPrice_totals sampleBillboard Regular "2024-03-01"
              "2024-03-07" true sampleWorld)
    as (calc & w' & Hrun & _ & _ & _ & Hsubtotal & Htotal & _ & _ & Hweek).
  exists calc, w'. split; [exact Hrun|].
  assert (totalDays calc = 7) as Hdays by (apply Hweek; reflexivity).
  split; [exact Hdays|]. split; [|exact Htotal].
  rewrite Hsubtotal, Hdays. reflexivity.
Defined.

(** C2 on the fallback data: the one-month package. *)
Lemma calculatePackagePrice_totals_witness :
  ∃ calc w',
    returns (calculatePackagePrice sampleBillboard Regular oneMonthPackage true)
      sampleWorld calc w'
    ∧ totalDays calc = 30
    ∧ 2 * dailyPrice calc * 30 - 30 ≤ 2 * subtotal calc
      < 2 * dailyPrice calc * 30 + 30.
Proof.
  destruct (calculatePackagePrice_totals sampleBillboard Regular oneMonthPackage
              true sampleWorld)
    as (calc & w' & Hrun & _ & Hdays & _ & _ & _ & Hround & _).
  exists calc, w'. split; [exact Hrun|]. split; [exact Hdays|].
  apply Hround. reflexivity.
Defined.

(** C4 on the fallback data: one billboard, with and without an end date. *)
Lemma calculateMultipleBillboards_contract_witness :
  (∃ message,
     calculateMultipleBillboards [sampleBillboard] Regular daily "2024-03-01"
       None None false sampleWorld = (Thrown message, sampleWorld))
  ∧ (∃ calculations w',
       returns (calculateMultipleBillboards [sampleBillboard] Regular daily
                  "2024-03-01" (Some "2024-03-07") None false) sampleWorld
         calculations w'
       ∧ billboard <$> calculations = [sampleBillboard]).
Proof.
  split.
  - destruct (calculateMultipleBillboards_contract [sampleBillboard] Regular daily
                "2024-03-01" None None false sampleWorld) as (Hthrows & _ & _).
    apply Hthrows.
    + discriminate.
    + left. split; reflexivity.
  - destruct (calculateMultipleBillboards_contract [sampleBillboard] Regular daily
                "2024-03-01" (Some "2024-03-07") None false sampleWorld)
      as (_ & _ & Hvalid).
    destruct Hvalid as (calculations & w' & Hrun & Horder & _).
    + left. split; [reflexivity|discriminate].
    + by exists calculations, w'.
Defined.


(** C7 on the fallback data. *)
Lemma export_import_roundtrip_witness :
  Forall exportable getFallbackData
  ∧ length (parseCSV (exportToCSV getFallbackData)) = length getFallbackData.
Proof.
  assert (Forall exportable getFallbackData) as Hrows.
  { repeat apply Forall_cons_2; [| |apply Forall_nil_2].
    all: repeat split;
      try (eexists; split; [vm_compute; reflexivity|repeat split; by vm_compute]);
      try (right; eexists; vm_compute; reflexivity).
    all: intros key Hkey; unfold priceColumns in Hkey;
      repeat (apply elem_of_cons in Hkey as [->|Hkey]);
      try (right; eexists; vm_compute; reflexivity);
      by apply elem_of_nil in Hkey. }
  split; [exact Hrows|].
  apply (export_import_roundtrip getFallbackData Hrows).
Defined.

(** * Further properties of the code *)

(** ** The monad of methods, continued *)

(** ** The browser cache *)

Lemma get_JSON_row (row : PricingRow) (key : string) :
  get (filter (λ kv : string * value, kv.2 ≠ VUndefined) row) key = get row key.
Proof.
  unfold get. rewrite map_lookup_filter.
  destruct (row !! key) as [v|]; [|done]. simpl.
  destruct (decide (v = VUndefined)) as [->|Hv].
  - by rewrite option_guard_False by (simpl; auto).
  - by rewrite option_guard_True.
Qed.

Lemma sameReadings_JSON_copy (data : list PricingRow) :
  sameReadings data (JSON_copy data).
Proof.
  unfold sameReadings, JSON_copy. apply Forall2_fmap_r, Forall_Forall2_diag.
  apply Forall_forall. intros row _ key. by rewrite get_JSON_row.
Qed.

Lemma sameReadings_refl (data : list PricingRow) : sameReadings data data.
Proof. apply Forall_Forall2_diag, Forall_forall. done. Qed.

Lemma JSON_copy_defined (data : list PricingRow) :
  Forall (λ row : PricingRow, ∀ key, row !! key ≠ Some VUndefined) (JSON_copy data).
Proof.
  unfold JSON_copy. apply Forall_fmap, Forall_forall. intros row _ key Hkey.
  apply map_lookup_filter_Some in Hkey as [_ Hv]. by apply Hv.
Qed.

(** X1. A table written to the cache is read back as long as the entry is
    no older than the cache duration (five minutes): reading at such a time
    is a hit that leaves the cache as it is, and the table read holds, row
    by row and key by key, the values of the table written.  What the copy
    loses are the properties whose value is [undefined]; no row of it has
    one.  The storage is taken to accept the write. *)
Theorem cache_read_back (data : list PricingRow) (w : World) (t : Z) :
  t - now w ≤ CACHE_DURATION →
  ∃ w1 cached,
    returns (setCachedData data) w tt w1
    ∧ supabase w1 = supabase w
    ∧ returns getCachedData (atTime t w1) (Some cached) (atTime t w1)
    ∧ sameReadings data cached
    ∧ Forall (λ row : PricingRow, ∀ key, row !! key ≠ Some VUndefined) cached.
Proof.
  intros Hfresh. eexists _, (JSON_copy data). split; [reflexivity|].
  split; [reflexivity|]. split.
  - unfold getCachedData. run_M. cbn [localStorage atTime now cache_timestamp].
    destruct (Z.gtb_spec (t - now w) CACHE_DURATION); [lia|done].
  - split; [apply sameReadings_JSON_copy|apply JSON_copy_defined].
Qed.

Lemma cache_read_back_witness :
  ∃ w1 cached,
    returns (setCachedData getFallbackData) sampleWorld tt w1
    ∧ returns getCachedData (atTime (now sampleWorld + 60000) w1) (Some cached)
        (atTime (now sampleWorld + 60000) w1)
    ∧ sameReadings getFallbackData cached.
Proof.
  destruct (cache_read_back getFallbackData sampleWorld (now sampleWorld + 60000))
    as (w1 & cached & Hput & _ & Hget & Hsame & _).
  - vm_compute. discriminate.
  - by exists w1, cached.
Defined.

(** X2. An entry older than the cache duration is not served: reading it
    is a miss, and the read removes the entry, so that every later read is
    a miss too, whatever the clock says then. *)
Theorem cache_expires (data : list PricingRow) (w : World) (t t' : Z) :
  CACHE_DURATION < t - now w →
  ∃ w1 w2,
    returns (setCachedData data) w tt w1
    ∧ returns getCachedData (atTime t w1) None w2
    ∧ localStorage w2 = None
    ∧ supabase w2 = supabase w
    ∧ returns getCachedData (atTime t' w2) None (atTime t' w2).
Proof.
  intros Hold. eexists _, _. split; [reflexivity|]. split.
  - unfold getCachedData, clearCache. run_M.
    cbn [localStorage atTime now cache_timestamp].
    destruct (Z.gtb_spec (t - now w) CACHE_DURATION); [reflexivity|lia].
  - done.
Qed.

Lemma cache_expires_witness :
  ∃ w1 w2,
    returns (setCachedData getFallbackData) sampleWorld tt w1
    ∧ returns getCachedData (atTime (now sampleWorld + 300001) w1) None w2
    ∧ localStorage w2 = None.
Proof.
  destruct (cache_expires getFallbackData sampleWorld (now sampleWorld + 300001) 0)
    as (w1 & w2 & Hput & Hget & Hgone & _).
  - vm_compute. reflexivity.
  - by exists w1, w2.
Defined.

(** ** Loading the table *)

Lemma freshCache_run (w : World) :
  match freshCache w with
  | Some cached => returns getCachedData w (Some cached) w
  | None =>
      returns getCachedData w None
        {| now := now w; localStorage := None; supabase := supabase w |}
      ∨ (localStorage w = None ∧ returns getCachedData w None w)
  end.
Proof.
  unfold freshCache, getCachedData, clearCache. run_M.
  destruct (localStorage w) as [cached|]; [|by right].
  destruct (Z.gtb_spec (now w - cache_timestamp cached) CACHE_DURATION);
    destruct (decide _); try lia; [by left|done].
Qed.

Lemma getAllPricingData_run (w : World) :
  ∃ rows w',
    returns getAllPricingData w rows w'
    ∧ now w' = now w
    ∧ supabase w' = supabase w
    ∧ match freshCache w with
      | Some cached => rows = cached ∧ w' = w
      | None =>
          match supabase w with
          | Some client =>
              match onSelect client with
              | Works =>
                  rows = table client
                  ∧ localStorage w'
                    = Some {| cache_data := JSON_copy rows;
                              cache_timestamp := now w |}
              | _ => rows = getFallbackData ∧ localStorage w' = None
              end
          | None => rows = getFallbackData ∧ localStorage w' = None
          end
      end.
Proof.
  pose proof (freshCache_run w) as Hcache.
  destruct (freshCache w) as [cached|].
  - exists cached, w. split; [|done].
    unfold getAllPricingData. revert Hcache. run_M. by intros ->.
  - destruct Hcache as [Hcache|[Hnone Hcache]].
    + unfold getAllPricingData, setCachedData, selectAll. revert Hcache. run_M.
      intros ->. cbn [supabase now localStorage].
      destruct (supabase w) as [client|] eqn:Hclient; [|by eexists _, _].
      destruct (onSelect client); by eexists _, _.
    + unfold getAllPricingData, setCachedData, selectAll. revert Hcache. run_M.
      intros ->.
      destruct (supabase w) as [client|] eqn:Hclient; [|by eexists _, _].
      destruct (onSelect client); cbn [supabase now localStorage];
        by eexists _, _.
Qed.

(** X3. Loading the price table never throws and never writes to the
    backend.  A cache entry within its duration is returned as it is, and
    nothing changes.  Otherwise the table of the backend is returned, and
    cached with the time of the call, when the query works; and the
    built-in fallback table is returned, with nothing cached, when the
    client is missing, when the query reports an error and when the request
    is rejected. *)
Theorem getAllPricingData_sources (w : World) :
  ∃ rows w',
    returns getAllPricingData w rows w'
    ∧ now w' = now w
    ∧ supabase w' = supabase w
    ∧ match freshCache w with
      | Some cached => rows = cached ∧ w' = w
      | None =>
          match supabase w with
          | Some client =>
              match onSelect client with
              | Works =>
                  rows = table client
                  ∧ localStorage w'
                    = Some {| cache_data := JSON_copy rows;
                              cache_timestamp := now w |}
              | _ => rows = getFallbackData ∧ localStorage w' = None
              end
          | None => rows = getFallbackData ∧ localStorage w' = None
          end
      end.
Proof. exact (getAllPricingData_run w). Qed.

Lemma world_eq (w w' : World) :
  now w' = now w → localStorage w' = localStorage w → supabase w' = supabase w →
  w' = w.
Proof. destruct w, w'. simpl. by intros -> -> ->. Qed.

Lemma getAllPricingData_settles (w : World) (rows : list PricingRow) (w' : World) :
  returns getAllPricingData w rows w' →
  ∃ rows', returns getAllPricingData w' rows' w' ∧ sameReadings rows rows'.
Proof.
  intros Hload.
  destruct (getAllPricingData_run w) as (rows0 & w0 & Hrun & Hnow & Hclient & Hcase).
  destruct (returns_inj _ _ _ _ _ _ Hload Hrun) as [-> ->].
  destruct (getAllPricingData_run w0) as (rows1 & w1 & Hrun1 & Hnow1 & Hclient1 & Hcase1).
  destruct (freshCache w) as [cached|] eqn:Hfresh.
  - destruct Hcase as [-> ->]. rewrite Hfresh in Hcase1.
    destruct Hcase1 as [-> ->]. exists cached. split; [done|apply sameReadings_refl].
  - assert (∀ stored, localStorage w0 = Some {| cache_data := stored;
                                                 cache_timestamp := now w |} →
            freshCache w0 = Some stored) as Hstored.
    { intros stored Hls. unfold freshCache. rewrite Hls, Hnow. simpl.
      destruct (decide _) as [|Hn]; [done|]. exfalso. apply Hn.
      unfold CACHE_DURATION. lia. }
    assert (localStorage w0 = None → freshCache w0 = None) as Hempty.
    { intros Hls. unfold freshCache. by rewrite Hls. }
    rewrite Hclient in Hcase1.
    destruct (supabase w) as [client|].
    + destruct (onSelect client).
      * destruct Hcase as [-> Hls]. rewrite (Hstored _ Hls) in Hcase1.
        destruct Hcase1 as [-> ->]. eexists. split; [done|].
        apply sameReadings_JSON_copy.
      * destruct Hcase as [-> Hls]. rewrite (Hempty Hls) in Hcase1.
        destruct Hcase1 as [-> Hls1]. exists getFallbackData.
        split; [|apply sameReadings_refl].
        by rewrite (world_eq w0 w1) in Hrun1 by congruence.
      * destruct Hcase as [-> Hls]. rewrite (Hempty Hls) in Hcase1.
        destruct Hcase1 as [-> Hls1]. exists getFallbackData.
        split; [|apply sameReadings_refl].
        by rewrite (world_eq w0 w1) in Hrun1 by congruence.
    + destruct Hcase as [-> Hls]. rewrite (Hempty Hls) in Hcase1.
      destruct Hcase1 as [-> Hls1]. exists getFallbackData.
      split; [|apply sameReadings_refl].
      by rewrite (world_eq w0 w1) in Hrun1 by congruence.
Qed.

(** X4. Loading the table twice in a row gives the same table: after a
    first load, a second load at the same instant changes nothing, neither
    in the cache nor in the backend, and returns a table that holds, row by
    row and key by key, the values of the first. *)
Theorem getAllPricingData_twice (w : World) :
  ∃ rows w' rows',
    returns getAllPricingData w rows w'
    ∧ returns getAllPricingData w' rows' w'
    ∧ sameReadings rows rows'.
Proof.
  destruct (getAllPricingData_returns w) as (rows & w' & Hload).
  destruct (getAllPricingData_settles w rows w' Hload) as (rows' & Hagain & Hsame).
  by exists rows, w', rows'.
Qed.

(** ** Price resolution, repeated *)

Lemma rowMatches_sameReadings size level customerType (row row' : PricingRow) :
  (∀ key, get row key = get row' key) →
  rowMatches size level customerType row = rowMatches size level customerType row'.
Proof. intros Hsame. unfold rowMatches. by rewrite !Hsame. Qed.

Lemma resolve_sameReadings size level customerType pricingKey
    (rows rows' : list PricingRow) :
  sameReadings rows rows' →
  resolve size level customerType pricingKey rows
  = resolve size level customerType pricingKey rows'.
Proof.
  unfold resolve. induction 1 as [|row row' rows rows' Hrow _ IH]; [done|].
  simpl. rewrite <- (rowMatches_sameReadings _ _ _ row row' Hrow).
  destruct (rowMatches size level customerType row); [|exact IH].
  unfold priceOf. by rewrite Hrow.
Qed.

Lemma findPriceForBillboard_resolve size level customerType pricingKey w rows w' :
  returns getAllPricingData w rows w' →
  returns (findPriceForBillboard size level customerType pricingKey) w
    (resolve size level customerType pricingKey rows) w'.
Proof.
  intros Hload.
  destruct (findPriceForBillboard_run size level customerType pricingKey w)
    as (rows0 & w0 & Hload0 & Hrun).
  destruct (returns_inj _ _ _ _ _ _ Hload Hload0) as [-> ->]. exact Hrun.
Qed.

Lemma findPriceForBillboard_inv size level customerType pricingKey w price w' :
  returns (findPriceForBillboard size level customerType pricingKey) w price w' →
  ∃ rows, returns getAllPricingData w rows w'
          ∧ price = resolve size level customerType pricingKey rows.
Proof.
  intros Hrun. destruct (getAllPricingData_returns w) as (rows & w0 & Hload).
  pose proof (findPriceForBillboard_resolve size level customerType pricingKey
                w rows w0 Hload) as Hrun0.
  destruct (returns_inj _ _ _ _ _ _ Hrun Hrun0) as [-> ->]. by exists rows.
Qed.

Lemma findPriceForBillboard_settles size level customerType pricingKey w price w' :
  returns (findPriceForBillboard size level customerType pricingKey) w price w' →
  settled w'
  ∧ returns (findPriceForBillboard size level customerType pricingKey) w' price w'.
Proof.
  intros Hrun.
  apply findPriceForBillboard_inv in Hrun as (rows & Hload & ->).
  destruct (getAllPricingData_settles w rows w' Hload) as (rows' & Hagain & Hsame).
  split; [by exists rows'|].
  rewrite (resolve_sameReadings _ _ _ _ rows rows' Hsame).
  by apply findPriceForBillboard_resolve.
Qed.

Lemma findPriceForBillboard_settled size level customerType pricingKey w price w' :
  settled w →
  returns (findPriceForBillboard size level customerType pricingKey) w price w' →
  w' = w.
Proof.
  intros [rows Hload] Hrun.
  pose proof (findPriceForBillboard_resolve size level customerType pricingKey
                w rows w Hload) as Hrun0.
  by destruct (returns_inj _ _ _ _ _ _ Hrun Hrun0) as [_ ->].
Qed.

(** X5. Price resolution is repeatable: asked again at the same instant,
    in the world the first resolution left, it returns the same price and
    changes nothing, although the first answer may have come from the
    backend and the second from the cached copy. *)
Theorem findPriceForBillboard_repeatable (size : string) (level : PriceListType)
    (customerType : CustomerType) (pricingKey : string) (w : World) :
  ∃ price w',
    returns (findPriceForBillboard size level customerType pricingKey) w price w'
    ∧ returns (findPriceForBillboard size level customerType pricingKey) w' price w'.
Proof.
  destruct (findPriceForBillboard_returns size level customerType pricingKey w)
    as (price & w' & Hrun).
  exists price, w'. split; [done|].
  by apply findPriceForBillboard_settles in Hrun as [_ Hagain].
Qed.

(** ** A batch is priced from one table *)

Lemma validCombination_dec pricingMode endDate packageOption :
  validCombination pricingMode endDate packageOption
  ∨ ¬ validCombination pricingMode endDate packageOption.
Proof.
  unfold validCombination. destruct pricingMode.
  - destruct (given endDate); [left|right]; congruence.
  - destruct packageOption; [left|right]; congruence.
Qed.

Lemma forBillboards_cons_run `{JSDate} b rest customerType pricingMode startDate
    endDate packageOption includeInstallation calculations w price w1 result w' :
  validCombination pricingMode endDate packageOption →
  returns (findPriceForBillboard (bb_size b) (bb_level b) customerType
             (priceKey pricingMode packageOption)) w price w1 →
  returns (forBillboards rest customerType pricingMode startDate endDate
             packageOption includeInstallation
             (calculations
              ++ [lineFor pricingMode startDate endDate packageOption
                    includeInstallation b price])) w1 result w' →
  returns (forBillboards (b :: rest) customerType pricingMode startDate endDate
             packageOption includeInstallation calculations) w result w'.
Proof.
  intros Hvalid Hprice Hrest. simpl. eapply returns_bind; [|exact Hrest].
  assert (returns (if includeInstallation
                   then getInstallationPrice (bb_size b) (bb_municipality b)
                   else ret (Num 0)) w1
            (if includeInstallation
             then installationFee (bb_size b) (bb_municipality b) else Num 0) w1)
    as Hfee.
  { destruct includeInstallation; [apply getInstallationPrice_run|done]. }
  destruct pricingMode; simpl in Hvalid.
  - destruct (given endDate) as [endDate'|] eqn:Hend; [|done].
    assert (returns (calculateDailyPrice b customerType startDate endDate'
                       includeInstallation) w
              (lineFor daily startDate endDate packageOption includeInstallation
                 b price) w1) as Hrun.
    { unfold calculateDailyPrice. eapply returns_bind; [exact Hprice|].
      eapply returns_bind; [exact Hfee|]. unfold lineFor. rewrite Hend.
      apply returns_ret. }
    destruct packageOption; exact Hrun.
  - destruct packageOption as [packageOption'|]; [|done].
    assert (returns (calculatePackagePrice b customerType packageOption'
                       includeInstallation) w
              (lineFor package startDate endDate (Some packageOption')
                 includeInstallation b price) w1) as Hrun.
    { unfold calculatePackagePrice. eapply returns_bind; [exact Hprice|].
      eapply returns_bind; [exact Hfee|]. apply returns_ret. }
    destruct (given endDate); exact Hrun.
Qed.

Lemma forBillboards_settled_run `{JSDate} billboards customerType pricingMode
    startDate endDate packageOption includeInstallation rows w :
  validCombination pricingMode endDate packageOption →
  returns getAllPricingData w rows w →
  ∀ calculations,
    returns (forBillboards billboards customerType pricingMode startDate endDate
               packageOption includeInstallation calculations) w
      (calculations
       ++ linesFor customerType pricingMode startDate endDate packageOption
            includeInstallation rows billboards) w.
Proof.
  intros Hvalid Hload. induction billboards as [|b rest IH]; intros calculations.
  - unfold linesFor. simpl. rewrite app_nil_r. apply returns_ret.
  - eapply forBillboards_cons_run; [exact Hvalid| |].
    + apply findPriceForBillboard_resolve. exact Hload.
    + unfold linesFor in *. rewrite fmap_cons.
      match goal with
      | |- returns (forBillboards _ _ _ _ _ _ _ ?acc) _ _ _ =>
          pose proof (IH acc) as IH'
      end.
      rewrite <- app_assoc in IH'. exact IH'.
Qed.

Lemma linesFor_sameReadings `{JSDate} customerType pricingMode startDate endDate
    packageOption includeInstallation rows rows' billboards :
  sameReadings rows rows' →
  linesFor customerType pricingMode startDate endDate packageOption
    includeInstallation rows billboards
  = linesFor customerType pricingMode startDate endDate packageOption
      includeInstallation rows' billboards.
Proof.
  intros Hsame. unfold linesFor. apply list_fmap_ext. intros _ b _.
  by rewrite (resolve_sameReadings _ _ _ _ rows rows' Hsame).
Qed.

(** With the argument its mode needs, a batch over at least one billboard
    loads the table once and prices every line from it. *)
Lemma calculateMultipleBillboards_run `{JSDate} billboards customerType
    pricingMode startDate endDate packageOption includeInstallation w rows w' :
  validCombination pricingMode endDate packageOption →
  billboards ≠ [] →
  returns getAllPricingData w rows w' →
  returns (calculateMultipleBillboards billboards customerType pricingMode
             startDate endDate packageOption includeInstallation) w
    (linesFor customerType pricingMode startDate endDate packageOption
       includeInstallation rows billboards) w'.
Proof.
  intros Hvalid Hne Hload. destruct billboards as [|b rest]; [done|].
  destruct (getAllPricingData_settles w rows w' Hload) as (rows' & Hagain & Hsame).
  unfold calculateMultipleBillboards.
  eapply forBillboards_cons_run; [exact Hvalid| |].
  - apply findPriceForBillboard_resolve. exact Hload.
  - rewrite (linesFor_sameReadings _ _ _ _ _ _ rows rows' _ Hsame).
    unfold linesFor. rewrite fmap_cons.
    rewrite <- (resolve_sameReadings _ _ _ _ rows rows' Hsame).
    exact (forBillboards_settled_run rest customerType pricingMode startDate
             endDate packageOption includeInstallation rows' w' Hvalid Hagain
             [lineFor pricingMode startDate endDate packageOption
                includeInstallation b
                (resolve (bb_size b) (bb_level b) customerType
                   (priceKey pricingMode packageOption) rows)]).
Qed.

Lemma calculateMultipleBillboards_inv `{JSDate} billboards customerType
    pricingMode startDate endDate packageOption includeInstallation w
    calculations w' :
  returns (calculateMultipleBillboards billboards customerType pricingMode
             startDate endDate packageOption includeInstallation) w
    calculations w' →
  (billboards = [] ∧ calculations = [] ∧ w' = w)
  ∨ (billboards ≠ []
     ∧ validCombination pricingMode endDate packageOption
     ∧ ∃ rows,
         returns getAllPricingData w rows w'
         ∧ calculations
           = linesFor customerType pricingMode startDate endDate packageOption
               includeInstallation rows billboards).
Proof.
  intros Hrun. destruct billboards as [|b rest].
  { left. by injection Hrun as <- <-. }
  right. split; [done|].
  destruct (validCombination_dec pricingMode endDate packageOption)
    as [Hvalid|Hinvalid].
  - split; [done|].
    destruct (getAllPricingData_returns w) as (rows & w1 & Hload).
    pose proof (calculateMultipleBillboards_run (b :: rest) customerType
                  pricingMode startDate endDate packageOption includeInstallation
                  w rows w1 Hvalid ltac:(done) Hload) as Hrun1.
    destruct (returns_inj _ _ _ _ _ _ Hrun Hrun1) as [-> ->]. by exists rows.
  - unfold returns in Hrun.
    rewrite (calculateMultipleBillboards_invalid (b :: rest) customerType
               pricingMode startDate endDate packageOption includeInstallation w)
      in Hrun by done.
    discriminate.
Qed.

Lemma calculateMultipleBillboards_settles `{JSDate} billboards customerType
    pricingMode startDate endDate packageOption includeInstallation w
    calculations w' :
  returns (calculateMultipleBillboards billboards customerType pricingMode
             startDate endDate packageOption includeInstallation) w
    calculations w' →
  returns (calculateMultipleBillboards billboards customerType pricingMode
             startDate endDate packageOption includeInstallation) w'
    calculations w'.
Proof.
  intros Hrun.
  destruct (calculateMultipleBillboards_inv _ _ _ _ _ _ _ _ _ _ Hrun)
    as [(-> & -> & ->)|(Hne & Hvalid & rows & Hload & ->)]; [done|].
  destruct (getAllPricingData_settles w rows w' Hload) as (rows' & Hagain & Hsame).
  rewrite (linesFor_sameReadings _ _ _ _ _ _ rows rows' _ Hsame).
  by apply calculateMultipleBillboards_run.
Qed.

Lemma installationFee_cases (size municipality : string) :
  installationFee size municipality
  = if inherited size || inherited municipality then NaN
    else Num (Math_round
                (inject_Z (default 500 (installationPrices !! size))
                 * default 1%Q (municipalityMultipliers !! municipality))).
Proof.
  unfold installationFee.
  rewrite tableEntry_installationPrices, tableEntry_municipalityMultipliers.
  by destruct (inherited size), (inherited municipality).
Qed.

Lemma roundedProduct_bounds (size municipality : string) :
  450 ≤ Math_round (inject_Z (default 500 (installationPrices !! size))
                    * default 1%Q (municipalityMultipliers !! municipality))
  ≤ 1800.
Proof.
  assert (∀ p, p = 500 ∨ (∃ k, installationPrices !! k = Some p) →
          ∀ m, m = 1%Q ∨ (∃ k, municipalityMultipliers !! k = Some m) →
          450 ≤ Math_round (inject_Z p * m) ≤ 1800) as Hall.
  { assert (map_Forall (λ _ p,
              450 ≤ Math_round (inject_Z p * 1) ≤ 1800
              ∧ map_Forall (λ _ m, 450 ≤ Math_round (inject_Z p * m) ≤ 1800)
                  municipalityMultipliers) installationPrices) as Htables
      by (apply (bool_decide_unpack _); by vm_compute).
    assert (map_Forall (λ _ m, 450 ≤ Math_round (inject_Z 500 * m) ≤ 1800)
              municipalityMultipliers) as Hdefault
      by (apply (bool_decide_unpack _); by vm_compute).
    intros p [->|[k Hp]] m [->|[k' Hm]].
    - by vm_compute.
    - by apply (Hdefault k').
    - by apply (Htables k p Hp).
    - destruct (Htables k p Hp) as [_ Hrow]. by apply (Hrow k'). }
  apply Hall.
  - destruct (installationPrices !! size) eqn:Hp; [right; eauto|by left].
  - destruct (municipalityMultipliers !! municipality) eqn:Hm; [right; eauto|by left].
Qed.

(** X6. The lines of a batch that succeeds are consistent with one
    another: every line has [total = subtotal + installationPrice]; its
    installation price is 0 when installation is not included and the fee
    of the size and municipality of its billboard when it is; its subtotal
    is [dailyPrice * totalDays] in the daily mode and the package price in
    the package mode; and all lines have the same number of days. *)
Theorem calculateMultipleBillboards_lines `{JSDate}
    (billboards : list BillboardPricingData) (customerType : CustomerType)
    (pricingMode : PricingMode) (startDate : string) (endDate : option string)
    (packageOption : option PackageOption) (includeInstallation : bool)
    (w : World) (calculations : list PricingCalculation) (w' : World) :
  returns (calculateMultipleBillboards billboards customerType pricingMode
             startDate endDate packageOption includeInstallation) w
    calculations w' →
  Forall (λ calc,
            total calc = (subtotal calc + installationPrice calc)%number
            ∧ installationPrice calc
              = (if includeInstallation
                 then installationFee (bb_size (billboard calc))
                        (bb_municipality (billboard calc))
                 else 0)
            ∧ subtotal calc
              = match pricingMode with
                | daily => dailyPrice calc * totalDays calc
                | package => basePrice calc
                end) calculations
  ∧ ∃ days, Forall (λ calc, totalDays calc = days) calculations.
Proof.
  intros Hrun.
  destruct (calculateMultipleBillboards_inv _ _ _ _ _ _ _ _ _ _ Hrun)
    as [(-> & -> & ->)|(Hne & Hvalid & rows & Hload & ->)].
  { split; [done|]. by exists 0. }
  unfold linesFor. split.
  - apply Forall_fmap, Forall_forall. intros b _. unfold lineFor.
    destruct pricingMode; simpl in *.
    + by destruct packageOption.
    + by destruct packageOption.
  - exists (totalDays (lineFor pricingMode startDate endDate packageOption
                         includeInstallation
                         {| bb_id := EmptyString; bb_name := EmptyString;
                            bb_size := EmptyString;
                            bb_municipality := EmptyString;
                            bb_level := EmptyString; bb_status := EmptyString;
                            bb_location := EmptyString; bb_imageUrl := None |} 0)).
    apply Forall_fmap, Forall_forall. intros b _. unfold lineFor.
    destruct pricingMode, packageOption; done.
Qed.

Lemma calculateMultipleBillboards_lines_witness :
  ∃ calculations w',
    returns (calculateMultipleBillboards [sampleBillboard; sampleBillboard]
               Regular daily "2024-03-01" (Some "2024-03-07") None true)
      sampleWorld calculations w'
    ∧ Forall (λ calc, total calc = (subtotal calc + installationPrice calc)%number)
        calculations.
Proof.
  destruct (calculateMultipleBillboards_valid [sampleBillboard; sampleBillboard]
              Regular daily "2024-03-01" (Some "2024-03-07") None true sampleWorld)
    as (calculations & w' & Hrun & _).
  { vm_compute. discriminate. }
  exists calculations, w'. split; [exact Hrun|].
  destruct (calculateMultipleBillboards_lines [sampleBillboard; sampleBillboard]
              Regular daily "2024-03-01" (Some "2024-03-07") None true
              sampleWorld calculations w' Hrun) as [Hlines _].
  eapply Forall_impl; [exact Hlines|]. intros calc [Htotal _]. exact Htotal.
Defined.

(** X7. With the clock standing still during the batch, a batch over at
    least one billboard loads the price table once and prices every line
    from that table, also when the first line is priced from the answer of
    the backend and the others from its cached copy.  So two billboards of
    the same size and level get the same base price, daily price and
    subtotal. *)
Theorem calculateMultipleBillboards_one_table `{JSDate}
    (billboards : list BillboardPricingData) (customerType : CustomerType)
    (pricingMode : PricingMode) (startDate : string) (endDate : option string)
    (packageOption : option PackageOption) (includeInstallation : bool)
    (w : World) (calculations : list PricingCalculation) (w' : World) :
  billboards ≠ [] →
  returns (calculateMultipleBillboards billboards customerType pricingMode
             startDate endDate packageOption includeInstallation) w
    calculations w' →
  (∃ rows,
     returns getAllPricingData w rows w'
     ∧ Forall (λ calc,
                 basePrice calc
                 = resolve (bb_size (billboard calc)) (bb_level (billboard calc))
                     customerType (priceKey pricingMode packageOption) rows)
         calculations)
  ∧ ∀ c1 c2,
      c1 ∈ calculations → c2 ∈ calculations →
      bb_size (billboard c1) = bb_size (billboard c2) →
      bb_level (billboard c1) = bb_level (billboard c2) →
      basePrice c1 = basePrice c2
      ∧ dailyPrice c1 = dailyPrice c2
      ∧ subtotal c1 = subtotal c2.
Proof.
  intros Hne Hrun.
  destruct (calculateMultipleBillboards_inv _ _ _ _ _ _ _ _ _ _ Hrun)
    as [(-> & _)|(_ & Hvalid & rows & Hload & ->)]; [done|].
  split.
  - exists rows. split; [done|]. unfold linesFor.
    apply Forall_fmap, Forall_forall. intros b _. unfold lineFor.
    destruct pricingMode, packageOption; done.
  - intros c1 c2 H1 H2. unfold linesFor in H1, H2.
    apply list_elem_of_fmap in H1 as (b1 & -> & _).
    apply list_elem_of_fmap in H2 as (b2 & -> & _).
    unfold lineFor. destruct pricingMode, packageOption; simpl; by intros -> ->.
Qed.

Lemma calculateMultipleBillboards_one_table_witness :
  ∃ calculations w',
    returns (calculateMultipleBillboards [sampleBillboard; sampleBillboard]
               Regular package "2024-03-01" None (Some oneMonthPackage) false)
      (onlineWorld getFallbackData) calculations w'
    ∧ ∀ c1 c2,
        c1 ∈ calculations → c2 ∈ calculations →
        bb_size (billboard c1) = bb_size (billboard c2) →
        bb_level (billboard c1) = bb_level (billboard c2) →
        basePrice c1 = basePrice c2.
Proof.
  destruct (calculateMultipleBillboards_valid [sampleBillboard; sampleBillboard]
              Regular package "2024-03-01" None (Some oneMonthPackage) false
              (onlineWorld getFallbackData))
    as (calculations & w' & Hrun & _).
  { vm_compute. discriminate. }
  exists calculations, w'. split; [exact Hrun|].
  destruct (calculateMultipleBillboards_one_table
              [sampleBillboard; sampleBillboard] Regular package "2024-03-01"
              None (Some oneMonthPackage) false (onlineWorld getFallbackData)
              calculations w' ltac:(discriminate) Hrun) as [_ Hsame].
  intros c1 c2 H1 H2 Hsize Hlevel.
  destruct (Hsame c1 c2 H1 H2 Hsize Hlevel) as [Hbase _]. exact Hbase.
Defined.

(** X8. A batch is repeatable: run again at the same instant, in the world
    the first run left, it returns the same lines and changes nothing. *)
Theorem calculateMultipleBillboards_repeatable `{JSDate}
    (billboards : list BillboardPricingData) (customerType : CustomerType)
    (pricingMode : PricingMode) (startDate : string) (endDate : option string)
    (packageOption : option PackageOption) (includeInstallation : bool)
    (w : World) (calculations : list PricingCalculation) (w' : World) :
  returns (calculateMultipleBillboards billboards customerType pricingMode
             startDate endDate packageOption includeInstallation) w
    calculations w' →
  returns (calculateMultipleBillboards billboards customerType pricingMode
             startDate endDate packageOption includeInstallation) w'
    calculations w'.
Proof. apply calculateMultipleBillboards_settles. Qed.

Lemma calculateMultipleBillboards_repeatable_witness :
  ∃ calculations w',
    returns (calculateMultipleBillboards [sampleBillboard] Regular package
               "2024-03-01" None (Some oneMonthPackage) true)
      (onlineWorld getFallbackData) calculations w'
    ∧ returns (calculateMultipleBillboards [sampleBillboard] Regular package
                 "2024-03-01" None (Some oneMonthPackage) true)
        w' calculations w'.
Proof.
  destruct (calculateMultipleBillboards_valid [sampleBillboard] Regular package
              "2024-03-01" None (Some oneMonthPackage) true
              (onlineWorld getFallbackData))
    as (calculations & w' & Hrun & _).
  { vm_compute. discriminate. }
  exists calculations, w'. split; [exact Hrun|].
  exact (calculateMultipleBillboards_repeatable [sampleBillboard] Regular package
           "2024-03-01" None (Some oneMonthPackage) true
           (onlineWorld getFallbackData) calculations w' Hrun).
Defined.

(** ** The quote, continued *)

Lemma sumNumber_total (calculations : list PricingCalculation) :
  Forall (λ calc, total calc = (subtotal calc + installationPrice calc)%number)
    calculations →
  sumNumber total calculations
  = (sumOf subtotal calculations + sumNumber installationPrice calculations)%number.
Proof.
  induction 1 as [|calc rest Hcalc _ IH]; [done|].
  change (sumNumber total (calc :: rest))
    with (total calc + sumNumber total rest)%number.
  change (sumNumber installationPrice (calc :: rest))
    with (installationPrice calc + sumNumber installationPrice rest)%number.
  change (sumOf subtotal (calc :: rest))
    with (subtotal calc + sumOf subtotal rest).
  rewrite Hcalc, IH.
  destruct (installationPrice calc), (sumNumber installationPrice rest);
    simpl; try done.
  f_equal. lia.
Qed.

Lemma sumNumber_zero {A : Type} (f : A → number) (l : list A) :
  Forall (λ x, f x = Num 0) l → sumNumber f l = Num 0.
Proof.
  unfold sumNumber. induction 1 as [|x rest Hx _ IH]; simpl; [done|].
  by rewrite Hx, IH.
Qed.

Lemma linesFor_total `{JSDate} customerType pricingMode startDate endDate
    packageOption includeInstallation rows billboards :
  Forall (λ calc, total calc = (subtotal calc + installationPrice calc)%number
                  ∧ (includeInstallation = false → installationPrice calc = 0))
    (linesFor customerType pricingMode startDate endDate packageOption
       includeInstallation rows billboards).
Proof.
  unfold linesFor. apply Forall_fmap, Forall_forall. intros b _. unfold lineFor.
  destruct pricingMode, packageOption; simpl; (split; [done|by intros ->]).
Qed.

(** X9. [generateQuote] fails when the batch calculation fails, with the
    same message and the same world; and in the package mode it fails also
    after a batch that returned, when the start date is no date (or the day
    that ends the package is past the range of dates): [toISOString] then
    throws its [RangeError], and no quote is built.  In every other case it
    returns a quote over the calculations of the batch, whose grand total
    is the sum of the totals of its lines; without installation the
    installation total is 0 and the grand total is the subtotal; and for an
    empty list of billboards the quote has no line and all its totals are
    0. *)
Theorem generateQuote_outcome `{JSDate} (customerInfo : CustomerInfo)
    (billboards : list BillboardPricingData) (pricingMode : PricingMode)
    (startDate : string) (endDate : option string)
    (packageOption : option PackageOption) (includeInstallation : bool)
    (w : World) :
  match calculateMultipleBillboards billboards (ci_customerType customerInfo)
          pricingMode startDate endDate packageOption includeInstallation w with
  | (Thrown message, w') =>
      generateQuote customerInfo billboards pricingMode startDate endDate
        packageOption includeInstallation w = (Thrown message, w')
  | (Returned calculations, w') =>
      if quoteDatesValid pricingMode startDate packageOption
      then
        ∃ quote,
          returns (generateQuote customerInfo billboards pricingMode startDate
                     endDate packageOption includeInstallation) w quote w'
          ∧ q_billboards quote = calculations
          ∧ q_grandTotal quote = sumNumber total calculations
          ∧ (includeInstallation = false →
             q_totalInstallation quote = 0
             ∧ q_grandTotal quote = q_subtotal quote)
          ∧ (billboards = [] →
             calculations = [] ∧ q_subtotal quote = 0
             ∧ q_totalInstallation quote = 0 ∧ q_grandTotal quote = 0)
      else
        generateQuote customerInfo billboards pricingMode startDate endDate
          packageOption includeInstallation w = (Thrown Date_invalidTime, w')
  end.
Proof.
  destruct (calculateMultipleBillboards billboards (ci_customerType customerInfo)
              pricingMode startDate endDate packageOption includeInstallation w)
    as [[calculations|message] w'] eqn:Hbatch.
  - assert (Forall (λ calc,
                      total calc = (subtotal calc + installationPrice calc)%number
                      ∧ (includeInstallation = false →
                         installationPrice calc = 0)) calculations)
      as Hlines.
    { destruct (calculateMultipleBillboards_inv _ _ _ _ _ _ _ _ _ _ Hbatch)
        as [(_ & -> & _)|(_ & _ & rows & _ & ->)]; [done|].
      apply linesFor_total. }
    pose proof (generateQuote_run customerInfo billboards pricingMode startDate
                  endDate packageOption includeInstallation w calculations w'
                  Hbatch) as Hrun.
    destruct (quoteDatesValid pricingMode startDate packageOption); [|exact Hrun].
    destruct Hrun as (quote & Hquote & Hq & Hsub & Hinst & Hgrand).
    exists quote. split; [exact Hquote|]. split; [exact Hq|].
    rewrite Hsub, Hinst, Hgrand. split; [|split].
    + rewrite sumNumber_total; [done|].
      eapply Forall_impl; [exact Hlines|]. by intros calc [Htotal _].
    + intros Hinc.
      rewrite (sumNumber_zero installationPrice calculations).
      * split; [done|]. simpl. by rewrite Z.add_0_r.
      * eapply Forall_impl; [exact Hlines|]. intros calc [_ Hfee]. by apply Hfee.
    + intros ->. injection Hbatch as <- <-. done.
  - unfold generateQuote, bind. by rewrite Hbatch.
Qed.

(** ** The number of days of the daily mode *)

(** X10. The daily calculation does not check the order of its two dates,
    and its day count follows the end date: a later end never gives fewer
    days, an end one whole day later gives exactly one day more, and an end
    that lies a whole day or more before the start gives a day count of 0
    or less, hence a subtotal of the opposite sign of the daily price.  The
    daily price itself does not depend on the dates. *)
Theorem calculateDailyPrice_day_count `{JSDate} (billboard : BillboardPricingData)
    (customerType : CustomerType) (startDate endDate endDate' : string)
    (includeInstallation : bool) (w : World) :
  ∃ calc calc' w',
    returns (calculateDailyPrice billboard customerType startDate endDate
               includeInstallation) w calc w'
    ∧ returns (calculateDailyPrice billboard customerType startDate endDate'
                 includeInstallation) w calc' w'
    ∧ dailyPrice calc' = dailyPrice calc
    ∧ (Date_getTime endDate ≤ Date_getTime endDate' →
       totalDays calc ≤ totalDays calc')
    ∧ (Date_getTime endDate' = Date_getTime endDate + 86400000 →
       totalDays calc' = totalDays calc + 1)
    ∧ (Date_getTime endDate ≤ Date_getTime startDate - 86400000 →
       totalDays calc ≤ 0
       ∧ (0 ≤ dailyPrice calc → subtotal calc ≤ 0))
    ∧ (Date_getTime startDate ≤ Date_getTime endDate → 1 ≤ totalDays calc).
Proof.
  destruct (calculateDailyPrice_run billboard customerType startDate endDate
              includeInstallation w) as (price & fee & w' & Hprice & Hfee & Hrun).
  destruct (calculateDailyPrice_run billboard customerType startDate endDate'
              includeInstallation w)
    as (price' & fee' & w'' & Hprice' & Hfee' & Hrun').
  destruct (returns_inj _ _ _ _ _ _ Hprice Hprice') as [<- <-].
  pose proof (Math_ceil_bounds (Date_getTime endDate - Date_getTime startDate)
                86400000 ltac:(lia)) as Hceil.
  pose proof (Math_ceil_bounds (Date_getTime endDate' - Date_getTime startDate)
                86400000 ltac:(lia)) as Hceil'.
  eexists _, _, w'. split; [exact Hrun|]. split; [exact Hrun'|]. simpl.
  split; [done|]. split; [lia|]. split; [lia|]. split; [|lia].
  intros Hbefore. split; [lia|]. intros Hprice0.
  apply Z.mul_nonneg_nonpos; lia.
Qed.

(** ** The installation fee, continued *)

(** X11. Whatever the size and the municipality, [getInstallationPrice]
    returns and leaves the world as it is.  Its fee is NaN exactly when the
    size or the municipality is the name of a property that every object
    inherits; in every other case it is the rounded product of the base of
    the size and the multiplier of the municipality, the defaults 500 and 1
    standing in for a name that a table lacks, and it lies between 450 and
    1800. *)
Theorem getInstallationPrice_range (size municipality : string) (w : World) :
  ∃ fee,
    returns (getInstallationPrice size municipality) w fee w
    ∧ (fee = NaN ↔ inherited size = true ∨ inherited municipality = true)
    ∧ ∀ n : Z,
        fee = Num n →
        n = Math_round (inject_Z (default 500 (installationPrices !! size))
                        * default 1%Q (municipalityMultipliers !! municipality))
        ∧ 450 ≤ n ≤ 1800.
Proof.
  exists (installationFee size municipality).
  split; [apply getInstallationPrice_run|].
  rewrite installationFee_cases.
  pose proof (roundedProduct_bounds size municipality) as Hbounds.
  destruct (inherited size), (inherited municipality); simpl.
  - split; [by split; [left|]|done].
  - split; [by split; [left|]|done].
  - split; [by split; [right|]|done].
  - split.
    + split; [done|]. by intros [|].
    + intros n [= <-]. done.
Qed.

(** ** The import and the backend *)

(** The import against a backend, fault by fault. *)
Lemma updatePricingData_run (csvData : string) (t : Z)
    (cache : option CacheRecord) (old : list PricingRow)
    (onSelect' onDelete' onInsert' : Fault) :
  let w :=
    {| now := t; localStorage := cache;
       supabase := Some {| table := old; onSelect := onSelect';
                           onDelete := onDelete'; onInsert := onInsert' |} |} in
  ∃ result w',
    returns (updatePricingData csvData) w result w'
    ∧ now w' = t
    ∧ table <$> supabase w'
      = Some match onDelete', onInsert' with
             | Rejects _, _ => old
             | Works, Works => spared old ++ parseCSV csvData
             | Works, _ => spared old
             | ReportsError _, Works => old ++ parseCSV csvData
             | ReportsError _, _ => old
             end
    ∧ result
      = match onDelete', onInsert' with
        | Rejects message, _ | _, ReportsError message | _, Rejects message =>
            {| success := false; imported := 0; errors := [message] |}
        | _, Works =>
            {| success := true;
               imported := Z.of_nat (length (parseCSV csvData));
               errors := [] |}
        end
    ∧ localStorage w' = if success result then None else cache.
Proof.
  intros w. subst w. unfold updatePricingData, deleteAll, insertRows, clearCache.
  run_M. cbn [supabase onDelete onInsert table now localStorage].
  destruct onDelete' as [|e|e]; cbn [supabase onDelete onInsert table now localStorage];
    destruct onInsert' as [|e'|e'];
    cbn [supabase onDelete onInsert table now localStorage];
    eexists _, _; (split; [reflexivity|]); done.
Qed.

(** X12. The import never throws, and it replaces the table in two steps
    that are not tied together.  The answer to the delete request is not
    looked at: when the delete works and the insert fails, the import
    reports the failure and the table is left without its rows; when the
    delete reports an error and the insert works, the import reports
    success and the table holds the old rows beside the new ones.  Only a
    rejected delete request stops the import before the insert.  A delete
    that works removes every row but those whose id is -1, which its
    filter [neq('id', -1)] spares; a table has none unless one was
    imported.  The cache is cleared exactly when the import reports
    success, and a failure is reported with no imported row and one error
    message. *)
Theorem updatePricingData_outcomes (csvData : string) (t : Z)
    (cache : option CacheRecord) (old : list PricingRow)
    (onSelect' onDelete' onInsert' : Fault) :
  let w :=
    {| now := t; localStorage := cache;
       supabase := Some {| table := old; onSelect := onSelect';
                           onDelete := onDelete'; onInsert := onInsert' |} |} in
  ∃ result w',
    returns (updatePricingData csvData) w result w'
    ∧ now w' = t
    ∧ table <$> supabase w'
      = Some match onDelete', onInsert' with
             | Rejects _, _ => old
             | Works, Works => spared old ++ parseCSV csvData
             | Works, _ => spared old
             | ReportsError _, Works => old ++ parseCSV csvData
             | ReportsError _, _ => old
             end
    ∧ result
      = match onDelete', onInsert' with
        | Rejects message, _ | _, ReportsError message | _, Rejects message =>
            {| success := false; imported := 0; errors := [message] |}
        | _, Works =>
            {| success := true;
               imported := Z.of_nat (length (parseCSV csvData));
               errors := [] |}
        end
    ∧ localStorage w' = if success result then None else cache.
Proof.
  exact (updatePricingData_run csvData t cache old onSelect' onDelete' onInsert').
Qed.

(** X13. After an import that reports success the next load does not
    serve the cache, however fresh its entry was: it reads the table of the
    backend.  After an import that reports a failure the entry is still
    served, even when the import has emptied the table behind it. *)
Theorem updatePricingData_then_load (csvData : string) (t : Z)
    (cached old : list PricingRow) (onDelete' onInsert' : Fault) :
  let w :=
    {| now := t;
       localStorage := Some {| cache_data := cached; cache_timestamp := t |};
       supabase := Some {| table := old; onSelect := Works;
                           onDelete := onDelete'; onInsert := onInsert' |} |} in
  ∃ result w1 loaded w2,
    returns (updatePricingData csvData) w result w1
    ∧ returns getAllPricingData w1 loaded w2
    ∧ if success result
      then table <$> supabase w1 = Some loaded
      else loaded = cached.
Proof.
  intros w.
  destruct (updatePricingData_run csvData t
              (Some {| cache_data := cached; cache_timestamp := t |}) old Works
              onDelete' onInsert')
    as (result & w1 & Hrun & Hnow & Htable & Hresult & Hcache).
  destruct (getAllPricingData_run w1)
    as (loaded & w2 & Hload & _ & _ & Hcase).
  exists result, w1, loaded, w2. split; [exact Hrun|]. split; [exact Hload|].
  assert (onSelect <$> supabase w1 = Some Works) as Hselect.
  { revert Hrun. unfold updatePricingData, deleteAll, insertRows, clearCache.
    run_M. cbn [supabase onDelete onInsert table now localStorage].
    destruct onDelete' as [|e|e];
      cbn [supabase onDelete onInsert table now localStorage];
      destruct onInsert' as [|e'|e'];
      cbn [supabase onDelete onInsert table now localStorage];
      by intros [= <- <-]. }
  unfold freshCache in Hcase. rewrite Hcache, Hnow in Hcase.
  destruct (success result).
  - destruct (supabase w1) as [client|]; [|done]. simpl in Hselect, Htable.
    injection Hselect as Hselect. rewrite Hselect in Hcase.
    destruct Hcase as [-> _]. done.
  - cbn [cache_timestamp cache_data] in Hcase.
    destruct (decide (t - t ≤ CACHE_DURATION)) as [|Hn]; [by destruct Hcase|].
    exfalso. apply Hn. unfold CACHE_DURATION. lia.
Qed.

Lemma parseLine_absent (headers : list string) (line name : string) :
  name ∉ headers → get (parseLine headers line) name = VUndefined.
Proof.
  intros Hnot. unfold get, parseLine. by rewrite forEachHeader_absent.
Qed.

Lemma parseCSV_without_key_column (csvData : string) :
  let headers := split "," (hd EmptyString (split newline (trim csvData))) in
  col_size ∉ headers ∨ col_level ∉ headers ∨ col_customer ∉ headers →
  parseCSV csvData = [].
Proof.
  intros headers Hmissing. unfold parseCSV. fold headers.
  rewrite forLines_filter. cbn [app].
  induction (tail (split newline (trim csvData))) as [|line rest IH]; [done|].
  rewrite fmap_cons, filter_cons, IH.
  rewrite decide_False; [done|]. unfold acceptedRow.
  destruct Hmissing as [Hm|[Hm|Hm]];
    rewrite (parseLine_absent headers line _ Hm); simpl;
    rewrite ?andb_false_r; done.
Qed.

(** X14. A file whose header line lacks one of the three key columns
    ([المقاس], [المستوى], [الزبون]; header names are compared as they are,
    untrimmed) has no acceptable line.  The import of such a file is not
    refused: with a working backend it deletes the rows of the table (those
    with the id -1 apart, which the delete request spares), inserts nothing
    and reports success with 0 rows. *)
Theorem updatePricingData_without_key_column (csvData : string) (w : World)
    (client : Backend) :
  let headers := split "," (hd EmptyString (split newline (trim csvData))) in
  col_size ∉ headers ∨ col_level ∉ headers ∨ col_customer ∉ headers →
  supabase w = Some client → onDelete client = Works → onInsert client = Works →
  parseCSV csvData = []
  ∧ ∃ w',
      returns (updatePricingData csvData) w
        {| success := true; imported := 0; errors := [] |} w'
      ∧ table <$> supabase w' = Some (spared (table client)).
Proof.
  intros headers Hmissing Hclient Hdelete Hinsert.
  pose proof (parseCSV_without_key_column csvData Hmissing) as Hrows.
  split; [exact Hrows|].
  destruct (updatePricingData_replaces csvData w client Hclient Hdelete Hinsert)
    as (w' & Hrun & _ & Htable).
  rewrite Hrows in Hrun, Htable. rewrite app_nil_r in Htable. by exists w'.
Qed.

Lemma updatePricingData_without_key_column_witness :
  parseCSV ("size,level,customer" +:+ String newline "13x5,A,عادي") = []
  ∧ ∃ w',
      returns (updatePricingData
                 ("size,level,customer" +:+ String newline "13x5,A,عادي"))
        (onlineWorld getFallbackData)
        {| success := true; imported := 0; errors := [] |} w'
      ∧ table <$> supabase w' = Some [].
Proof.
  assert (spared getFallbackData = []) as Hspared
    by (apply (bool_decide_unpack _); vm_compute; reflexivity).
  destruct (updatePricingData_without_key_column
              ("size,level,customer" +:+ String newline "13x5,A,عادي")
              (onlineWorld getFallbackData) (workingBackend getFallbackData))
    as (Hrows & w' & Hrun & Htable).
  - left. apply (bool_decide_unpack _). vm_compute. reflexivity.
  - reflexivity.
  - reflexivity.
  - reflexivity.
  - split; [exact Hrows|]. exists w'. split; [exact Hrun|].
    rewrite Htable. cbn [table workingBackend]. by rewrite Hspared.
Defined.

(** ** The exported text *)

Lemma exportLine_split (row : PricingRow) :
  exportable row →
  split "," (join "," (toJoinString <$> exportCells row))
  = toJoinString <$> exportCells row.
Proof.
  intros Hrow. apply (split_join ","); [done|]. apply exportLine_without; auto.
Qed.

Lemma exportToCSV_split (pricingData : list PricingRow) :
  Forall exportable pricingData →
  split newline (exportToCSV pricingData)
  = join "," exportHeaders
    :: ((λ row, join "," (toJoinString <$> exportCells row)) <$> pricingData).
Proof.
  intros Hrows. unfold exportToCSV. apply (split_join newline); [done|].
  apply Forall_cons_2; [by vm_compute|]. apply Forall_fmap.
  eapply Forall_impl; [exact Hrows|]. intros row Hrow. cbv beta.
  apply contains_join; [done|]. apply exportLine_without; auto.
Qed.

(** X15. The text exported from a table of exportable rows has one header
    line and one line per row, in the order of the rows; split at the
    commas, the header line gives the ten column names and every other line
    gives ten cells. *)
Theorem exportToCSV_format (pricingData : list PricingRow) :
  Forall exportable pricingData →
  ∃ lines,
    split newline (exportToCSV pricingData) = join "," exportHeaders :: lines
    ∧ split "," (join "," exportHeaders) = exportHeaders
    ∧ length lines = length pricingData
    ∧ Forall (λ line, length (split "," line) = 10%nat) lines
    ∧ ∀ i row,
        pricingData !! i = Some row →
        (split "," <$> lines !! i) = Some (toJoinString <$> exportCells row).
Proof.
  intros Hrows. eexists. split; [by apply exportToCSV_split|].
  split; [by vm_compute|]. split; [by rewrite length_fmap|]. split.
  - apply Forall_fmap. eapply Forall_impl; [exact Hrows|]. intros row Hrow.
    cbv beta. unfold compose. by rewrite exportLine_split.
  - intros i row Hi. rewrite list_lookup_fmap, Hi.
    cbn [fmap option_fmap option_map].
    rewrite exportLine_split; [done|].
    rewrite Forall_lookup in Hrows. by apply (Hrows i).
Qed.

Lemma exportable_fallback : Forall exportable getFallbackData.
Proof.
  repeat apply Forall_cons_2; [| |apply Forall_nil_2].
  all: repeat split;
    try (eexists; split; [vm_compute; reflexivity|repeat split; by vm_compute]);
    try (right; eexists; vm_compute; reflexivity).
  all: intros key Hkey; unfold priceColumns in Hkey;
    repeat (apply elem_of_cons in Hkey as [->|Hkey]);
    try (right; eexists; vm_compute; reflexivity);
    by apply elem_of_nil in Hkey.
Qed.

Lemma exportToCSV_format_witness :
  ∃ lines,
    split newline (exportToCSV getFallbackData) = join "," exportHeaders :: lines
    ∧ length lines = 2%nat.
Proof.
  destruct (exportToCSV_format getFallbackData exportable_fallback)
    as (lines & Hsplit & _ & Hlength & _).
  exists lines. split; [exact Hsplit|exact Hlength].
Defined.

(** What the import reads back from the line of an exportable row, column
    by column. *)
Lemma parseLine_exportLine_lookup (row : PricingRow) (i : nat) (key : string) :
  exportable row →
  exportHeaders !! i = Some key →
  parseLine exportHeaders (join "," (toJoinString <$> exportCells row)) !! key
  = Some (columnValue key (trim <$> (toJoinString <$> exportCells row) !! i)).
Proof.
  intros Hrow Hi. unfold parseLine. rewrite exportLine_split by done.
  by rewrite (forEachHeader_last exportHeaders 0 _ _ i key
                (exportHeaders_stored i key Hi) Hi
                (exportHeaders_last i key Hi)).
Qed.

Lemma parseLine_exportLine_id (row : PricingRow) :
  exportable row →
  get (parseLine exportHeaders (join "," (toJoinString <$> exportCells row))) col_id
  = match get row col_id with
    | VNumber n => if decide (n = 0) then VUndefined else VNumber n
    | _ => VUndefined
    end.
Proof.
  intros Hrow. unfold get at 1.
  rewrite (parseLine_exportLine_lookup row 9 col_id Hrow eq_refl).
  destruct Hrow as (_ & _ & _ & _ & [Hid|[n Hid]]); rewrite Hid.
  - cbn [exportCells fmap list_fmap lookup list_lookup]. rewrite Hid. by vm_compute.
  - cbn [exportCells fmap list_fmap lookup list_lookup]. rewrite Hid.
    unfold or_else. cbn [truthy].
    destruct (Z.eqb_spec n 0) as [->|Hn]; [by vm_compute|].
    cbn [negb toJoinString option_map fmap option_fmap default].
    unfold columnValue. rewrite decide_True by done.
    rewrite trim_Number_toString, parseInt_Number_toString.
    by rewrite !decide_False by done.
Qed.

Lemma exportCells_reimported (row : PricingRow) :
  exportable row →
  toJoinString
    <$> exportCells
          (parseLine exportHeaders (join "," (toJoinString <$> exportCells row)))
  = toJoinString <$> exportCells row.
Proof.
  intros Hrow.
  destruct (parseLine_exportLine row Hrow)
    as (Hsize & Hlevel & Hcustomer & Hprices & _).
  pose proof (parseLine_exportLine_id row Hrow) as Hid.
  destruct (exportCells_text row Hrow)
    as (size & level & customer & idText & _ & _ & _ & _ & _ & _ & _ & Hcells).
  assert (∀ key, key ∈ priceColumns →
            toJoinString (or_else (get row key) (VNumber 0))
            = toJoinString (or_else (VNumber (priceOf row key)) (VNumber 0)))
    as Hcell.
  { intros key Hkey. destruct Hrow as (_ & _ & _ & Hnumbers & _).
    unfold priceOf. destruct (Hnumbers key Hkey) as [->|[n ->]]; [done|].
    done. }
  unfold exportCells at 1. rewrite Hsize, Hlevel, Hcustomer, Hid.
  rewrite !Hprices by (apply (bool_decide_unpack _); by vm_compute).
  unfold exportCells. cbn [fmap list_fmap].
  rewrite <- !Hcell by (apply (bool_decide_unpack _); by vm_compute).
  do 10 f_equal.
  destruct Hrow as (_ & _ & _ & _ & [Hn|[n Hn]]); rewrite Hn; [done|].
  unfold or_else. cbn [truthy].
  destruct (decide (n = 0)) as [->|Hne]; [done|].
  cbn [truthy]. by destruct (Z.eqb_spec n 0).
Qed.

(** X16. Exporting what was imported from an export gives the same text
    again: for a table of exportable rows, export, import and export
    produce the text of the first export, and importing that text again
    gives the rows of the first import.  What a round trip changes (an
    identifier 0 and an absent price) it changes once. *)
Theorem export_import_export (pricingData : list PricingRow) :
  Forall exportable pricingData →
  exportToCSV (parseCSV (exportToCSV pricingData)) = exportToCSV pricingData
  ∧ parseCSV (exportToCSV (parseCSV (exportToCSV pricingData)))
    = parseCSV (exportToCSV pricingData).
Proof.
  intros Hrows.
  assert (exportToCSV (parseCSV (exportToCSV pricingData))
          = exportToCSV pricingData) as Hexport.
  { rewrite parseCSV_exportToCSV by done. unfold exportToCSV.
    rewrite <- list_fmap_compose. do 2 f_equal.
    apply Forall_fmap_ext_1. eapply Forall_impl; [exact Hrows|].
    intros row Hrow. unfold compose. by rewrite exportCells_reimported. }
  split; [exact Hexport|]. by rewrite Hexport.
Qed.

Lemma export_import_export_witness :
  exportToCSV (parseCSV (exportToCSV getFallbackData)) = exportToCSV getFallbackData.
Proof.
  destruct (export_import_export getFallbackData exportable_fallback)
    as [Hexport _].
  exact Hexport.
Defined.

Lemma resolve_reimported size level customerType pricingKey
    (pricingData : list PricingRow) :
  Forall exportable pricingData →
  pricingKey ∈ priceColumns →
  resolve size level customerType pricingKey (parseCSV (exportToCSV pricingData))
  = resolve size level customerType pricingKey pricingData.
Proof.
  intros Hrows Hkey. rewrite parseCSV_exportToCSV by done. unfold resolve.
  induction Hrows as [|row rest Hrow _ IH]; [done|].
  rewrite fmap_cons. cbn [List.find].
  destruct (parseLine_exportLine row Hrow)
    as (Hsize & Hlevel & Hcustomer & Hprices & _).
  assert (rowMatches size level customerType
            (parseLine exportHeaders (join "," (toJoinString <$> exportCells row)))
          = rowMatches size level customerType row) as ->.
  { unfold rowMatches. by rewrite Hsize, Hlevel, Hcustomer. }
  destruct (rowMatches size level customerType row); [|exact IH].
  unfold priceOf at 1. by rewrite (Hprices pricingKey Hkey).
Qed.

(** X17. Prices survive an export and import: with a backend that holds
    the rows imported from the export of a table of exportable rows, every
    price of a duration column is resolved as with the table itself. *)
Theorem findPriceForBillboard_after_roundtrip (size : string)
    (level : PriceListType) (customerType : CustomerType) (pricingKey : string)
    (pricingData : list PricingRow) :
  Forall exportable pricingData →
  pricingKey ∈ priceColumns →
  ∃ price w1 w2,
    returns (findPriceForBillboard size level customerType pricingKey)
      (onlineWorld pricingData) price w1
    ∧ returns (findPriceForBillboard size level customerType pricingKey)
        (onlineWorld (parseCSV (exportToCSV pricingData))) price w2.
Proof.
  intros Hrows Hkey.
  assert (∀ rows, ∃ w', returns getAllPricingData (onlineWorld rows) rows w')
    as Hload.
  { intros rows.
    destruct (getAllPricingData_run (onlineWorld rows))
      as (loaded & w' & Hload & _ & _ & Hcase).
    cbn in Hcase. destruct Hcase as [-> _]. by exists w'. }
  destruct (Hload pricingData) as [w1 Hload1].
  destruct (Hload (parseCSV (exportToCSV pricingData))) as [w2 Hload2].
  exists (resolve size level customerType pricingKey pricingData), w1, w2. split.
  - by apply findPriceForBillboard_resolve.
  - rewrite <- (resolve_reimported size level customerType pricingKey pricingData)
      by done.
    by apply findPriceForBillboard_resolve.
Qed.

Lemma findPriceForBillboard_after_roundtrip_witness :
  ∃ price w1 w2,
    returns (findPriceForBillboard "13x5" "A" Regular col_oneMonth)
      (onlineWorld getFallbackData) price w1
    ∧ returns (findPriceForBillboard "13x5" "A" Regular col_oneMonth)
        (onlineWorld (parseCSV (exportToCSV getFallbackData))) price w2.
Proof.
  apply (findPriceForBillboard_after_roundtrip "13x5" "A" Regular col_oneMonth
           getFallbackData exportable_fallback).
  apply (bool_decide_unpack _). vm_compute. reflexivity.
Defined.

(** ** The pricing data manager: editing a cell *)

Lemma hasId_true (rowId : Z) (row : PricingRow) :
  Manager.hasId (Some rowId) row = true ↔ get row col_id = VNumber rowId.
Proof.
  unfold Manager.hasId. destruct (get row col_id) as [|m|]; try by split.
  destruct (Z.eqb_spec rowId m) as [->|Hne]; [done|].
  split; [done|]. intros [= ->]. done.
Qed.

Lemma hasId_decide (rowId : Z) (row : PricingRow) :
  Manager.hasId (Some rowId) row
  = bool_decide (get row col_id = VNumber rowId).
Proof.
  destruct (Manager.hasId (Some rowId) row) eqn:Hid.
  - apply hasId_true in Hid. by rewrite bool_decide_eq_true_2.
  - rewrite bool_decide_eq_false_2; [done|]. intros Heq.
    apply hasId_true in Heq. congruence.
Qed.

Lemma Number_toString_digits (n : Z) :
  0 ≤ n → allChars isDigit (Number_toString n) = true.
Proof.
  intros Hn. unfold Number_toString.
  destruct (Z.ltb_spec n 0); [lia|]. by apply digitsOf_chars.
Qed.

Lemma Number_toString_negative (n : Z) :
  n < 0 → ∃ digits, Number_toString n = String "-" digits.
Proof.
  intros Hn. unfold Number_toString. destruct (Z.ltb_spec n 0); [|lia]. eauto.
Qed.

Lemma Number_toString_not_empty (n : Z) (rest : string) :
  Number_toString n +:+ rest ≠ EmptyString.
Proof.
  unfold Number_toString. destruct (n <? 0); [done|].
  destruct (digitsOf_first (Z.to_nat (Z.log2 n)) n EmptyString) as (a & r & -> & _).
  done.
Qed.

Lemma given_not_empty (text : string) :
  text ≠ EmptyString → given (Some text) = Some text.
Proof. intros Hne. unfold given. by destruct (String.eqb_spec text EmptyString). Qed.

Lemma cellKey_split (rowId : Z) (column : string) :
  0 ≤ rowId → contains "-" column = false →
  split "-" (Number_toString rowId +:+ "-" +:+ column)
  = [Number_toString rowId; column].
Proof.
  intros Hid Hcolumn. change ("-" +:+ column) with (String "-" column).
  rewrite split_append.
  - by rewrite split_without.
  - apply (allChars_contains isDigit); [done|]. by apply Number_toString_digits.
Qed.

Lemma parseInt_or_zero (text : string) :
  parseInt_or (Some text) (VNumber 0) = VNumber (default 0 (parseInt (Some text))).
Proof.
  unfold parseInt_or. destruct (parseInt (Some text)) as [n|]; [|done].
  simpl. by destruct (Z.eqb_spec n 0) as [->|].
Qed.

Lemma find_elem {A : Type} (p : A → bool) (l : list A) (x : A) :
  x ∈ l → p x = true → ∃ y, List.find p l = Some y.
Proof.
  intros Hin Hp. destruct (List.find p l) as [y|] eqn:Hfind; [eauto|].
  apply list_elem_of_In in Hin.
  pose proof (find_none p l Hfind x Hin). congruence.
Qed.

(** Saving the value typed into the cell opened for a row that exists. *)
Lemma saveEdit_run (rowId : Z) (column text : string) (s : Manager.State)
    (row0 : PricingRow) :
  0 ≤ rowId → contains "-" column = false →
  List.find (Manager.hasId (Some rowId)) (Manager.pricingData s) = Some row0 →
  Manager.saveEdit (Manager.setEditingValue text (Manager.startEdit rowId column s))
  = {| Manager.pricingData :=
         (λ row : PricingRow,
            if bool_decide (get row col_id = VNumber rowId)
            then <[column := VNumber (default 0 (parseInt (Some text)))]> row
            else row) <$> Manager.pricingData s;
       Manager.editingCell := None;
       Manager.editingValue := EmptyString;
       Manager.error := EmptyString;
       Manager.success := "تم تحديث السعر بنجاح" |}.
Proof.
  intros Hid Hcolumn Hfind.
  unfold Manager.startEdit. rewrite Hfind.
  unfold Manager.setEditingValue, Manager.saveEdit, Manager.showSuccess.
  cbn [Manager.editingCell Manager.editingValue Manager.pricingData
       Manager.error Manager.success].
  rewrite given_not_empty by apply Number_toString_not_empty.
  rewrite cellKey_split by done.
  cbn [hd lookup list_lookup default]. rewrite parseInt_Number_toString.
  rewrite parseInt_or_zero. f_equal.
  apply list_fmap_ext. intros _ row _. by rewrite hasId_decide.
Qed.

(** X18. Editing a cell commits what was typed: after [startEdit] on the
    row with identifier [rowId] (not negative) and a column whose name has
    no hyphen, typing [text] and [saveEdit], every row with that identifier
    holds under the column the integer that [parseInt] reads from [text],
    0 when it reads none; every other row, and every other property, is as
    before; the table keeps its length and order, and the editor is
    closed. *)
Theorem saveEdit_commits (rowId : Z) (column text : string) (s : Manager.State) :
  0 ≤ rowId → contains "-" column = false →
  (∃ row, row ∈ Manager.pricingData s ∧ get row col_id = VNumber rowId) →
  let s' :=
    Manager.saveEdit
      (Manager.setEditingValue text (Manager.startEdit rowId column s)) in
  Manager.editingCell s' = None
  ∧ Manager.editingValue s' = EmptyString
  ∧ length (Manager.pricingData s') = length (Manager.pricingData s)
  ∧ ∀ i row,
      Manager.pricingData s !! i = Some row →
      ∃ row',
        Manager.pricingData s' !! i = Some row'
        ∧ (∀ key, key ≠ column → row' !! key = row !! key)
        ∧ (get row col_id = VNumber rowId →
           row' !! column = Some (VNumber (default 0 (parseInt (Some text)))))
        ∧ (get row col_id ≠ VNumber rowId → row' = row).
Proof.
  intros Hid Hcolumn (row1 & Hin & Hrow1) s'.
  destruct (find_elem (Manager.hasId (Some rowId)) _ row1 Hin) as [row0 Hfind].
  { by apply hasId_true. }
  subst s'. rewrite (saveEdit_run rowId column text s row0 Hid Hcolumn Hfind).
  cbn [Manager.editingCell Manager.editingValue Manager.pricingData].
  split; [done|]. split; [done|]. split; [by rewrite length_fmap|].
  intros i row Hi. eexists. split.
  { rewrite list_lookup_fmap, Hi. reflexivity. }
  destruct (bool_decide_reflect (get row col_id = VNumber rowId)) as [Heq|Hne].
  - split; [|split].
    + intros key Hkey. by rewrite lookup_insert_ne.
    + intros _. by rewrite lookup_insert_eq.
    + done.
  - done.
Qed.

Lemma saveEdit_commits_witness :
  let s :=
    {| Manager.pricingData := getFallbackData; Manager.editingCell := None;
       Manager.editingValue := EmptyString; Manager.error := EmptyString;
       Manager.success := EmptyString |} in
  let s' :=
    Manager.saveEdit
      (Manager.setEditingValue "950" (Manager.startEdit 2 col_oneDay s)) in
  Manager.editingCell s' = None
  ∧ length (Manager.pricingData s') = 2%nat.
Proof.
  intros s s'.
  destruct (saveEdit_commits 2 col_oneDay "950" s) as (Hcell & _ & Hlength & _).
  - lia.
  - vm_compute. reflexivity.
  - eexists. split; [apply list_elem_of_lookup; by exists 1%nat|].
    vm_compute. reflexivity.
  - split; [exact Hcell|exact Hlength].
Defined.

(** X19. The key of the cell being edited is the identifier, a hyphen and
    the column, and [saveEdit] splits it at hyphens.  So for a row whose
    identifier is negative the edit is lost: the part before the first
    hyphen is empty, no row is updated, and the list of rows is as before,
    yet the editor closes with the message of a successful update. *)
Theorem saveEdit_negative_id (rowId : Z) (column text : string) (s : Manager.State) :
  rowId < 0 →
  (∃ row, row ∈ Manager.pricingData s ∧ get row col_id = VNumber rowId) →
  let s' :=
    Manager.saveEdit
      (Manager.setEditingValue text (Manager.startEdit rowId column s)) in
  Manager.pricingData s' = Manager.pricingData s
  ∧ Manager.editingCell s' = None
  ∧ Manager.success s' = "تم تحديث السعر بنجاح".
Proof.
  intros Hid (row1 & Hin & Hrow1) s'.
  destruct (find_elem (Manager.hasId (Some rowId)) _ row1 Hin) as [row0 Hfind].
  { by apply hasId_true. }
  subst s'. unfold Manager.startEdit. rewrite Hfind.
  unfold Manager.setEditingValue, Manager.saveEdit, Manager.showSuccess.
  cbn [Manager.editingCell Manager.editingValue Manager.pricingData
       Manager.error Manager.success].
  rewrite given_not_empty by apply Number_toString_not_empty.
  destruct (Number_toString_negative rowId Hid) as [digits ->].
  rewrite append_String. cbn [split]. rewrite Ascii.eqb_refl.
  cbn [hd]. split; [|done].
  replace (parseInt (Some EmptyString)) with (@None Z) by by vm_compute.
  cbn [Manager.hasId]. apply list_fmap_id.
Qed.

Lemma saveEdit_negative_id_witness :
  let s :=
    {| Manager.pricingData := [<[col_id := VNumber (-3)]> (sampleRow "13x5" "A")];
       Manager.editingCell := None; Manager.editingValue := EmptyString;
       Manager.error := EmptyString; Manager.success := EmptyString |} in
  Manager.pricingData
    (Manager.saveEdit
       (Manager.setEditingValue "950" (Manager.startEdit (-3) col_oneDay s)))
  = Manager.pricingData s.
Proof.
  intros s.
  destruct (saveEdit_negative_id (-3) col_oneDay "950" s) as (Hsame & _).
  - lia.
  - eexists. split; [apply list_elem_of_lookup; by exists 0%nat|].
    vm_compute. reflexivity.
  - exact Hsame.
Defined.

(** X20. Opening a cell and saving it without typing keeps its number: the
    editor shows the number of the first row with the identifier (nothing
    for 0 and for an absent value), and saving that text stores the same
    number again, 0 for an absent value. *)
Theorem saveEdit_untouched (rowId : Z) (column : string) (s : Manager.State)
    (row0 : PricingRow) :
  0 ≤ rowId → contains "-" column = false →
  List.find (Manager.hasId (Some rowId)) (Manager.pricingData s) = Some row0 →
  numberOrAbsent (get row0 column) →
  Manager.editingValue (Manager.startEdit rowId column s)
  = (if decide (priceOf row0 column = 0) then EmptyString
     else Number_toString (priceOf row0 column))
  ∧ Manager.pricingData (Manager.saveEdit (Manager.startEdit rowId column s))
    = (λ row : PricingRow,
         if bool_decide (get row col_id = VNumber rowId)
         then <[column := VNumber (priceOf row0 column)]> row
         else row) <$> Manager.pricingData s.
Proof.
  intros Hid Hcolumn Hfind Hnumber.
  assert (Manager.editingValue (Manager.startEdit rowId column s)
          = if decide (priceOf row0 column = 0) then EmptyString
            else Number_toString (priceOf row0 column)) as Hshown.
  { unfold Manager.startEdit. rewrite Hfind. cbn [Manager.editingValue].
    unfold priceOf, or_else.
    destruct Hnumber as [->|[n ->]]; [done|]. cbn [truthy].
    destruct (Z.eqb_spec n 0) as [->|Hn]; [done|]. by rewrite decide_False. }
  split; [exact Hshown|].
  assert (Manager.startEdit rowId column s
          = Manager.setEditingValue
              (Manager.editingValue (Manager.startEdit rowId column s))
              (Manager.startEdit rowId column s)) as ->.
  { by destruct (Manager.startEdit rowId column s). }
  rewrite (saveEdit_run rowId column _ s row0 Hid Hcolumn Hfind).
  cbn [Manager.pricingData]. rewrite Hshown.
  assert (default 0 (parseInt (Some (if decide (priceOf row0 column = 0)
                                     then EmptyString
                                     else Number_toString (priceOf row0 column))))
          = priceOf row0 column) as ->; [|done].
  destruct (decide (priceOf row0 column = 0)) as [->|Hne]; [by vm_compute|].
  by rewrite parseInt_Number_toString.
Qed.

Lemma saveEdit_untouched_witness :
  let s :=
    {| Manager.pricingData := [sampleRow "13x5" "A"];
       Manager.editingCell := None; Manager.editingValue := EmptyString;
       Manager.error := EmptyString; Manager.success := EmptyString |} in
  Manager.editingValue (Manager.startEdit 7 col_oneDay s) = "800".
Proof.
  intros s.
  assert (Manager.hasId (Some 7) (sampleRow "13x5" "A") = true) as Hid
    by (vm_compute; reflexivity).
  destruct (saveEdit_untouched 7 col_oneDay s (sampleRow "13x5" "A"))
    as [Hshown _].
  - lia.
  - vm_compute. reflexivity.
  - subst s. cbn [Manager.pricingData List.find]. rewrite Hid. reflexivity.
  - right. exists 800. vm_compute. reflexivity.
  - rewrite Hshown. vm_compute. reflexivity.
Defined.

(** ** The pricing calculator *)

Lemma linesFor_arguments `{JSDate} customerType pricingMode startDate endDate
    endDate' packageOption packageOption' includeInstallation rows billboards :
  (pricingMode = daily → given endDate = given endDate') →
  (pricingMode = package →
   packageOption = packageOption' ∧ packageOption ≠ None) →
  linesFor customerType pricingMode startDate endDate packageOption
    includeInstallation rows billboards
  = linesFor customerType pricingMode startDate endDate' packageOption'
      includeInstallation rows billboards.
Proof.
  intros Hdaily Hpackage. unfold linesFor. apply list_fmap_ext. intros _ b _.
  unfold lineFor, priceKey. destruct pricingMode.
  - by rewrite (Hdaily eq_refl).
  - destruct (Hpackage eq_refl) as [<- Hsome]. by destruct packageOption.
Qed.

(** A batch run again with the arguments that its mode does not read
    changed. *)
Lemma calculateMultipleBillboards_again `{JSDate} billboards customerType
    pricingMode startDate endDate endDate' packageOption packageOption'
    includeInstallation w calculations w' :
  (pricingMode = daily → given endDate = given endDate') →
  (pricingMode = package →
   packageOption = packageOption' ∧ packageOption ≠ None) →
  returns (calculateMultipleBillboards billboards customerType pricingMode
             startDate endDate packageOption includeInstallation) w
    calculations w' →
  returns (calculateMultipleBillboards billboards customerType pricingMode
             startDate endDate' packageOption' includeInstallation) w'
    calculations w'.
Proof.
  intros Hdaily Hpackage Hrun.
  destruct (calculateMultipleBillboards_inv _ _ _ _ _ _ _ _ _ _ Hrun)
    as [(-> & -> & ->)|(Hne & Hvalid & rows & Hload & ->)]; [done|].
  destruct (getAllPricingData_settles w rows w' Hload) as (rows' & Hagain & Hsame).
  rewrite (linesFor_sameReadings _ _ _ _ _ _ rows rows' _ Hsame).
  rewrite (linesFor_arguments customerType pricingMode startDate endDate endDate'
             packageOption packageOption' includeInstallation rows' billboards
             Hdaily Hpackage).
  apply calculateMultipleBillboards_run; [|done|done].
  unfold validCombination in *. destruct pricingMode.
  - by rewrite <- (Hdaily eq_refl).
  - by destruct (Hpackage eq_refl) as [<- Hsome].
Qed.

Lemma blank_given (text : string) :
  Calculator.blank text = false → given (Some text) = Some text.
Proof.
  unfold Calculator.blank, given. by destruct (String.eqb text EmptyString).
Qed.

(** What [calculatePrices] does, path by path. *)
Lemma calculatePrices_run `{JSDate} (s : Calculator.State) (w : World) :
  ∃ s' w',
    returns (Calculator.calculatePrices s) w s' w'
    ∧ match Calculator.billboards s with
      | [] => s' = s ∧ w' = w
      | _ :: _ =>
          let s1 := Calculator.setError EmptyString (Calculator.setLoading true s) in
          match Calculator.pricingMode s with
          | daily =>
              if Calculator.blank (Calculator.endDate s)
              then s' = Calculator.setLoading false
                          (Calculator.setLoading false
                             (Calculator.setError Calculator.endDateMissing s1))
                   ∧ w' = w
              else ∃ calcs,
                     returns (calculateMultipleBillboards (Calculator.billboards s)
                                (Calculator.customerType s) daily
                                (Calculator.startDate s)
                                (Some (Calculator.endDate s)) None
                                (Calculator.includeInstallation s)) w calcs w'
                     ∧ billboard <$> calcs = Calculator.billboards s
                     ∧ s' = Calculator.setLoading false
                              (Calculator.setCalculations calcs s1)
          | package =>
              match Calculator.selectedPackage s with
              | None =>
                  s' = Calculator.setLoading false
                         (Calculator.setLoading false
                            (Calculator.setError Calculator.packageMissing s1))
                  ∧ w' = w
              | Some selected =>
                  ∃ calcs,
                    returns (calculateMultipleBillboards (Calculator.billboards s)
                               (Calculator.customerType s) package
                               (Calculator.startDate s) None (Some selected)
                               (Calculator.includeInstallation s)) w calcs w'
                    ∧ billboard <$> calcs = Calculator.billboards s
                    ∧ s' = Calculator.setLoading false
                             (Calculator.setCalculations calcs s1)
              end
          end
      end.
Proof.
  unfold Calculator.calculatePrices.
  destruct (Calculator.billboards s) as [|b rest] eqn:Hbillboards.
  { by exists s, w. }
  cbn [Calculator.pricingMode Calculator.setError Calculator.setLoading
       Calculator.endDate Calculator.selectedPackage Calculator.billboards
       Calculator.customerType Calculator.startDate
       Calculator.includeInstallation].
  rewrite Hbillboards.
  destruct (Calculator.pricingMode s).
  - destruct (Calculator.blank (Calculator.endDate s)) eqn:Hblank.
    + eexists _, _. split; [reflexivity|done].
    + destruct (calculateMultipleBillboards_valid (b :: rest)
                  (Calculator.customerType s) daily (Calculator.startDate s)
                  (Some (Calculator.endDate s)) None
                  (Calculator.includeInstallation s) w)
        as (calcs & w' & Hrun & Horder).
      { unfold validCombination. by rewrite (blank_given _ Hblank). }
      eexists _, w'. split.
      * run_M. rewrite Hrun. reflexivity.
      * by exists calcs.
  - destruct (Calculator.selectedPackage s) as [selected|].
    + destruct (calculateMultipleBillboards_valid (b :: rest)
                  (Calculator.customerType s) package (Calculator.startDate s)
                  None (Some selected) (Calculator.includeInstallation s) w)
        as (calcs & w' & Hrun & Horder).
      { done. }
      eexists _, w'. split.
      * run_M. rewrite Hrun. reflexivity.
      * by exists calcs.
    + eexists _, _. split; [reflexivity|done].
Qed.

(** X21. [calculatePrices] never throws and never reaches its [catch]
    clause: the two guards in front of the service call are the only cases
    in which the service would throw.  With no billboard it does nothing.
    Otherwise it ends with [loading] off and either one of the two guard
    messages, the calculations and the world as they were, or no message
    and one calculation per billboard, in the order of the billboards. *)
Theorem calculatePrices_outcome `{JSDate} (s : Calculator.State) (w : World) :
  ∃ s' w',
    returns (Calculator.calculatePrices s) w s' w'
    ∧ (Calculator.billboards s = [] → s' = s ∧ w' = w)
    ∧ (Calculator.billboards s ≠ [] →
       Calculator.loading s' = false
       ∧ Calculator.billboards s' = Calculator.billboards s
       ∧ ((Calculator.error s' = Calculator.endDateMissing
           ∧ Calculator.pricingMode s = daily
           ∧ Calculator.endDate s = EmptyString
           ∧ Calculator.calculations s' = Calculator.calculations s
           ∧ w' = w)
          ∨ (Calculator.error s' = Calculator.packageMissing
             ∧ Calculator.pricingMode s = package
             ∧ Calculator.selectedPackage s = None
             ∧ Calculator.calculations s' = Calculator.calculations s
             ∧ w' = w)
          ∨ (Calculator.error s' = EmptyString
             ∧ billboard <$> Calculator.calculations s' = Calculator.billboards s))).
Proof.
  destruct (calculatePrices_run s w) as (s' & w' & Hrun & Hcase).
  exists s', w'. split; [exact Hrun|].
  destruct (Calculator.billboards s) as [|b rest] eqn:Hbillboards.
  { split; [done|]. by intros Hne. }
  split; [done|]. intros _. cbv zeta in Hcase.
  destruct (Calculator.pricingMode s).
  - destruct (Calculator.blank (Calculator.endDate s)) eqn:Hblank.
    + destruct Hcase as [-> ->]. split; [done|]. split; [done|]. left.
      apply String.eqb_eq in Hblank. done.
    + destruct Hcase as (calcs & _ & Horder & ->). split; [done|].
      split; [done|]. right. right. done.
  - destruct (Calculator.selectedPackage s) as [selected|].
    + destruct Hcase as (calcs & _ & Horder & ->). split; [done|].
      split; [done|]. right. right. done.
    + destruct Hcase as [-> ->]. split; [done|]. split; [done|]. right. left.
      done.
Qed.

(** X22. The quote agrees with the screen.  When [calculatePrices] has
    ended without a message and the customer's name, e-mail and phone are
    filled in, the [generateQuote] handler, run at once, does one of two
    things.  If the end date of the quote can be printed (always in the
    daily mode; in the package mode when the start date is a date and the
    day that ends the package is one), it stores a quote and no message;
    the lines of the quote are the calculations on the screen, although the
    service computes them anew with other optional arguments, and its
    subtotal, installation total and grand total are those of
    [getTotalSummary].  Otherwise, as with a start date left empty in the
    package mode, which [calculatePrices] accepts, it stores no quote and
    shows the message of the [RangeError] that [toISOString] threw. *)
Theorem generateQuote_matches_summary `{JSDate} (s : Calculator.State) (w : World)
    (s1 : Calculator.State) (w1 : World) :
  Calculator.billboards s ≠ [] →
  Calculator.blank (Calculator.customerName s) = false →
  Calculator.blank (Calculator.customerEmail s) = false →
  Calculator.blank (Calculator.customerPhone s) = false →
  returns (Calculator.calculatePrices s) w s1 w1 →
  Calculator.error s1 = EmptyString →
  ∃ s2,
    returns (Calculator.generateQuote s1) w1 s2 w1
    ∧ Calculator.loading s2 = false
    ∧ Calculator.calculations s2 = Calculator.calculations s1
    ∧ if quoteDatesValid (Calculator.pricingMode s) (Calculator.startDate s)
           (Calculator.selectedPackage s)
      then
        ∃ quote,
          Calculator.generatedQuote s2 = Some quote
          ∧ Calculator.error s2 = EmptyString
          ∧ q_billboards quote = Calculator.calculations s1
          ∧ q_subtotal quote
            = Calculator.sum_subtotal (Calculator.getTotalSummary s1)
          ∧ q_totalInstallation quote
            = Calculator.sum_totalInstallation (Calculator.getTotalSummary s1)
          ∧ q_grandTotal quote
            = Calculator.sum_grandTotal (Calculator.getTotalSummary s1)
      else
        Calculator.generatedQuote s2 = Calculator.generatedQuote s
        ∧ Calculator.error s2 = Calculator.quoteFailed +:+ Date_invalidTime.
Proof.
  intros Hne Hname Hemail Hphone Hrun Herror.
  destruct (calculatePrices_run s w) as (s' & w' & Hrun' & Hcase).
  destruct (returns_inj _ _ _ _ _ _ Hrun Hrun') as [<- <-].
  destruct (Calculator.billboards s) as [|b rest] eqn:Hbillboards; [done|].
  cbv zeta in Hcase.
  assert (∃ calcs,
            returns (calculateMultipleBillboards (Calculator.billboards s)
                       (Calculator.customerType s) (Calculator.pricingMode s)
                       (Calculator.startDate s) (Some (Calculator.endDate s))
                       (Calculator.selectedPackage s)
                       (Calculator.includeInstallation s)) w1 calcs w1
            ∧ billboard <$> calcs = b :: rest
            ∧ s1 = Calculator.setLoading false
                     (Calculator.setCalculations calcs
                        (Calculator.setError EmptyString
                           (Calculator.setLoading true s))))
    as (calcs & Hbatch & Horder & ->).
  { rewrite Hbillboards. destruct (Calculator.pricingMode s).
    - destruct (Calculator.blank (Calculator.endDate s)) eqn:Hblank.
      { destruct Hcase as [-> _]. discriminate Herror. }
      destruct Hcase as (calcs & Hbatch & Horder & ->). exists calcs.
      split; [|done].
      eapply calculateMultipleBillboards_again; [| |exact Hbatch]; done.
    - destruct (Calculator.selectedPackage s) as [selected|].
      + destruct Hcase as (calcs & Hbatch & Horder & ->). exists calcs.
        split; [|done].
        eapply calculateMultipleBillboards_again; [| |exact Hbatch]; done.
      + destruct Hcase as [-> _]. discriminate Herror. }
  destruct calcs as [|calc calcs]; [done|].
  pose proof (generateQuote_run
                {| ci_name := Calculator.customerName s;
                   ci_email := Calculator.customerEmail s;
                   ci_phone := Calculator.customerPhone s;
                   ci_company := Some (Calculator.customerCompany s);
                   ci_customerType := Calculator.customerType s |}
                (Calculator.billboards s) (Calculator.pricingMode s)
                (Calculator.startDate s) (Some (Calculator.endDate s))
                (Calculator.selectedPackage s) (Calculator.includeInstallation s)
                w1 (calc :: calcs) w1 Hbatch) as Hquote.
  unfold Calculator.generateQuote.
  cbn [Calculator.customerName Calculator.customerEmail
       Calculator.customerPhone Calculator.customerCompany
       Calculator.calculations Calculator.setLoading
       Calculator.setCalculations Calculator.setError Calculator.billboards
       Calculator.pricingMode Calculator.startDate Calculator.endDate
       Calculator.selectedPackage Calculator.includeInstallation
       Calculator.customerType].
  rewrite Hname, Hemail, Hphone. cbn [orb].
  destruct (quoteDatesValid (Calculator.pricingMode s) (Calculator.startDate s)
              (Calculator.selectedPackage s)).
  - destruct Hquote as (quote & Hquote & Hlines & Hsub & Hinst & Hgrand).
    eexists. split.
    { run_M. rewrite Hquote. reflexivity. }
    cbn [Calculator.generatedQuote Calculator.error Calculator.loading
         Calculator.calculations Calculator.setLoading Calculator.setError
         Calculator.setGeneratedQuote Calculator.setCalculations].
    split; [done|]. split; [done|]. exists quote.
    unfold Calculator.getTotalSummary.
    cbn [Calculator.calculations Calculator.sum_subtotal
         Calculator.sum_totalInstallation Calculator.sum_grandTotal].
    rewrite fold_left_sumOf, fold_left_sumNumber, Z.add_0_l, number_add_0_l.
    rewrite Hlines, Hsub, Hinst, Hgrand. done.
  - eexists. split.
    { run_M. rewrite Hquote. reflexivity. }
    done.
Qed.

Lemma generateQuote_matches_summary_witness :
  let s :=
    {| Calculator.pricingMode := package; Calculator.customerType := Regular;
       Calculator.startDate := "2024-03-01"; Calculator.endDate := EmptyString;
       Calculator.selectedPackage := Some oneMonthPackage;
       Calculator.includeInstallation := true;
       Calculator.customerName := "Customer";
       Calculator.customerEmail := "customer@example.com";
       Calculator.customerPhone := "0910000000";
       Calculator.customerCompany := EmptyString;
       Calculator.billboards := [sampleBillboard];
       Calculator.calculations := []; Calculator.loading := false;
       Calculator.error := EmptyString; Calculator.generatedQuote := None |} in
  ∃ s1 w1 quote s2,
    returns (Calculator.calculatePrices s) (onlineWorld getFallbackData) s1 w1
    ∧ returns (Calculator.generateQuote s1) w1 s2 w1
    ∧ Calculator.generatedQuote s2 = Some quote
    ∧ q_grandTotal quote
      = Calculator.sum_grandTotal (Calculator.getTotalSummary s1).
Proof.
  intros s.
  destruct (calculatePrices_run s (onlineWorld getFallbackData))
    as (s1 & w1 & Hrun & Hcase).
  cbn in Hcase. destruct Hcase as (calcs & _ & _ & Hs1).
  destruct (generateQuote_matches_summary s (onlineWorld getFallbackData) s1 w1)
    as (s2 & Hquote & _ & _ & Hstored).
  - discriminate.
  - reflexivity.
  - reflexivity.
  - reflexivity.
  - exact Hrun.
  - rewrite Hs1. reflexivity.
  - replace (quoteDatesValid (Calculator.pricingMode s) (Calculator.startDate s)
               (Calculator.selectedPackage s)) with true in Hstored
      by (vm_compute; reflexivity).
    destruct Hstored as (quote & Hsome & _ & _ & _ & _ & Hgrand).
    by exists s1, w1, quote, s2.
Defined.

(** ** Manual billboards *)

Lemma Number_toString_inj (n m : Z) : Number_toString n = Number_toString m → n = m.
Proof.
  intros Heq.
  pose proof (parseInt_Number_toString n) as Hn. rewrite Heq in Hn.
  rewrite parseInt_Number_toString in Hn. congruence.
Qed.

Lemma manual_id_inj (t t' : Z) :
  "manual-" +:+ Number_toString t = "manual-" +:+ Number_toString t' ↔ t = t'.
Proof.
  split; [|by intros ->]. intros Heq. apply Number_toString_inj.
  by injection Heq.
Qed.

Lemma filter_keeps_all {A : Type} (f : A → bool) (l : list A) :
  Forall (λ x, f x = true) l → List.filter f l = l.
Proof. induction 1 as [|x l Hx _ IH]; simpl; [done|]. by rewrite Hx, IH. Qed.

(** X23. A manual billboard is identified by the clock alone.  Added at
    different instants, two manual billboards have different identifiers,
    and removing the second leaves the first; added at the same
    millisecond, they share their identifier, and removing one removes
    both.  In both cases the billboards that were there before, none of
    which has that identifier, stay in their order. *)
Theorem addManualBillboard_ids (s : Calculator.State) (w : World) (t' : Z) :
  ∃ s1 s2 b1 b2,
    returns (Calculator.addManualBillboard s) w s1 w
    ∧ returns (Calculator.addManualBillboard s1) (atTime t' w) s2 (atTime t' w)
    ∧ Calculator.billboards s1 = Calculator.billboards s ++ [b1]
    ∧ Calculator.billboards s2 = Calculator.billboards s ++ [b1; b2]
    ∧ (bb_id b1 = bb_id b2 ↔ t' = now w)
    ∧ (Forall (λ b, bb_id b ≠ bb_id b2) (Calculator.billboards s) →
       Calculator.billboards (Calculator.removeBillboard (bb_id b2) s2)
       = if decide (t' = now w) then Calculator.billboards s
         else Calculator.billboards s1).
Proof.
  pose (manual := λ t : Z,
          {| bb_id := "manual-" +:+ Number_toString t;
             bb_name := "لوحة يدوية"; bb_size := "5x13";
             bb_municipality := "مصراتة"; bb_level := "A"; bb_status := "متاح";
             bb_location := "موقع يدوي"; bb_imageUrl := None |}).
  exists (Calculator.setBillboards (Calculator.billboards s ++ [manual (now w)]) s),
    (Calculator.setBillboards
       ((Calculator.billboards s ++ [manual (now w)]) ++ [manual t'])
       (Calculator.setBillboards (Calculator.billboards s ++ [manual (now w)]) s)),
    (manual (now w)), (manual t').
  split; [reflexivity|]. split; [reflexivity|]. subst manual. cbv beta.
  cbn [Calculator.billboards Calculator.setBillboards bb_id atTime now].
  split; [reflexivity|]. split; [by rewrite <- app_assoc|].
  split; [rewrite manual_id_inj; by split|].
  intros Hfresh. unfold Calculator.removeBillboard.
  cbn [Calculator.billboards Calculator.setBillboards].
  rewrite <- app_assoc, List.filter_app. cbn [app List.filter bb_id].
  rewrite String.eqb_refl. cbn [negb].
  rewrite filter_keeps_all.
  - destruct (decide (t' = now w)) as [->|Hne].
    + rewrite String.eqb_refl. cbn [negb]. by rewrite app_nil_r.
    + destruct (String.eqb_spec ("manual-" +:+ Number_toString (now w))
                  ("manual-" +:+ Number_toString t')) as [Heq|_]; [|done].
      apply manual_id_inj in Heq. congruence.
  - eapply Forall_impl; [exact Hfresh|]. intros b Hb. cbv beta.
    by destruct (String.eqb_spec (bb_id b) ("manual-" +:+ Number_toString t')).
Qed.

(** ** The average daily price *)

Lemma sumOf_between {A : Type} (f : A → Z) (l : list A) (lo hi : Z) :
  Forall (λ x, lo ≤ f x ≤ hi) l →
  Z.of_nat (length l) * lo ≤ sumOf f l ≤ Z.of_nat (length l) * hi.
Proof.
  unfold sumOf. induction 1 as [|x l Hx _ IH]; [simpl; lia|].
  rewrite length_cons, Nat2Z.inj_succ. simpl. lia.
Qed.

(** X24. The average daily price of a list of calculations that is not
    empty lies between the least and the greatest of their daily prices:
    the rounding of the mean never leaves that range.  So when all lines
    have the same daily price, the average is that price. *)
Theorem calculateAverageDailyPrice_between
    (calculations : list PricingCalculation) (lo hi : Z) :
  calculations ≠ [] →
  Forall (λ calc, lo ≤ dailyPrice calc ≤ hi) calculations →
  lo ≤ calculateAverageDailyPrice calculations ≤ hi.
Proof.
  intros Hne Hall. rewrite calculateAverageDailyPrice_nonempty by done.
  pose proof (sumOf_between dailyPrice calculations lo hi Hall) as Hsum.
  assert (0 < Z.of_nat (length calculations)) as Hn.
  { destruct calculations; [done|]. rewrite length_cons. lia. }
  pose proof (Math_round_bounds (sumOf dailyPrice calculations)
                (Z.of_nat (length calculations)) Hn) as Hround.
  cbv zeta in Hround.
  set (r := Math_round _) in *. set (n := Z.of_nat _) in *.
  set (total := sumOf _ _) in *.
  split.
  - destruct (Z.le_gt_cases lo r) as [|Hlt]; [done|]. exfalso.
    assert (r * n ≤ (lo - 1) * n) by (apply Z.mul_le_mono_nonneg_r; lia). lia.
  - destruct (Z.le_gt_cases r hi) as [|Hgt]; [done|]. exfalso.
    assert ((hi + 1) * n ≤ r * n) by (apply Z.mul_le_mono_nonneg_r; lia). lia.
Qed.

Lemma calculateAverageDailyPrice_between_witness :
  ∃ calculations w',
    returns (calculateMultipleBillboards [sampleBillboard; sampleBillboard]
               Regular daily "2024-03-01" (Some "2024-03-07") None false)
      sampleWorld calculations w'
    ∧ calculateAverageDailyPrice calculations = 800.
Proof.
  eexists _, _. split; [vm_compute; reflexivity|].
  match goal with
  | |- ?average = 800 => assert (800 ≤ average ≤ 800) as Hbetween; [|lia]
  end.
  apply calculateAverageDailyPrice_between; [discriminate|].
  repeat apply Forall_cons_2; [simpl; lia|simpl; lia|apply Forall_nil_2].
Defined.

(** ** The campaign statistics on ordinary names *)

Lemma ownNames_samples :
  let calculations := [sampleCalculation 7 800; sampleCalculation 7 701] in
  ownNames (bb_size ∘ billboard <$> calculations)
  ∧ ownNames (bb_municipality ∘ billboard <$> calculations)
  ∧ ownNames (bb_level ∘ billboard <$> calculations).
Proof.
  repeat split; repeat apply Forall_cons_2; try apply Forall_nil_2;
    by vm_compute.
Qed.

Lemma getCampaignStats_counts_witness :
  let stats := getCampaignStats [sampleCalculation 7 800; sampleCalculation 7 701] in
  totalBillboards stats = 2
  ∧ countsOf ["13x5"; "13x5"] (sizeBreakdown stats).
Proof.
  destruct ownNames_samples as (Hsizes & Hmunicipalities & Hlevels).
  destruct (getCampaignStats_counts
              [sampleCalculation 7 800; sampleCalculation 7 701]
              Hsizes Hmunicipalities Hlevels) as (Htotal & Hcounts & _).
  intros stats. split; [exact Htotal|exact Hcounts].
Defined.

Lemma getCampaignStats_positive_witness :
  let stats := getCampaignStats [sampleCalculation 7 800; sampleCalculation 7 701] in
  sumCounts (sizeBreakdown stats) = 2
  ∧ sumCounts (municipalityBreakdown stats) = 2
  ∧ sumCounts (levelBreakdown stats) = 2.
Proof.
  destruct ownNames_samples as (Hsizes & Hmunicipalities & Hlevels).
  destruct (getCampaignStats_positive
              [sampleCalculation 7 800; sampleCalculation 7 701]
              Hsizes Hmunicipalities Hlevels)
    as (Htotal & [_ Hs] & [_ Hm] & [_ Hl]).
  intros stats. subst stats. rewrite Hs, Hm, Hl. repeat split; exact Htotal.
Defined.

(** ** The column that is not imported *)

(** X27. A column of the file whose header is [__proto__] is not imported:
    whatever the file, no row that the import accepts has a property of
    that name, the assignment of a text under [__proto__] storing
    nothing. *)
Theorem parseCSV_proto_column (csvData : string) :
  Forall (λ row : PricingRow, row !! "__proto__" = None) (parseCSV csvData).
Proof.
  unfold parseCSV. rewrite forLines_filter. cbn [app].
  apply Forall_forall. intros row Hrow.
  apply list_elem_of_filter in Hrow as [_ Hrow].
  apply list_elem_of_fmap in Hrow as (line & -> & _).
  unfold parseLine. apply forEachHeader_proto. apply lookup_empty.
Qed.
